(** * Bias in recommender systems (ICDM 2020 tutorial notebooks)

    A shallow embedding of the data-handling code of the notebooks
    [model_setup.ipynb], [item_popularity_bias.ipynb] and
    [item_provider_fairness.ipynb]: the per-user time-based splitter
    [user_timestamp], the per-item category vector, the provider-gender
    estimator and its merge with the interactions, the upsampling driver
    [run_with_upsampling] and the model pipeline [run_model].

    Data frames are lists of records (one record per row, rows in frame
    order); float64 columns are binary64 primitive floats, so that NaN and
    the rounding of [1.0 - split] are those of the interpreter; Python
    exceptions are an error monad. *)

From Stdlib Require Import String DecimalString.
From Stdlib Require Import ZArith List Bool Lia Permutation Sorted.
From Stdlib Require Import QArith Qround.
From Stdlib Require Import PrimFloat FloatOps SpecFloat FloatAxioms.
From stdpp Require gmap.
Import ListNotations.

Set Warnings "-inexact-float".
Open Scope Z_scope.

(* ===================================================================== *)
(** * Part I: the embedding                                               *)
(* ===================================================================== *)

(** ** Python values and exceptions *)

Module Py.

(** The exceptions the modelled code can raise. *)
Inductive exn : Set :=
| UnboundLocalError   (* a local read before any assignment *)
| ValueError          (* int(nan), pd.concat([]) *)
| OverflowError       (* int(inf) *)
| PreconditionError   (* a model method called in the wrong state *)
| KeyError            (* a dictionary lookup of an unknown key *)
| TypeError           (* int() of an array that has not one element *)
| IndexError.         (* a position outside of a sequence *)

Inductive result (A : Type) : Type :=
| Ok (a : A)
| Raise (e : exn).
Arguments Ok {A} a.
Arguments Raise {A} e.

Definition bind {A B} (c : result A) (k : A -> result B) : result B :=
  match c with
  | Ok a => k a
  | Raise e => Raise e
  end.

(** [int(x)] on a float: truncation toward zero; NaN and the infinities
    raise. *)
Definition int (x : float) : result Z :=
  match Prim2SF x with
  | S754_zero _ => Ok 0
  | S754_finite s m e =>
      let a := Z.shiftl (Zpos m) e in
      Ok (if s then - a else a)
  | S754_infinity _ => Raise OverflowError
  | S754_nan => Raise ValueError
  end.

(** The float an integer operand is converted to in [n * x]
    (round to nearest even). *)
Definition float_of_Z (n : Z) : float :=
  SF2Prim (binary_normalize prec emax n 0 false).

End Py.

Import Py.

(** ** The numbers behind the floats *)

Module Binary64.

(** The rational [±m·2^e]. *)
Definition number (s : bool) (m : positive) (e : Z) : Q :=
  let a := if s then Zneg m else Zpos m in
  if 0 <=? e then inject_Z (a * 2 ^ e)
  else a # (2 ^ Z.to_pos (- e)).

(** The number a float stands for; NaN and the infinities stand for
    none. *)
Definition value (x : float) : option Q :=
  match Prim2SF x with
  | S754_zero _ => Some 0%Q
  | S754_finite s m e => Some (number s m e)
  | S754_infinity _ | S754_nan => None
  end.


End Binary64.

Notation "'let*' x := c 'in' k" := (Py.bind c (fun x => k))
  (at level 10, x name, c at level 100, k at level 200).
Notation "'let*' ' pat := c 'in' k" :=
  (Py.bind c (fun x => match x with pat => k end))
  (at level 10, pat pattern, c at level 100, k at level 200).

(** ** The pandas and numpy operations the notebooks use *)

Module Pandas.

(** [DataFrame.head(n)] is [iloc[:n]]: a negative [n] drops the last
    [-n] rows. *)
Definition head {A} (n : Z) (df : list A) : list A :=
  if 0 <=? n then firstn (Z.to_nat n) df
  else firstn (length df - Z.to_nat (- n)) df.

(** [DataFrame.tail(n)] is empty for [n = 0] and [iloc[-n:]] otherwise:
    a negative [n] drops the first [-n] rows. *)
Definition tail {A} (n : Z) (df : list A) : list A :=
  if n =? 0 then []
  else if 0 <? n then skipn (length df - Z.to_nat n) df
       else skipn (Z.to_nat (- n)) df.

(** [pd.concat(frames)] raises on an empty list of frames. *)
Definition concat {A} (frames : list (list A)) : result (list A) :=
  match frames with
  | [] => Raise ValueError
  | _ => Ok (List.concat frames)
  end.

(** Insertion of a key in a strictly increasing list. *)
Fixpoint insert_unique (x : Z) (l : list Z) : list Z :=
  match l with
  | [] => [x]
  | y :: t =>
      if x <? y then x :: l
      else if x =? y then l
           else y :: insert_unique x t
  end.

(** [np.unique(col)], also the categories of [col.astype('category')]
    and the keys of a [groupby]: the distinct values in increasing
    order. *)
Definition unique (col : list Z) : list Z :=
  fold_right insert_unique [] col.

Fixpoint index_of (x : Z) (l : list Z) : nat :=
  match l with
  | [] => 0
  | y :: t => if x =? y then 0%nat else S (index_of x t)
  end.

(** [.cat.codes] of one value: its position among the categories. *)
Definition cat_code (categories : list Z) (x : Z) : Z :=
  Z.of_nat (index_of x categories).

Definition mem (x : Z) (l : list Z) : bool := existsb (Z.eqb x) l.

(** [drop_duplicates(subset=[key], keep='first')]: rows in frame order,
    a row kept when its key was not seen before. *)
Fixpoint drop_duplicates_from {A} (key : A -> Z) (seen : list Z)
         (df : list A) : list A :=
  match df with
  | [] => []
  | r :: t =>
      if mem (key r) seen then drop_duplicates_from key seen t
      else r :: drop_duplicates_from key (key r :: seen) t
  end.

Definition drop_duplicates {A} (key : A -> Z) (df : list A) : list A :=
  drop_duplicates_from key [] df.

End Pandas.

(** ** The train/test splitter of [model_setup.ipynb] *)

Module Splitter.

Import Pandas.

(** A row of the interaction dataset:
    [user_id, item_id, rating, timestamp, type, type_id]. *)
Record Interaction : Set := {
  user_id : Z;
  item_id : Z;
  rating : float;
  timestamp : Z;
  type_label : string;
  type_id : Z
}.

(** A row of the frame [user_timestamp] returns: the interaction columns
    with [user_id] and [item_id] recoded, plus [set], [user_id_original]
    and [item_id_original]. *)
Record SplitRow : Set := {
  s_user_id : Z;
  s_item_id : Z;
  s_rating : float;
  s_timestamp : Z;
  s_type_label : string;
  s_type_id : Z;
  s_set : string;
  s_user_id_original : Z;
  s_item_id_original : Z
}.

(** [group.sort_values(time_field)]: pandas sorts with a quicksort, so all
    the code can rely on is that the result is the same rows in
    non-decreasing timestamp order; the order among equal timestamps is
    the implementation's. *)
Class TimeSort : Type := {
  sort_values : list Interaction -> list Interaction;
  sort_values_perm : forall g, Permutation g (sort_values g);
  sort_values_sorted :
    forall g, StronglySorted (fun a b => timestamp a <= timestamp b)
                             (sort_values g)
}.

(** Insertion by timestamp, the (stable) sort the concrete runs below
    use. *)
Fixpoint insert_by_time (r : Interaction) (l : list Interaction)
  : list Interaction :=
  match l with
  | [] => [r]
  | x :: t =>
      if timestamp r <=? timestamp x then r :: l
      else x :: insert_by_time r t
  end.

Definition insertion_sort (g : list Interaction) : list Interaction :=
  fold_right insert_by_time [] g.

(** [interactions.groupby([user_field])]: one group per user, users in
    increasing order, each group with its rows in frame order. *)
Definition group_of (u : Z) (interactions : list Interaction)
  : list Interaction :=
  filter (fun r => user_id r =? u) interactions.

Definition groupby_user (interactions : list Interaction)
  : list (Z * list Interaction) :=
  map (fun u => (u, group_of u interactions))
      (unique (map user_id interactions)).

(** [int(len(sorted_group.index) * (1.0 - split))] *)
Definition n_rating_test (len : nat) (split : float) : result Z :=
  Py.int (Py.float_of_Z (Z.of_nat len) * (1 - split))%float.

Section UserTimestamp.

Context {sorter : TimeSort}.

(** The body of the loop for a user that is kept: the pair appended to
    [train_set] and [test_set]. *)
Definition split_group (group : list Interaction) (split : float)
  : result (list Interaction * list Interaction) :=
  let sorted_group := sort_values group in
  let* n := n_rating_test (length sorted_group) split in
  Ok (head (Z.of_nat (length sorted_group) - n) sorted_group,
      tail n sorted_group).

(** The loop over the groups; a user below [min_samples] is skipped
    ([continue]). *)
Fixpoint parse_users (groups : list (Z * list Interaction))
         (split : float) (min_samples : Z)
  : result (list (list Interaction) * list (list Interaction)) :=
  match groups with
  | [] => Ok ([], [])
  | (_, group) :: rest =>
      if Z.of_nat (length group) <? min_samples
      then parse_users rest split min_samples
      else
        let* '(tr, te) := split_group group split in
        let* '(train_set, test_set) :=
          parse_users rest split min_samples in
        Ok (tr :: train_set, te :: test_set)
  end.

Definition with_set (label : string) (r : Interaction)
  : Interaction * string := (r, label).

(** The last five assignments of [user_timestamp]: the original ids are
    saved, then both id columns are replaced by their category
    codes. *)
Definition recode (traintest : list (Interaction * string))
  : list SplitRow :=
  let users := unique (map (fun p => user_id (fst p)) traintest) in
  let items := unique (map (fun p => item_id (fst p)) traintest) in
  map (fun p =>
         let r := fst p in
         {| s_user_id := cat_code users (user_id r);
            s_item_id := cat_code items (item_id r);
            s_rating := rating r;
            s_timestamp := timestamp r;
            s_type_label := type_label r;
            s_type_id := type_id r;
            s_set := snd p;
            s_user_id_original := user_id r;
            s_item_id_original := item_id r |})
      traintest.

(** [user_timestamp(interactions, split, min_samples, ...)].  The
    progress line printed after the loop reads the loop variable [i],
    which is unbound when there was no group at all. *)
Definition user_timestamp (interactions : list Interaction)
           (split : float) (min_samples : Z) : result (list SplitRow) :=
  let groups := groupby_user interactions in
  let* '(train_set, test_set) := parse_users groups split min_samples in
  let* _ := match groups with
            | [] => Raise UnboundLocalError
            | _ => Ok tt
            end in
  let* train := concat train_set in
  let* test := concat test_set in
  let traintest :=
    map (with_set "train") train ++ map (with_set "test") test in
  Ok (recode traintest).

(** The call of the notebooks:
    [user_timestamp(data, train_ratio,
                    min_train_samples + min_test_samples, ...)]. *)
Definition split_utime (data : list Interaction) (train_ratio : float)
           (min_train_samples min_test_samples : Z)
  : result (list SplitRow) :=
  user_timestamp data train_ratio (min_train_samples + min_test_samples).



(** The loop described group by group, to state what it builds: the test
    of the [continue], the groups that pass it in the order of the loop, and
    the two frames appended for such a group. *)
Definition keeps (min_samples : Z) (g : list Interaction) : bool :=
  negb (Z.of_nat (length g) <? min_samples).

Definition kept_groups (min_samples : Z) (interactions : list Interaction)
  : list (list Interaction) :=
  filter (keeps min_samples) (map snd (groupby_user interactions)).

Definition test_count (split : float) (g : list Interaction) : Z :=
  match n_rating_test (length g) split with
  | Ok k => k
  | Raise _ => 0
  end.

Definition train_part (split : float) (g : list Interaction)
  : list Interaction :=
  head (Z.of_nat (length g) - test_count split g) (sort_values g).

Definition test_part (split : float) (g : list Interaction)
  : list Interaction :=
  tail (test_count split g) (sort_values g).

End UserTimestamp.

(** [traintest.drop_duplicates(subset=['item_id'],
                               keep='first')[type_field].values] *)
Definition category_per_item (traintest : list SplitRow) : list Z :=
  map s_type_id (drop_duplicates s_item_id traintest).

(** The interaction a split row was made from. *)
Definition original (r : SplitRow) : Interaction :=
  {| user_id := s_user_id_original r;
     item_id := s_item_id_original r;
     rating := s_rating r;
     timestamp := s_timestamp r;
     type_label := s_type_label r;
     type_id := s_type_id r |}.

(** The interactions of user [u] (original id) that the split frame
    assigns to the set [label], in frame order. *)
Definition rows_of (traintest : list SplitRow) (u : Z) (label : string)
  : list Interaction :=
  map original
      (filter (fun r => (s_user_id_original r =? u)
                        && String.eqb (s_set r) label)
              traintest).

End Splitter.

(** ** The provider-gender table of [item_provider_fairness.ipynb] *)

Module Provider.

Import Pandas Splitter.

(** A row of [ml1m-dir-gender.csv]: for an item, the fraction of its
    directors of each gender; a missing value is read as NaN. *)
Record GenderRow : Set := {
  g_item_id : Z;
  gender_1 : float;
  gender_2 : float
}.

(** A row of [gender_item_association] once [minority] and [majority] are
    added and [gender_1], [gender_2] deleted. *)
Record ShareRow : Set := {
  a_item_id : Z;
  minority : float;
  majority : float
}.

(** [lambda x: 1.0 if math.isnan(x) else x] *)
Definition minority_of (x : float) : float :=
  if is_nan x then 1%float else x.

(** [lambda x: 0.0 if math.isnan(x) else x] *)
Definition majority_of (x : float) : float :=
  if is_nan x then 0%float else x.

Definition estimate (g : GenderRow) : ShareRow :=
  {| a_item_id := g_item_id g;
     minority := minority_of (gender_1 g);
     majority := majority_of (gender_2 g) |}.

(** The two [apply] calls and the two [del]: row by row. *)
Definition group_representation (assoc : list GenderRow) : list ShareRow :=
  map estimate assoc.

(** A row of [data] after the merge: the interaction columns and the two
    shares of its item. *)
Record ProviderRow : Set := {
  interaction : Interaction;
  p_minority : float;
  p_majority : float
}.

Definition join (d : Interaction) (a : ShareRow) : ProviderRow :=
  {| interaction := d; p_minority := minority a; p_majority := majority a |}.

(** The rows of an inner join on [item_id]: each left row paired with every
    right row of the same [item_id], here in the order of the left frame. *)
Definition pairs (data : list Interaction) (assoc : list ShareRow)
  : list ProviderRow :=
  flat_map (fun d =>
              map (join d)
                  (filter (fun a => a_item_id a =? item_id d) assoc))
           data.

(** The row order of an inner [pd.merge].  The pandas of the notebooks'
    environment (every version before 2.2) returns the rows grouped by key,
    the keys in order of first appearance in the left frame
    ([group_by_key]); later versions keep the order of the left frame.  All
    the code can rely on is that the rows are the same. *)
Class JoinOrder : Type := {
  arrange : list ProviderRow -> list ProviderRow;
  arrange_perm : forall rows, Permutation rows (arrange rows)
}.

(** The order of pandas before 2.2: the rows of the first key, then those of
    the next key to appear, and so on; the rows of one key stay in the
    order of the left frame. *)
Definition group_by_key (rows : list ProviderRow) : list ProviderRow :=
  let key m := item_id (interaction m) in
  flat_map (fun k => filter (fun m => key m =? k) rows)
           (map key (drop_duplicates key rows)).

(** [pd.merge(data, gender_item_association, on='item_id')] *)
Definition merge `{JoinOrder} (data : list Interaction)
           (assoc : list ShareRow) : list ProviderRow :=
  arrange (pairs data assoc).

End Provider.

(** ** The upsampling driver of [item_provider_fairness.ipynb] *)

Module Upsampling.

Import stdpp.base stdpp.option stdpp.gmap.

(** A row of [train]: the columns the driver and the upsamplers read. *)
Record TrainRow : Set := {
  t_user_id : Z;
  t_item_id : Z;
  t_rating : float;
  t_timestamp : Z;
  t_minority : float;
  t_majority : float
}.

Definition set_rating (v : float) (r : TrainRow) : TrainRow :=
  {| t_user_id := t_user_id r;
     t_item_id := t_item_id r;
     t_rating := v;
     t_timestamp := t_timestamp r;
     t_minority := t_minority r;
     t_majority := t_majority r |}.

(** A duplicate of a row of [train]: the same row, up to its rating. *)
Definition duplicate_of (train : list TrainRow) (d : TrainRow) : Prop :=
  exists r, In r train /\ set_rating 1 d = set_rating 1 r.

(** Modelled from the spec: the upsamplers [real], [fake] and [fakeByPop]
    of [helpers/instances_upsampler.py], which are not in the sources.  The
    spec gives their contract, not their weights: the result is a new frame
    made of the original rows, unchanged and in order, followed by
    duplicates of original rows. *)
Class Upsampler : Type := {
  real : list TrainRow -> string -> float -> list TrainRow;
  fake : list TrainRow -> string -> list Z -> float -> list TrainRow;
  fakeByPop : list TrainRow -> string -> list Z -> float -> list TrainRow;
  real_appends :
    forall train col target,
      exists dups, real train col target = train ++ dups
                   /\ Forall (duplicate_of train) dups;
  fake_appends :
    forall train col items target,
      exists dups, fake train col items target = train ++ dups
                   /\ Forall (duplicate_of train) dups;
  fakeByPop_appends :
    forall train col items target,
      exists dups, fakeByPop train col items target = train ++ dups
                   /\ Forall (duplicate_of train) dups
}.

(** Data frames are objects: a variable holds a reference, and an
    assignment to a column writes through it. *)
Abbreviation heap := (gmap nat (list TrainRow)).

Definition alloc (h : heap) (df : list TrainRow) : heap * nat :=
  let l := fresh (dom h) in (<[l := df]> h, l).

(** [if umode == name: train = upsampler(train, ...)]: the local [train]
    is rebound to the new frame. *)
Definition rebind_if (cond : bool) (f : list TrainRow -> list TrainRow)
           (st : heap * nat) : option (heap * nat) :=
  if cond then df ← fst st !! snd st; Some (alloc (fst st) (f df))
  else Some st.

(** [train['rating'] = v] *)
Definition assign_rating (v : float) (st : heap * nat)
  : option (heap * nat) :=
  df ← fst st !! snd st;
  Some (<[snd st := map (set_rating v) df]> (fst st), snd st).

(** [str(n)] on an integer: its decimal digits, with a minus sign when it
    is negative. *)
Definition str (n : Z) : string := NilZero.string_of_int (Z.to_int n).

(** [model_id = smode + '_' + umode + '_' + str(int(utarget*100)) + '_'
                + model_type], the first statement of the driver: [int]
    raises on a target whose hundredfold is NaN or infinite. *)
Definition model_id (smode umode : string) (utarget : float)
           (model_type : string) : Py.result string :=
  let* n := Py.int (utarget * 100)%float in
  Py.Ok (String.append smode
          (String.append "_"
            (String.append umode
              (String.append "_"
                (String.append (str n)
                  (String.append "_" model_type)))))).

(** [run_with_upsampling(train, umode, utarget, model_type, items_w_min,
    ...)] up to the point where [train] is handed to the model, [smode]
    being the global of the notebook: the model id, then the heap after the
    assignment of the rating column and the reference the local [train]
    then holds ([None] only if [train] is no frame of the heap).  When the
    model id cannot be built, nothing else is run. *)
Definition run_with_upsampling `{Upsampler} (smode : string) (h : heap)
           (train : nat) (umode : string) (utarget : float)
           (model_type : string) (items_w_min : list Z)
  : Py.result (string * option (heap * nat)) :=
  let* id := model_id smode umode utarget model_type in
  Py.Ok (id,
         (st ← rebind_if (String.eqb umode "real")
                (fun df => real df "minority" utarget) (h, train);
          st ← rebind_if (String.eqb umode "fake")
                (fun df => fake df "minority" items_w_min utarget) st;
          st ← rebind_if (String.eqb umode "fakebypop")
                (fun df => fakeByPop df "minority" items_w_min utarget) st;
          assign_rating 1 st)).

(** An upsampler for concrete runs: every row of a minority item
    ([minority > 0]) is duplicated once. *)
Definition duplicate_minority (train : list TrainRow) : list TrainRow :=
  train ++ List.filter (fun r => (0 <? t_minority r)%float) train.

End Upsampling.

(** ** The ranking metrics *)

Module Metrics.

Local Open Scope Q_scope.

Section NDCG.

(** Modelled from the spec: the NDCG of [Model.test] in [models/model.py],
    which is not in the sources: "discounted cumulative gain of the ranked
    list against the binary relevance of test items, normalized by ideal
    DCG; 0 when the user has no test items".  The rank discount (usually
    [1 / log2 (rank + 2)]) is a parameter. *)
Variable discount : nat -> Q.

Definition gain (test_items : list Z) (item : Z) : Q :=
  if Pandas.mem item test_items then 1 else 0.

Fixpoint dcg_from (rank : nat) (ranked test_items : list Z) : Q :=
  match ranked with
  | [] => 0
  | item :: rest =>
      gain test_items item * discount rank
      + dcg_from (S rank) rest test_items
  end.

Definition dcg (k : nat) (ranked test_items : list Z) : Q :=
  dcg_from 0 (firstn k ranked) test_items.

Fixpoint discount_sum (rank n : nat) : Q :=
  match n with
  | O => 0
  | S n' => discount rank + discount_sum (S rank) n'
  end.

(** The ideal DCG: all the test items ranked first. *)
Definition idcg (k : nat) (test_items : list Z) : Q :=
  discount_sum 0 (Nat.min k (length (Pandas.unique test_items))).

(** Modelled from the spec: NDCG at cutoff [k], "0 when the user has no
    test items". *)
Definition ndcg (k : nat) (ranked test_items : list Z) : Q :=
  match test_items with
  | [] => 0
  | _ => dcg k ranked test_items / idcg k test_items
  end.

(** One user's column of [metrics['ndcg']]: one value per cutoff. *)
Definition ndcg_at (cutoffs : list nat) (ranked test_items : list Z)
  : list Q :=
  map (fun k => ndcg k ranked test_items) cutoffs.

End NDCG.

End Metrics.

(** ** The xQuad-style re-ranker *)

Module XQuad.

Local Open Scope Q_scope.

(** The items of a user by decreasing relevance; among equal scores the
    order of [items] is kept. *)
Fixpoint insert_by_score (rel : Z -> Q) (i : Z) (l : list Z) : list Z :=
  match l with
  | [] => [i]
  | j :: t =>
      if Qle_bool (rel j) (rel i) then i :: l
      else j :: insert_by_score rel i t
  end.

Definition rank_items (rel : Z -> Q) (items : list Z) : list Z :=
  fold_right (insert_by_score rel) [] items.

(** [a] may come before [b] in a list of non-increasing relevance. *)
Definition by_relevance (rel : Z -> Q) (a b : Z) : Prop := rel b <= rel a.

(** Modelled from the spec: the normalization of the relevance in the
    re-ranker's objective, which the spec names without defining; it is
    taken to preserve the order of the scores. *)
Class Normalization : Type := {
  normalize : Q -> Q;
  normalize_monotone : forall a b, a <= b -> normalize a <= normalize b
}.

Section Rerank.

Context {normalization : Normalization}.

(** Modelled from the spec: [RankerXQuad.rerank] of
    [models/ranker_xquad.py], which is not in the sources: "greedy
    selection: at each position, select the remaining candidate item (from
    the original top-rmax pool) maximizing (1 - lambda) *
    normalized_relevance + lambda * diversity_term", the diversity term
    depending on what is already in the list.  Among candidates of equal
    objective the first of the pool is taken. *)
Variable diversity : list Z -> Z -> Q.
Variable lambda : Q.

Definition objective (rel : Z -> Q) (selected : list Z) (c : Z) : Q :=
  (1 - lambda) * normalize (rel c) + lambda * diversity selected c.

Fixpoint argmax (f : Z -> Q) (best : Z) (candidates : list Z) : Z :=
  match candidates with
  | [] => best
  | c :: t =>
      if Qle_bool (f c) (f best) then argmax f best t else argmax f c t
  end.

Fixpoint remove_first (x : Z) (l : list Z) : list Z :=
  match l with
  | [] => []
  | y :: t => if Z.eqb x y then t else y :: remove_first x t
  end.

(** Modelled from the spec: the greedy selection of [k] items from the
    pool. *)
Fixpoint greedy (k : nat) (rel : Z -> Q) (selected pool : list Z)
  : list Z :=
  match k, pool with
  | S k', c :: t =>
      let best := argmax (objective rel selected) c t in
      greedy k' rel (selected ++ [best]) (remove_first best pool)
  | _, _ => selected
  end.

(** Modelled from the spec: the re-ranked top-[k] list of a user, the pool
    being the original top-[rmax] list. *)
Definition rerank (rel : Z -> Q) (items : list Z) (k rmax : nat)
  : list Z :=
  greedy k rel [] (firstn rmax (rank_items rel items)).

End Rerank.

End XQuad.

(** ** Sample frames *)

Module Sample.

Import Splitter.

Definition interaction (u i t c : Z) : Interaction :=
  {| user_id := u; item_id := i; rating := 1; timestamp := t;
     type_label := ""; type_id := c |}.

(** Three users: user 7 has 10 interactions (not in time order), user 3
    has 3 and user 9 has 12. *)
Definition interactions : list Interaction :=
  [ interaction 7 50 1009 2; interaction 7 20 1001 5;
    interaction 3 20 2000 5; interaction 7 30 1005 1;
    interaction 7 40 1002 4; interaction 9 50 3003 2;
    interaction 7 10 1010 3; interaction 3 10 2001 3;
    interaction 7 60 1003 6; interaction 7 70 1004 7;
    interaction 9 10 3001 3; interaction 9 20 3002 5;
    interaction 7 80 1006 8; interaction 7 90 1007 9;
    interaction 3 30 2002 1; interaction 7 95 1008 9;
    interaction 9 30 3012 1; interaction 9 40 3011 4;
    interaction 9 60 3010 6; interaction 9 70 3009 7;
    interaction 9 80 3008 8; interaction 9 90 3007 9;
    interaction 9 95 3006 9; interaction 9 96 3005 9;
    interaction 9 97 3004 9 ].

(** The [train_ratio] of the notebooks, [0.80]. *)
Definition train_ratio : float := 0.8.

(** A frame where every user is below ten interactions. *)
Definition few_interactions : list Interaction :=
  [ interaction 1 10 5 3; interaction 2 10 6 3; interaction 1 20 7 5 ].

(** One user, two items whose first occurrences are not in id order. *)
Definition two_items : list Interaction :=
  [ interaction 1 20 100 7; interaction 1 10 200 3 ].

(** A provider-gender table: item 10 has no known director gender, item 20
    only directors of the second gender, item 40 an unknown first fraction,
    item 50 one director of each gender; item 30 has no row. *)
Definition gender_table : list Provider.GenderRow :=
  [ {| Provider.g_item_id := 10;
       Provider.gender_1 := nan; Provider.gender_2 := nan |};
    {| Provider.g_item_id := 20;
       Provider.gender_1 := 0; Provider.gender_2 := 1 |};
    {| Provider.g_item_id := 40;
       Provider.gender_1 := nan; Provider.gender_2 := 0.5 |};
    {| Provider.g_item_id := 50;
       Provider.gender_1 := 0.5; Provider.gender_2 := 0.5 |} ].

(** A train frame with raw MovieLens ratings: item 10 is a minority item,
    item 20 is not. *)
Definition train_rows : list Upsampling.TrainRow :=
  [ {| Upsampling.t_user_id := 0; Upsampling.t_item_id := 10;
       Upsampling.t_rating := 4; Upsampling.t_timestamp := 1001;
       Upsampling.t_minority := 1; Upsampling.t_majority := 0 |};
    {| Upsampling.t_user_id := 0; Upsampling.t_item_id := 20;
       Upsampling.t_rating := 5; Upsampling.t_timestamp := 1002;
       Upsampling.t_minority := 0; Upsampling.t_majority := 1 |} ].

(** Relevance scores of one user for the items 1 to 5 (in tenths: 3, 6, 2,
    5, 1) and a diversity term that favours even items. *)
Definition relevance (i : Z) : Q := Qmake ((i * 3) mod 7) 10.

Definition even_bonus (selected : list Z) (c : Z) : Q :=
  if Z.even c then 1%Q else 0%Q.

End Sample.

(** ** The cells around the split *)

Module Cells.

Import Pandas Splitter.

(** [traintest[traintest['set']==label].copy()], the cell that makes
    [train] and [test]. *)
Definition select_set (label : string) (traintest : list SplitRow)
  : list SplitRow :=
  filter (fun r => String.eqb (s_set r) label) traintest.

(** [users = list(np.unique(traintest[user_field].values))] and
    [items = list(np.unique(traintest[item_field].values))] *)
Definition users (traintest : list SplitRow) : list Z :=
  unique (map s_user_id traintest).

Definition items (traintest : list SplitRow) : list Z :=
  unique (map s_item_id traintest).

(** [range(n)] *)
Definition range (n : nat) : list Z := map Z.of_nat (seq 0 n).

(** [data[rating_field] = data[rating_field].apply(lambda x: 1.0)] *)
Definition implicit_feedback (data : list Interaction) : list Interaction :=
  map (fun r =>
         {| user_id := user_id r; item_id := item_id r; rating := 1;
            timestamp := timestamp r; type_label := type_label r;
            type_id := type_id r |})
      data.

(** [Series.unique()]: the distinct values in order of first appearance
    (unlike [np.unique], which sorts). *)
Definition series_unique (col : list Z) : list Z :=
  drop_duplicates (fun x => x) col.

(** The two other exceptions the cells can raise. *)
Inductive cell_exn : Set :=
| IndexError   (* [index[0]] of an empty index *)
| TypeError.   (* [int(a)] of an array that has not exactly one element *)

(** [np.where(cutoffs == c)[0]]: the positions where [c] occurs. *)
Fixpoint where_eq_from (i : nat) (cutoffs : list Z) (c : Z) : list nat :=
  match cutoffs with
  | [] => []
  | x :: t =>
      if x =? c then i :: where_eq_from (S i) t c
      else where_eq_from (S i) t c
  end.

Definition where_eq (cutoffs : list Z) (c : Z) : list nat :=
  where_eq_from 0 cutoffs c.

(** [int(a)] on an array of positions. *)
Definition int_of_array (a : list nat) : nat + cell_exn :=
  match a with
  | [i] => inl i
  | _ => inr TypeError
  end.

(** [int(np.where(cutoffs == c)[0])], the [index_k] handed to
    [show_metrics] and the [kindex] of the coverage cell. *)
Definition cutoff_index (cutoffs : list Z) (c : Z) : nat + cell_exn :=
  int_of_array (where_eq cutoffs c).

End Cells.

(** ** The model life cycle and [run_model] of [model_setup.ipynb] *)

Module Model.

(** Modelled from the spec: the class [Model] of [models/model.py] and its
    subclasses [Random], [MostPop], [PointWise] and [PairWise], which are
    not in the sources.  The spec gives the life cycle: [train()] moves
    Uninitialized or Trained to Trained (through Training); [predict()]
    requires Trained, produces the relevance matrix and moves to Predicted;
    [test()] requires Predicted, computes the metrics and moves to
    Evaluated; a call in any other state fails with a state-precondition
    error. *)
Inductive status : Set :=
| Uninitialized
| Training
| Trained
| Predicted
| Evaluated.

Inductive kind : Set := Random | MostPop | PointWise | PairWise.

(** [model_types = {'random': Random, 'mostpop': MostPop,
                    'pointwise': PointWise, 'pairwise': PairWise}] *)
Definition model_types (model_type : string) : option kind :=
  if String.eqb model_type "random" then Some Random
  else if String.eqb model_type "mostpop" then Some MostPop
  else if String.eqb model_type "pointwise" then Some PointWise
  else if String.eqb model_type "pairwise" then Some PairWise
  else None.

(** The epochs [run_model] passes on in
    [model.train(no_epochs=no_epochs) if no_epochs else model.train()]:
    [no_epochs] when it is truthy, the default otherwise. *)
Definition epochs_passed (no_epochs : option nat) : option nat :=
  match no_epochs with
  | Some (S n) => Some (S n)
  | _ => None
  end.

(** [int(np.where(cutoffs == c)[0])], the argument of [show_metrics]. *)
Definition index_k (cutoffs : list Z) (c : Z) : Py.result nat :=
  match Cells.cutoff_index cutoffs c with
  | inl i => Py.Ok i
  | inr Cells.TypeError => Py.Raise Py.TypeError
  | inr Cells.IndexError => Py.Raise Py.IndexError
  end.

Section Pipeline.

(** What the models compute is left open: the data they are built from, the
    fitted parameters, the relevance matrix, the metrics bag and what
    [show_metrics] prints.  The cutoffs are the array of the notebook. *)
Variables Data Params Scores Metrics ItemGroup Report : Type.
Variable fit : kind -> Data -> option nat -> Params.
Variable score : kind -> Data -> Params -> Scores.
Variable evaluate : Data -> Scores -> ItemGroup -> list Z -> Metrics.

Record model : Type := {
  model_kind : kind;
  data : Data;
  state : status;
  params : option Params;
  predictions : option Scores;
  metrics : option Metrics
}.

(** [model.show_metrics(index_k=i)]: neither the sources nor the spec say
    what the method does with the model; it is a parameter. *)
Variable show_metrics : model -> nat -> Py.result Report.

(** The constructor: [model_types[model_type](users, items, train, test,
    category_per_item, item_field, user_field, rating_field)]. *)
Definition init (k : kind) (d : Data) : model :=
  {| model_kind := k; data := d; state := Uninitialized;
     params := None; predictions := None; metrics := None |}.

(** Modelled from the spec: [train()] moves Uninitialized or Trained to
    Trained. *)
Definition train (no_epochs : option nat) (m : model) : Py.result model :=
  match state m with
  | Uninitialized | Trained =>
      Py.Ok {| model_kind := model_kind m; data := data m;
               state := Trained;
               params := Some (fit (model_kind m) (data m) no_epochs);
               predictions := None; metrics := None |}
  | _ => Py.Raise Py.PreconditionError
  end.

(** Modelled from the spec: [predict()] requires Trained, produces the
    relevance matrix and moves to Predicted. *)
Definition predict (m : model) : Py.result model :=
  match state m, params m with
  | Trained, Some p =>
      Py.Ok {| model_kind := model_kind m; data := data m;
               state := Predicted;
               params := params m;
               predictions := Some (score (model_kind m) (data m) p);
               metrics := None |}
  | _, _ => Py.Raise Py.PreconditionError
  end.

(** Modelled from the spec: [test()] requires Predicted, computes the
    metrics and moves to Evaluated. *)
Definition test (item_group : ItemGroup) (cutoffs : list Z) (m : model)
  : Py.result model :=
  match state m, predictions m with
  | Predicted, Some s =>
      Py.Ok {| model_kind := model_kind m; data := data m;
               state := Evaluated;
               params := params m;
               predictions := predictions m;
               metrics := Some (evaluate (data m) s item_group cutoffs) |}
  | _, _ => Py.Raise Py.PreconditionError
  end.

Definition get_predictions (m : model) : option Scores := predictions m.
Definition get_metrics (m : model) : option Metrics := metrics m.

(** What a [save_obj] call writes: the scores file or the metrics file. *)
Inductive saved : Type :=
| scores_pkl (scores : option Scores)
| metrics_pkl (metrics : option Metrics).

(** [run_model(model_type, no_epochs)] of the notebook, statement by
    statement: the files written by the [save_obj] calls that were reached,
    and how the call ends: with what [show_metrics] gives at the position of
    the cutoff 10, or with the first exception.  An unknown [model_type] is
    a failed dictionary lookup. *)
Definition run_model (d : Data) (item_group : ItemGroup) (cutoffs : list Z)
           (model_type : string) (no_epochs : option nat)
  : list saved * Py.result Report :=
  match model_types model_type with
  | None => ([], Py.Raise Py.KeyError)
  | Some k =>
      let model := init k d in
      match (match no_epochs with
             | Some (S n) => train (Some (S n)) model
             | _ => train None model
             end) with
      | Py.Raise e => ([], Py.Raise e)
      | Py.Ok model =>
          match predict model with
          | Py.Raise e => ([], Py.Raise e)
          | Py.Ok model =>
              let scores := get_predictions model in
              match test item_group cutoffs model with
              | Py.Raise e => ([scores_pkl scores], Py.Raise e)
              | Py.Ok model =>
                  let metrics := get_metrics model in
                  ([scores_pkl scores; metrics_pkl metrics],
                   let* i := index_k cutoffs 10 in
                   show_metrics model i)
              end
          end
      end
  end.

End Pipeline.

Arguments model_kind {Data Params Scores Metrics} m.
Arguments data {Data Params Scores Metrics} m.
Arguments state {Data Params Scores Metrics} m.
Arguments params {Data Params Scores Metrics} m.
Arguments predictions {Data Params Scores Metrics} m.
Arguments metrics {Data Params Scores Metrics} m.
Arguments init {Data Params Scores Metrics} k d.
Arguments train {Data Params Scores Metrics} fit no_epochs m.
Arguments predict {Data Params Scores Metrics} score m.
Arguments test {Data Params Scores Metrics ItemGroup}
  evaluate item_group cutoffs m.
Arguments get_predictions {Data Params Scores Metrics} m.
Arguments get_metrics {Data Params Scores Metrics} m.
Arguments scores_pkl {Scores Metrics} scores.
Arguments metrics_pkl {Scores Metrics} metrics.
Arguments run_model {Data Params Scores Metrics ItemGroup Report}
  fit score evaluate show_metrics d item_group cutoffs model_type no_epochs.

End Model.

(** ** Item popularity, [item_popularity_bias.ipynb] *)

Module Popularity.

Import Pandas Cells.

(** [data.groupby([item_field]).count()[user_field]] and
    [data.groupby(by=['item_id']).size()] read one column: for each item, in
    increasing id, the number of rows of the item. *)
Definition count_rows (col : list Z) (i : Z) : nat :=
  length (filter (Z.eqb i) col).

Definition item_counts (col : list Z) : list (Z * nat) :=
  map (fun i => (i, count_rows col i)) (unique col).

(** [sort_values(..., ascending=False)] on the counts: as for the
    timestamps, the same entries in non-increasing count order, the order
    among equal counts being the implementation's. *)
Class CountSort : Type := {
  sort_counts : list (Z * nat) -> list (Z * nat);
  sort_counts_perm : forall l, Permutation l (sort_counts l);
  sort_counts_sorted :
    forall l, StronglySorted (fun a b => (snd b <= snd a)%nat)
                             (sort_counts l)
}.

Fixpoint insert_by_count (p : Z * nat) (l : list (Z * nat))
  : list (Z * nat) :=
  match l with
  | [] => [p]
  | q :: t =>
      if (snd q <=? snd p)%nat then p :: l
      else q :: insert_by_count p t
  end.

Definition insertion_sort_counts (l : list (Z * nat)) : list (Z * nat) :=
  fold_right insert_by_count [] l.

(** [s[n:]] on a series, by position: a negative [n] keeps the last
    [-n] entries. *)
Definition slice_from {A} (n : Z) (s : list A) : list A :=
  if 0 <=? n then skipn (Z.to_nat n) s
  else skipn (length s - Z.to_nat (- n)) s.

Section ItemPop.

Context {sorter : CountSort}.

(** [item_pop = data.groupby([item_field]).count()
                    .sort_values(user_field, ascending=False)[user_field]] *)
Definition item_pop (col : list Z) : list (Z * nat) :=
  sort_counts (item_counts col).

(** [head_tail_items = np.array(item_pop[:head_tail_split].index)] and
    [long_tail_items = np.array(item_pop[head_tail_split:].index)];
    [s[:n]] is [head(n)]. *)
Definition head_tail_items (head_tail_split : Z) (col : list Z) : list Z :=
  map fst (head head_tail_split (item_pop col)).

Definition long_tail_items (head_tail_split : Z) (col : list Z) : list Z :=
  map fst (slice_from head_tail_split (item_pop col)).

(** [data.groupby(by=['item_id']).size()
        .sort_values(ascending=False).index[0]] *)
Definition most_popular (col : list Z) : Z + cell_exn :=
  match item_pop col with
  | [] => inr IndexError
  | (i, _) :: _ => inl i
  end.

End ItemPop.

End Popularity.

(** ** Group representation counts, [item_provider_fairness.ipynb] *)

Module Representation.

(** [len(df[df[col] > 0])], [len(df[df[col] == 0])] on a float column, and
    the number of missing values. *)
Definition count_positive (col : list float) : nat :=
  length (filter (fun x => (0 <? x)%float) col).

Definition count_zero (col : list float) : nat :=
  length (filter (fun x => (x =? 0)%float) col).

Definition count_nan (col : list float) : nat :=
  length (filter is_nan col).

End Representation.

(** ** The item groups handed to [Model.test] *)

Module ItemGroups.

Import stdpp.base stdpp.gmap.
Import Pandas Splitter Provider Cells.

(** [{k: v for k, v in zip(keys, values)}]: [zip] stops at the shorter
    list, a later pair replaces an earlier one of the same key. *)
Definition dict_of {V} (keys : list Z) (values : list V) : gmap Z V :=
  fold_left (fun d p => <[fst p := snd p]> d) (combine keys values) ∅.

(** [gender_maps = {i: g for i, g in zip(assoc['item_id'],
                                         assoc['gender_1'])}], [assoc] being
    [gender_item_association]. *)
Definition gender_maps (assoc : list GenderRow) : gmap Z float :=
  dict_of (map g_item_id assoc) (map gender_1 assoc).

(** [item_maps = {i1: i2 for i1, i2 in
                  zip(traintest['item_id'].unique(),
                      traintest['item_id_original'].unique())}] *)
Definition item_maps (traintest : list SplitRow) : gmap Z Z :=
  dict_of (series_unique (map s_item_id traintest))
          (series_unique (map s_item_id_original traintest)).

(** [1 if item_maps[i] in gender_maps and gender_maps[item_maps[i]] == 0
     else 0]; [item_maps[i]] raises on a missing key. *)
Definition item_group_entry (gm : gmap Z float) (im : gmap Z Z) (i : Z)
  : Py.result Z :=
  match im !! i with
  | None => Py.Raise Py.KeyError
  | Some o =>
      Py.Ok (match gm !! o with
             | Some g => if (g =? 0)%float then 1%Z else 0%Z
             | None => 0%Z
             end)
  end.

(** A list comprehension whose element can raise. *)
Fixpoint comprehension {A B} (f : A -> Py.result B) (l : list A)
  : Py.result (list B) :=
  match l with
  | [] => Py.Ok []
  | x :: t =>
      let* y := f x in
      let* ys := comprehension f t in
      Py.Ok (y :: ys)
  end.

(** What the condition of the comprehension computes from an original id:
    the dictionary keeps the last row of the table for an id. *)
Definition group_by_original (assoc : list GenderRow) (o : Z) : Z :=
  match find (fun a => (g_item_id a =? o)%Z) (rev assoc) with
  | Some a => if (gender_1 a =? 0)%float then 1 else 0
  | None => 0
  end.

(** [item_group = [... for i in range(len(items))]] of [model_setup.ipynb]
    and [item_popularity_bias.ipynb]. *)
Definition item_group (assoc : list GenderRow) (traintest : list SplitRow)
  : Py.result (list Z) :=
  comprehension (item_group_entry (gender_maps assoc) (item_maps traintest))
                (range (length (items traintest))).

(** [items_w_min = np.unique(traintest[traintest['minority'] > 0]['item_id'])]
    and [items_w_maj], with [== 0], of [item_provider_fairness.ipynb]; the
    rows of [traintest] are given by the columns these cells read. *)
Definition items_w_min (traintest : list Upsampling.TrainRow) : list Z :=
  unique (map Upsampling.t_item_id
              (List.filter (fun r => (0 <? Upsampling.t_minority r)%float)
                           traintest)).

Definition items_w_maj (traintest : list Upsampling.TrainRow) : list Z :=
  unique (map Upsampling.t_item_id
              (List.filter (fun r => (Upsampling.t_minority r =? 0)%float)
                           traintest)).

(** [items_map = traintest.drop_duplicates(subset='item_id', keep='first')]
    [item_group = {i: (0.0 if v > 0 else 1.0)
                   for i, v in zip(items_map['item_id'],
                                   items_map['minority'])}] *)
Definition group_of_share (v : float) : float :=
  if (0 <? v)%float then 0%float else 1%float.

Definition item_group_dict (traintest : list Upsampling.TrainRow)
  : gmap Z float :=
  let items_map := drop_duplicates Upsampling.t_item_id traintest in
  dict_of (map Upsampling.t_item_id items_map)
          (map (fun r => group_of_share (Upsampling.t_minority r)) items_map).

End ItemGroups.

(** ** The coverage cell of [item_provider_fairness.ipynb] *)

Module Coverage.

Import Pandas Cells.

(** What the cell can raise. *)
Inductive exn : Set := IndexError | ZeroDivisionError.

Definition bind {A B} (c : A + exn) (k : A -> B + exn) : B + exn :=
  match c with
  | inl x => k x
  | inr e => inr e
  end.

(** One element of [a[ids]], [ids] an integer array: a negative index counts
    from the end, an index outside [-len(a), len(a)) raises. *)
Definition item_at (a : list float) (i : Z) : float + exn :=
  let n := Z.of_nat (length a) in
  let j := if i <? 0 then i + n else i in
  if (0 <=? j) && (j <? n) then
    match nth_error a (Z.to_nat j) with
    | Some m => inl m
    | None => inr IndexError
    end
  else inr IndexError.

(** [a[ids]] *)
Fixpoint fancy (a : list float) (ids : list Z) : list float + exn :=
  match ids with
  | [] => inl []
  | i :: t =>
      bind (item_at a i) (fun m =>
      bind (fancy a t) (fun ms => inl (m :: ms)))
  end.

(** The indices [a[i]] accepts. *)
Definition valid_index (row : list float) (i : Z) : Prop :=
  - Z.of_nat (length row) <= i < Z.of_nat (length row).

(** Whether position [j] of the array passes [m > 0]. *)
Definition positive_at (row : list float) (j : nat) : bool :=
  match nth_error row j with
  | Some m => (0 <? m)%float
  | None => false
  end.

(** [len([1 for m in row if m > 0])] *)
Definition covered (row : list float) : nat :=
  length (filter (fun m => (0 <? m)%float) row).

(** [a / b] on two lengths: the quotient of the two integers rounded to the
    nearest float, which for lengths below [2^53] is the quotient of their
    (exact) conversions. *)
Definition true_div (a b : nat) : float + exn :=
  if Nat.eqb b 0 then inr ZeroDivisionError
  else inl (Py.float_of_Z (Z.of_nat a) / Py.float_of_Z (Z.of_nat b))%float.

Record CoverageRow : Set := {
  cov : float;
  g1_over_cov : float;
  g2_over_cov : float;
  g1_rel_cov : float;
  g2_rel_cov : float
}.

(** The body of the loop for one model, [row] being
    [metrics[model_type]['item_coverage'][kindex]]: the comprehension of each
    line is evaluated before its division. *)
Definition coverage_row (row : list float) (items items_g1 items_g2 : list Z)
  : CoverageRow + exn :=
  bind (true_div (covered row) (length items)) (fun coverage =>
  bind (fancy row items_g1) (fun r1 =>
  bind (true_div (covered r1) (length items)) (fun coverage_g1o =>
  bind (fancy row items_g2) (fun r2 =>
  bind (true_div (covered r2) (length items)) (fun coverage_g2o =>
  bind (fancy row items_g1) (fun r1' =>
  bind (true_div (covered r1') (length items_g1)) (fun coverage_g1r =>
  bind (fancy row items_g2) (fun r2' =>
  bind (true_div (covered r2') (length items_g2)) (fun coverage_g2r =>
  inl {| cov := coverage;
         g1_over_cov := coverage_g1o;
         g2_over_cov := coverage_g2o;
         g1_rel_cov := coverage_g1r;
         g2_rel_cov := coverage_g2r |}))))))))).

(** The cell on a frame: [items_g1] and [items_g2] are computed as
    [items_w_min] and [items_w_maj] are. *)
Definition coverage_results_row (traintest : list Upsampling.TrainRow)
           (items : list Z) (row : list float) : CoverageRow + exn :=
  coverage_row row items (ItemGroups.items_w_min traintest)
               (ItemGroups.items_w_maj traintest).

End Coverage.

(** ** More sample data *)

Module Cases.

Import Splitter.

Definition rated (i : Z) (r : float) (t c : Z) : Interaction :=
  {| user_id := 4; item_id := i; rating := r; timestamp := t;
     type_label := ""; type_id := c |}.

(** One user with raw MovieLens ratings, ten items rated in id order. *)
Definition one_user : list Interaction :=
  [ rated 10 4 1 3; rated 20 5 2 5; rated 30 3 3 1; rated 40 1 4 4;
    rated 50 2 5 2; rated 60 5 6 6; rated 70 4 7 7; rated 80 3 8 8;
    rated 90 4 9 9; rated 95 5 10 9 ].

(** [cutoffs = np.array([5, 10, 20, 50, 100, 200])] *)
Definition cutoffs : list Z := [5; 10; 20; 50; 100; 200].

(** The item column of the sample interactions. *)
Definition item_column : list Z := map item_id Sample.interactions.

(** A frame with dense item ids: item 0 of the minority group (two rows),
    item 1 of the majority group, item 2 shared by both. *)
Definition provider_row (u i : Z) (minority majority : float)
  : Upsampling.TrainRow :=
  {| Upsampling.t_user_id := u; Upsampling.t_item_id := i;
     Upsampling.t_rating := 1; Upsampling.t_timestamp := 1000 + u;
     Upsampling.t_minority := minority;
     Upsampling.t_majority := majority |}.

Definition provider_rows : list Upsampling.TrainRow :=
  [ provider_row 0 0 1 0; provider_row 0 1 0 1;
    provider_row 1 0 1 0; provider_row 1 2 0.5 0.5 ].

(** The coverage of the three items at one cutoff: item 2 is recommended to
    nobody. *)
Definition item_coverage : list float := [1; 1; 0]%float.

End Cases.

(* ===================================================================== *)
(** * Part II: properties                                                 *)
(* ===================================================================== *)

(** ** Facts about the pandas operations *)

Section PandasFacts.

Import Pandas.

Lemma insert_unique_In (x y : Z) (l : list Z) :
  In y (insert_unique x l) <-> y = x \/ In y l.
Proof.
  induction l as [|a l IH]; simpl.
  - intuition.
  - destruct (x <? a) eqn:Hlt; [simpl; intuition|].
    destruct (x =? a) eqn:Heq.
    + apply Z.eqb_eq in Heq; subst a. simpl; intuition.
    + simpl. rewrite IH. intuition.
Qed.

Lemma unique_In (x : Z) (col : list Z) : In x (unique col) <-> In x col.
Proof.
  unfold unique. induction col as [|a col IH]; simpl.
  - tauto.
  - rewrite insert_unique_In, IH. intuition.
Qed.

Lemma insert_unique_sorted (x : Z) (l : list Z) :
  StronglySorted Z.lt l -> StronglySorted Z.lt (insert_unique x l).
Proof.
  induction 1 as [|a l Hs IH Hall]; simpl.
  - repeat constructor.
  - destruct (x <? a) eqn:Hlt.
    + apply Z.ltb_lt in Hlt. constructor.
      * now constructor.
      * constructor; [assumption|].
        eapply Forall_impl; [|exact Hall]. intros; lia.
    + destruct (x =? a) eqn:Heq; [now constructor|].
      apply Z.ltb_ge in Hlt. apply Z.eqb_neq in Heq.
      constructor; [assumption|].
      apply Forall_forall. intros y Hy.
      apply insert_unique_In in Hy. destruct Hy as [->|Hy]; [lia|].
      rewrite Forall_forall in Hall. now apply Hall.
Qed.

Lemma unique_sorted (col : list Z) : StronglySorted Z.lt (unique col).
Proof.
  unfold unique. induction col; simpl.
  - constructor.
  - now apply insert_unique_sorted.
Qed.

Lemma strictly_sorted_NoDup (l : list Z) :
  StronglySorted Z.lt l -> NoDup l.
Proof.
  induction 1 as [|a l Hs IH Hall]; constructor; [|assumption].
  intro Hin. rewrite Forall_forall in Hall.
  specialize (Hall a Hin). lia.
Qed.

Lemma unique_NoDup (col : list Z) : NoDup (unique col).
Proof. apply strictly_sorted_NoDup, unique_sorted. Qed.

Lemma index_of_lt (x : Z) (l : list Z) :
  In x l -> (index_of x l < length l)%nat.
Proof.
  induction l as [|a l IH]; simpl; [tauto|].
  intros Hin. destruct (x =? a) eqn:Heq; [lia|].
  apply Z.eqb_neq in Heq.
  destruct Hin as [->|Hin]; [congruence|].
  specialize (IH Hin). lia.
Qed.

Lemma nth_index_of (x d : Z) (l : list Z) :
  In x l -> nth (index_of x l) l d = x.
Proof.
  induction l as [|a l IH]; simpl; [tauto|].
  intros Hin. destruct (x =? a) eqn:Heq.
  - apply Z.eqb_eq in Heq. congruence.
  - apply Z.eqb_neq in Heq.
    destruct Hin as [->|Hin]; [congruence|]. now apply IH.
Qed.

Lemma index_of_inj (x y : Z) (l : list Z) :
  In x l -> In y l -> index_of x l = index_of y l -> x = y.
Proof.
  intros Hx Hy Heq.
  rewrite <- (nth_index_of x 0 l Hx), <- (nth_index_of y 0 l Hy).
  now rewrite Heq.
Qed.

Lemma index_of_nth (i : nat) (d : Z) (l : list Z) :
  NoDup l -> (i < length l)%nat -> index_of (nth i l d) l = i.
Proof.
  intros Hnd. revert i.
  induction Hnd as [|a l Hnotin Hnd IH]; intros i Hi; simpl in *; [lia|].
  destruct i as [|i].
  - now rewrite Z.eqb_refl.
  - destruct (nth i l d =? a) eqn:Heq.
    + apply Z.eqb_eq in Heq. exfalso. apply Hnotin.
      rewrite <- Heq. apply nth_In. lia.
    + f_equal. apply IH. lia.
Qed.

Lemma cat_code_range (cats : list Z) (x : Z) :
  In x cats -> 0 <= cat_code cats x < Z.of_nat (length cats).
Proof.
  intros Hin. unfold cat_code.
  pose proof (index_of_lt x cats Hin). lia.
Qed.

Lemma cat_code_inj (cats : list Z) (x y : Z) :
  In x cats -> In y cats -> cat_code cats x = cat_code cats y -> x = y.
Proof.
  unfold cat_code. intros Hx Hy Heq.
  apply (index_of_inj x y cats Hx Hy). lia.
Qed.


Lemma firstn_In {A} (n : nat) (l : list A) (x : A) :
  In x (firstn n l) -> In x l.
Proof.
  intros H. rewrite <- (firstn_skipn n l). apply in_or_app. now left.
Qed.

Lemma skipn_In {A} (n : nat) (l : list A) (x : A) :
  In x (skipn n l) -> In x l.
Proof.
  intros H. rewrite <- (firstn_skipn n l). apply in_or_app. now right.
Qed.

Lemma head_incl {A} (n : Z) (df : list A) (x : A) :
  In x (head n df) -> In x df.
Proof.
  unfold head. destruct (0 <=? n); apply firstn_In.
Qed.

Lemma tail_incl {A} (n : Z) (df : list A) (x : A) :
  In x (tail n df) -> In x df.
Proof.
  unfold tail. destruct (n =? 0); [intros []|].
  destruct (0 <? n); apply skipn_In.
Qed.

Lemma head_tail_cover {A} (k : Z) (df : list A) (x : A) :
  In x df ->
  In x (head (Z.of_nat (length df) - k) df) \/ In x (tail k df).
Proof.
  intros Hx. unfold head, tail.
  destruct (Z_le_gt_dec k 0) as [Hk|Hk].
  - left. replace (0 <=? Z.of_nat (length df) - k) with true
      by (symmetry; apply Z.leb_le; lia).
    rewrite firstn_all2 by lia. exact Hx.
  - replace (k =? 0) with false by (symmetry; apply Z.eqb_neq; lia).
    replace (0 <? k) with true by (symmetry; apply Z.ltb_lt; lia).
    destruct (0 <=? Z.of_nat (length df) - k) eqn:Hle.
    + apply Z.leb_le in Hle.
      replace (length df - Z.to_nat k)%nat
        with (Z.to_nat (Z.of_nat (length df) - k)) by lia.
      apply in_app_or. now rewrite firstn_skipn.
    + apply Z.leb_gt in Hle. right.
      replace (length df - Z.to_nat k)%nat with 0%nat by lia.
      exact Hx.
Qed.

End PandasFacts.

(** ** The time-based splitter *)

Import Pandas Splitter.

Lemma insert_by_time_perm (r : Interaction) (l : list Interaction) :
  Permutation (r :: l) (insert_by_time r l).
Proof.
  induction l as [|x l IH]; simpl.
  - apply Permutation_refl.
  - destruct (timestamp r <=? timestamp x).
    + apply Permutation_refl.
    + eapply perm_trans; [apply perm_swap|]. now apply perm_skip.
Qed.

Lemma insertion_sort_perm (g : list Interaction) :
  Permutation g (insertion_sort g).
Proof.
  unfold insertion_sort. induction g as [|r g IH]; simpl.
  - apply perm_nil.
  - eapply perm_trans; [apply perm_skip, IH|]. apply insert_by_time_perm.
Qed.

Lemma insert_by_time_sorted (r : Interaction) (l : list Interaction) :
  StronglySorted (fun a b => timestamp a <= timestamp b) l ->
  StronglySorted (fun a b => timestamp a <= timestamp b) (insert_by_time r l).
Proof.
  induction 1 as [|x l Hs IH Hall]; simpl.
  - repeat constructor.
  - destruct (timestamp r <=? timestamp x) eqn:Hle.
    + apply Z.leb_le in Hle. constructor; [now constructor|].
      constructor; [assumption|].
      eapply Forall_impl; [|exact Hall]. simpl; intros; lia.
    + apply Z.leb_gt in Hle. constructor; [assumption|].
      apply Forall_forall. intros y Hy.
      apply (Permutation_in _ (Permutation_sym (insert_by_time_perm r l)))
        in Hy.
      destruct Hy as [<-|Hy]; [lia|].
      rewrite Forall_forall in Hall. now apply Hall.
Qed.

Lemma insertion_sort_sorted (g : list Interaction) :
  StronglySorted (fun a b => timestamp a <= timestamp b) (insertion_sort g).
Proof.
  unfold insertion_sort. induction g; simpl.
  - constructor.
  - now apply insert_by_time_sorted.
Qed.

#[export] Instance insertion_time_sort : TimeSort := {|
  sort_values := insertion_sort;
  sort_values_perm := insertion_sort_perm;
  sort_values_sorted := insertion_sort_sorted
|}.

Section SplitterFacts.

Context {sorter : TimeSort}.

Lemma sort_values_length (g : list Interaction) :
  length (sort_values g) = length g.
Proof. symmetry. apply Permutation_length, sort_values_perm. Qed.

Lemma sort_values_In (r : Interaction) (g : list Interaction) :
  In r (sort_values g) <-> In r g.
Proof.
  split; apply Permutation_in;
    [apply Permutation_sym|]; apply sort_values_perm.
Qed.

Variable split : float.
Variable min_samples : Z.

Lemma parse_users_ok (groups : list (Z * list Interaction))
      (train_set test_set : list (list Interaction)) :
  parse_users groups split min_samples = Ok (train_set, test_set) ->
  train_set
    = map (train_part split) (filter (keeps min_samples) (map snd groups)) /\
  test_set
    = map (test_part split) (filter (keeps min_samples) (map snd groups)) /\
  Forall (fun g => exists k, n_rating_test (length g) split = Ok k)
         (filter (keeps min_samples) (map snd groups)).
Proof.
  revert train_set test_set.
  induction groups as [|[u g] groups IH]; intros trs tes; simpl.
  - intros H; inversion H; subst. repeat split; constructor.
  - assert (Hkeeps : keeps min_samples g
                      = negb (Z.of_nat (length g) <? min_samples))
      by reflexivity.
    destruct (Z.of_nat (length g) <? min_samples) eqn:Hlt;
      rewrite Hkeeps; simpl.
    + apply IH.
    + unfold split_group. rewrite sort_values_length.
      unfold train_part, test_part, test_count.
      destruct (n_rating_test (length g) split) as [k|e] eqn:Hk;
        simpl; [|discriminate].
      destruct (parse_users groups split min_samples) as [[trs' tes']|e]
        eqn:Hrest; simpl; [|discriminate].
      intros H; inversion H; subst.
      destruct (IH _ _ eq_refl) as (-> & -> & Hall).
      repeat split. constructor; [now exists k|assumption].
Qed.

Lemma parse_users_none_kept (groups : list (Z * list Interaction)) :
  filter (keeps min_samples) (map snd groups) = [] ->
  parse_users groups split min_samples = Ok ([], []).
Proof.
  induction groups as [|[u g] groups IH]; simpl; [reflexivity|].
  assert (Hkeeps : keeps min_samples g
                    = negb (Z.of_nat (length g) <? min_samples))
    by reflexivity.
  destruct (Z.of_nat (length g) <? min_samples); rewrite Hkeeps; simpl.
  - exact IH.
  - discriminate.
Qed.

Lemma user_timestamp_ok (interactions : list Interaction)
      (traintest : list SplitRow) :
  user_timestamp interactions split min_samples = Ok traintest ->
  kept_groups min_samples interactions <> [] /\
  Forall (fun g => exists k, n_rating_test (length g) split = Ok k)
         (kept_groups min_samples interactions) /\
  traintest =
    recode
      (map (with_set "train")
           (flat_map (train_part split) (kept_groups min_samples interactions))
       ++ map (with_set "test")
              (flat_map (test_part split)
                        (kept_groups min_samples interactions))).
Proof.
  unfold user_timestamp, kept_groups.
  destruct (parse_users (groupby_user interactions) split min_samples)
    as [[trs tes]|e] eqn:Hparse; [|discriminate].
  apply parse_users_ok in Hparse. destruct Hparse as (-> & -> & Hall).
  remember (filter (keeps min_samples)
                   (map snd (groupby_user interactions))) as kept eqn:Hkept.
  destruct (groupby_user interactions) as [|grp groups];
    [discriminate|].
  destruct kept as [|g0 kept]; [discriminate|].
  unfold Py.bind, concat.
  remember (g0 :: kept) as K eqn:HK.
  assert (HKne : K <> []) by (subst K; discriminate).
  destruct (map (train_part split) K) as [|tr trs] eqn:Htr;
    [subst K; discriminate|].
  destruct (map (test_part split) K) as [|te tes] eqn:Hte;
    [subst K; discriminate|].
  rewrite <- Htr, <- Hte, <- !flat_map_concat_map.
  intros H; inversion H; subst traintest.
  repeat split; assumption.
Qed.

Lemma kept_groups_as_users (interactions : list Interaction) :
  kept_groups min_samples interactions =
  map (fun u => group_of u interactions)
      (filter (fun u => keeps min_samples (group_of u interactions))
              (unique (map user_id interactions))).
Proof.
  unfold kept_groups, groupby_user.
  induction (unique (map user_id interactions)) as [|u us IH]; simpl;
    [reflexivity|].
  destruct (keeps min_samples (group_of u interactions)); simpl; now rewrite IH.
Qed.

(** Rows grouped by key: filtering the concatenation of the groups by one
    key gives back that key's group. *)
Lemma filter_all {A} (p : A -> bool) (l : list A) :
  (forall x, In x l -> p x = true) -> filter p l = l.
Proof.
  induction l as [|a l IH]; simpl; intros H; [reflexivity|].
  rewrite (H a (or_introl eq_refl)). f_equal. apply IH. auto.
Qed.

Lemma filter_none {A} (p : A -> bool) (l : list A) :
  (forall x, In x l -> p x = false) -> filter p l = [].
Proof.
  induction l as [|a l IH]; simpl; intros H; [reflexivity|].
  rewrite (H a (or_introl eq_refl)). apply IH. auto.
Qed.


Lemma mem_In (x : Z) (l : list Z) : mem x l = true <-> In x l.
Proof.
  unfold mem. rewrite existsb_exists. split.
  - intros (y & Hy & Heq). apply Z.eqb_eq in Heq. now subst.
  - intros H. exists x. split; [assumption|apply Z.eqb_refl].
Qed.




Lemma train_part_incl (g : list Interaction) (r : Interaction) :
  In r (train_part split g) -> In r g.
Proof. intros H. apply head_incl in H. now apply sort_values_In. Qed.

Lemma test_part_incl (g : list Interaction) (r : Interaction) :
  In r (test_part split g) -> In r g.
Proof. intros H. apply tail_incl in H. now apply sort_values_In. Qed.

Lemma filter_map_comm {A B} (p : B -> bool) (f : A -> B) (l : list A) :
  filter p (map f l) = map f (filter (fun x => p (f x)) l).
Proof.
  induction l as [|a l IH]; simpl; [reflexivity|].
  destruct (p (f a)); simpl; now rewrite IH.
Qed.




Lemma recode_set (l : list (Interaction * string)) (r : SplitRow) :
  In r (recode l) -> exists p, In p l /\ s_set r = snd p /\ original r = fst p.
Proof.
  unfold recode. cbv zeta. intros H. apply in_map_iff in H.
  destruct H as ([[] s] & <- & Hp). eexists. split; [exact Hp|].
  split; reflexivity.
Qed.

Lemma traintest_set (X Y : list Interaction) (r : SplitRow) :
  In r (recode (map (with_set "train") X ++ map (with_set "test") Y)) ->
  (s_set r = "train"%string /\ In (original r) X) \/
  (s_set r = "test"%string /\ In (original r) Y).
Proof.
  intros H. apply recode_set in H. destruct H as (p & Hp & -> & ->).
  apply in_app_or in Hp.
  destruct Hp as [Hp|Hp]; apply in_map_iff in Hp;
    destruct Hp as (x & <- & Hx); [left|right]; now split.
Qed.



Lemma kept_groups_In (interactions : list Interaction) (u : Z) :
  In u (map user_id interactions) ->
  keeps min_samples (group_of u interactions) = true ->
  In (group_of u interactions) (kept_groups min_samples interactions).
Proof.
  intros Hu Hk. rewrite kept_groups_as_users.
  apply (in_map (fun u => group_of u interactions)), filter_In.
  split; [now apply unique_In|assumption].
Qed.


Lemma kept_groups_original (interactions : list Interaction)
      (g : list Interaction) :
  In g (kept_groups min_samples interactions) ->
  exists u, In u (map user_id interactions) /\
            g = group_of u interactions /\ (keeps min_samples) g = true.
Proof.
  rewrite kept_groups_as_users. intros H. apply in_map_iff in H.
  destruct H as (u & <- & Hu). apply filter_In in Hu.
  destruct Hu as [Hu Hk]. apply (proj1 (unique_In _ _)) in Hu.
  now exists u.
Qed.

Lemma groupby_user_nil (interactions : list Interaction) :
  groupby_user interactions = [] <-> interactions = [].
Proof.
  unfold groupby_user. split.
  - intros H. destruct interactions as [|r l]; [reflexivity|].
    apply map_eq_nil in H.
    assert (Hin : In (user_id r) (unique (map user_id (r :: l))))
      by (apply unique_In; now left).
    rewrite H in Hin. contradiction.
  - now intros ->.
Qed.

Lemma user_timestamp_none_kept (interactions : list Interaction) :
  kept_groups min_samples interactions = [] ->
  user_timestamp interactions split min_samples =
  Raise (match interactions with
         | [] => UnboundLocalError
         | _ => ValueError
         end).
Proof.
  intros Hnone. unfold user_timestamp.
  rewrite (parse_users_none_kept _ Hnone). simpl.
  destruct interactions as [|r l]; [reflexivity|].
  destruct (groupby_user (r :: l)) eqn:Hg; [|reflexivity].
  apply groupby_user_nil in Hg. discriminate.
Qed.

Lemma recode_codes (l : list (Interaction * string)) (r : SplitRow) :
  In r (recode l) ->
  s_user_id r
    = cat_code (unique (map s_user_id_original (recode l)))
               (s_user_id_original r) /\
  s_item_id r
    = cat_code (unique (map s_item_id_original (recode l)))
               (s_item_id_original r).
Proof.
  assert (Hu : map s_user_id_original (recode l)
               = map (fun p => user_id (fst p)) l)
    by (unfold recode; cbv zeta; rewrite map_map; reflexivity).
  assert (Hi : map s_item_id_original (recode l)
               = map (fun p => item_id (fst p)) l)
    by (unfold recode; cbv zeta; rewrite map_map; reflexivity).
  rewrite Hu, Hi. unfold recode. cbv zeta. intros H.
  apply in_map_iff in H. destruct H as (p & <- & _). now split.
Qed.

Lemma kept_rows_original (interactions : list Interaction)
      (part : list Interaction -> list Interaction) (r : Interaction) :
  (forall g x, In x (part g) -> In x g) ->
  In r (flat_map part (kept_groups min_samples interactions)) ->
  In r interactions.
Proof.
  intros Hpart H. apply in_flat_map in H. destruct H as (g & Hg & Hr).
  apply kept_groups_original in Hg. destruct Hg as (u & _ & -> & _).
  apply Hpart in Hr. unfold group_of in Hr.
  now apply filter_In in Hr.
Qed.

Lemma recode_In (l : list (Interaction * string)) (d : Interaction)
      (label : string) :
  In (d, label) l ->
  exists r, In r (recode l) /\ original r = d /\ s_set r = label.
Proof.
  intros H. unfold recode. cbv zeta. eexists. split.
  - apply in_map_iff. exists (d, label). split; [reflexivity|exact H].
  - destruct d. split; reflexivity.
Qed.

(** Every interaction of a kept user is in the frame, whatever the test
    count turns out to be. *)
Lemma user_timestamp_keeps_rows (interactions : list Interaction)
      (traintest : list SplitRow) (d : Interaction) :
  user_timestamp interactions split min_samples = Ok traintest ->
  In d interactions ->
  min_samples <= Z.of_nat (length (group_of (user_id d) interactions)) ->
  exists r, In r traintest /\ original r = d.
Proof.
  intros Hok Hd Hge. apply user_timestamp_ok in Hok.
  destruct Hok as (_ & _ & ->).
  set (g := group_of (user_id d) interactions).
  assert (Hg : In g (kept_groups min_samples interactions)).
  { apply kept_groups_In; [now apply in_map|].
    unfold keeps. apply negb_true_iff, Z.ltb_ge. exact Hge. }
  assert (Hdg : In d (sort_values g)).
  { apply sort_values_In. unfold g, group_of. apply filter_In.
    split; [assumption|apply Z.eqb_refl]. }
  apply (head_tail_cover (test_count split g)) in Hdg.
  rewrite sort_values_length in Hdg.
  destruct Hdg as [Hdg|Hdg].
  - destruct (recode_In
                (map (with_set "train")
                     (flat_map (train_part split)
                               (kept_groups min_samples interactions))
                 ++ map (with_set "test")
                        (flat_map (test_part split)
                                  (kept_groups min_samples interactions)))
                d "train") as (r & Hr & Ho & _).
    + apply in_or_app. left. apply (in_map (with_set "train")).
      apply in_flat_map. now exists g.
    + now exists r.
  - destruct (recode_In
                (map (with_set "train")
                     (flat_map (train_part split)
                               (kept_groups min_samples interactions))
                 ++ map (with_set "test")
                        (flat_map (test_part split)
                                  (kept_groups min_samples interactions)))
                d "test") as (r & Hr & Ho & _).
    + apply in_or_app. right. apply (in_map (with_set "test")).
      apply in_flat_map. now exists g.
    + now exists r.
Qed.

End SplitterFacts.

(** ** The number of test interactions *)

Section CountFacts.

Import Binary64.




End CountFacts.

Section SplitterClaims.

Context {sorter : TimeSort}.


(** C10: [user_timestamp] returns a frame only if some user has at least
    [min_samples] interactions; when no user has (in particular on an
    empty frame) it raises: [UnboundLocalError] from the progress line on
    an empty frame, [ValueError] from [pd.concat([])] otherwise. *)
Theorem user_timestamp_needs_an_eligible_user
        (interactions : list Interaction) (split : float)
        (min_samples : Z) :
  (forall traintest,
      user_timestamp interactions split min_samples = Ok traintest ->
      exists u, In u (map user_id interactions) /\
                min_samples <= Z.of_nat (length (group_of u interactions)))
  /\
  ((forall u, In u (map user_id interactions) ->
              Z.of_nat (length (group_of u interactions)) < min_samples) ->
   user_timestamp interactions split min_samples =
   Raise (match interactions with
          | [] => UnboundLocalError
          | _ => ValueError
          end)).
Proof.
  split.
  - intros traintest Hok. apply user_timestamp_ok in Hok.
    destruct Hok as (Hne & _ & _).
    destruct (kept_groups min_samples interactions) as [|g kept] eqn:Hkept;
      [congruence|].
    assert (Hg : In g (kept_groups min_samples interactions))
      by (rewrite Hkept; now left).
    apply kept_groups_original in Hg.
    destruct Hg as (u & Hu & -> & Hk). exists u. split; [assumption|].
    unfold keeps in Hk. now apply negb_true_iff, Z.ltb_ge in Hk.
  - intros Hnone. apply user_timestamp_none_kept.
    destruct (kept_groups min_samples interactions) as [|g kept] eqn:Hkept;
      [reflexivity|].
    assert (Hg : In g (kept_groups min_samples interactions))
      by (rewrite Hkept; now left).
    apply kept_groups_original in Hg.
    destruct Hg as (u & Hu & -> & Hk). specialize (Hnone u Hu).
    unfold keeps in Hk. apply negb_true_iff, Z.ltb_ge in Hk. lia.
Qed.

(** C6: every row of the frame [user_timestamp] returns is one of the
    input interactions (found back through the original-id columns) with
    [set] equal to ['train'] or ['test']; its user and item ids are the
    category codes of the original ids, in [0, |U|) and [0, |I|), so that
    two rows have the same code exactly when they have the same original
    id; every code below [|U|] (resp. [|I|]) is used; and every interaction
    of a user with at least [min_samples] interactions has a row. *)
Theorem user_timestamp_artifact_columns
        (interactions : list Interaction) (split : float)
        (min_samples : Z) (traintest : list SplitRow) :
  user_timestamp interactions split min_samples = Ok traintest ->
  let users := unique (map s_user_id_original traintest) in
  let items := unique (map s_item_id_original traintest) in
  (forall r, In r traintest ->
     (s_set r = "train"%string \/ s_set r = "test"%string) /\
     In (original r) interactions /\
     s_user_id r = cat_code users (s_user_id_original r) /\
     s_item_id r = cat_code items (s_item_id_original r) /\
     0 <= s_user_id r < Z.of_nat (length users) /\
     0 <= s_item_id r < Z.of_nat (length items)) /\
  (forall r r', In r traintest -> In r' traintest ->
     (s_user_id r = s_user_id r'
      <-> s_user_id_original r = s_user_id_original r') /\
     (s_item_id r = s_item_id r'
      <-> s_item_id_original r = s_item_id_original r')) /\
  (forall c, 0 <= c < Z.of_nat (length users) ->
             exists r, In r traintest /\ s_user_id r = c) /\
  (forall c, 0 <= c < Z.of_nat (length items) ->
             exists r, In r traintest /\ s_item_id r = c) /\
  (forall d, In d interactions ->
             min_samples
               <= Z.of_nat (length (group_of (user_id d) interactions)) ->
             exists r, In r traintest /\ original r = d).
Proof.
  intros Hok users items.
  pose proof (fun d => user_timestamp_keeps_rows split min_samples
                         interactions traintest d Hok) as Hkept.
  apply user_timestamp_ok in Hok.
  destruct Hok as (_ & _ & Htt).
  assert (Hcodes : forall r, In r traintest ->
            s_user_id r = cat_code users (s_user_id_original r) /\
            s_item_id r = cat_code items (s_item_id_original r)).
  { intros r Hr. subst users items. rewrite Htt in Hr |- *.
    now apply recode_codes. }
  assert (Huin : forall r, In r traintest -> In (s_user_id_original r) users)
    by (intros r Hr; apply unique_In; now apply in_map).
  assert (Hiin : forall r, In r traintest -> In (s_item_id_original r) items)
    by (intros r Hr; apply unique_In; now apply in_map).
  split; [|split; [|split; [|split; [|exact Hkept]]]].
  - intros r Hr. destruct (Hcodes r Hr) as [Hu Hi].
    split; [|split; [|split; [exact Hu|split; [exact Hi|]]]].
    + rewrite Htt in Hr. apply traintest_set in Hr. tauto.
    + rewrite Htt in Hr. apply traintest_set in Hr.
      destruct Hr as [[_ Hr]|[_ Hr]];
        eapply kept_rows_original; try exact Hr.
      * apply train_part_incl.
      * apply test_part_incl.
    + rewrite Hu, Hi. split; apply cat_code_range; auto.
  - intros r r' Hr Hr'.
    destruct (Hcodes r Hr) as [Hu Hi]. destruct (Hcodes r' Hr') as [Hu' Hi'].
    rewrite Hu, Hu', Hi, Hi'. split; split; intros H.
    + apply (cat_code_inj users); auto.
    + now rewrite H.
    + apply (cat_code_inj items); auto.
    + now rewrite H.
  - intros c Hc.
    assert (Hx : In (nth (Z.to_nat c) users 0) users)
      by (apply nth_In; lia).
    apply unique_In, in_map_iff in Hx. destruct Hx as (r & Hx & Hr).
    exists r. split; [assumption|].
    rewrite (proj1 (Hcodes r Hr)), Hx. unfold cat_code.
    rewrite index_of_nth; [lia|apply unique_NoDup|lia].
  - intros c Hc.
    assert (Hx : In (nth (Z.to_nat c) items 0) items)
      by (apply nth_In; lia).
    apply unique_In, in_map_iff in Hx. destruct Hx as (r & Hx & Hr).
    exists r. split; [assumption|].
    rewrite (proj2 (Hcodes r Hr)), Hx. unfold cat_code.
    rewrite index_of_nth; [lia|apply unique_NoDup|lia].
Qed.

End SplitterClaims.



(** The condition [0 <= k <= n] is needed: a ratio above 1 makes the count
    negative, and then rows are in both sets. *)
Remark split_above_one_overlaps :
  n_rating_test 10 1.5 = Ok (-5) /\
  exists traintest r,
    user_timestamp Cases.one_user 1.5 10 = Ok traintest /\
    In r (rows_of traintest 4 "train") /\
    In r (rows_of traintest 4 "test").
Proof.
  split; [vm_compute; reflexivity|].
  eexists. exists (Cases.rated 95 5 10 9).
  split; [vm_compute; reflexivity|].
  split; vm_compute; tauto.
Qed.


(** The claim on the sample frames: an empty frame and a frame of users with
    two and one interactions raise, and the sample frame, which is split,
    has a user with ten interactions. *)
Lemma user_timestamp_needs_an_eligible_user_witness :
  user_timestamp [] Sample.train_ratio 10 = Raise UnboundLocalError /\
  user_timestamp Sample.few_interactions Sample.train_ratio 10
    = Raise ValueError /\
  exists u, In u (map user_id Sample.interactions) /\
            10 <= Z.of_nat (length (group_of u Sample.interactions)).
Proof.
  split; [|split].
  - apply (proj2 (user_timestamp_needs_an_eligible_user
                    [] Sample.train_ratio 10)).
    intros u [].
  - apply (proj2 (user_timestamp_needs_an_eligible_user
                    Sample.few_interactions Sample.train_ratio 10)).
    intros u Hu. simpl in Hu.
    destruct Hu as [<-|[<-|[<-|[]]]]; vm_compute; reflexivity.
  - eapply (proj1 (user_timestamp_needs_an_eligible_user
                     Sample.interactions Sample.train_ratio 10)).
    vm_compute. reflexivity.
Defined.

(** The claim on the sample frame: two users are kept, every row is
    labelled, traces back to an input interaction and has a user code
    below 2. *)
Lemma user_timestamp_artifact_columns_witness :
  exists traintest,
    user_timestamp Sample.interactions Sample.train_ratio 10 = Ok traintest /\
    length (unique (map s_user_id_original traintest)) = 2%nat /\
    forall r, In r traintest ->
      (s_set r = "train"%string \/ s_set r = "test"%string) /\
      In (original r) Sample.interactions /\
      0 <= s_user_id r
        < Z.of_nat (length (unique (map s_user_id_original traintest))).
Proof.
  eexists. split; [vm_compute; reflexivity|].
  split; [vm_compute; reflexivity|].
  intros r Hr.
  match goal with
  | H : In r ?tt |- _ =>
      pose proof (user_timestamp_artifact_columns
                    Sample.interactions Sample.train_ratio 10 tt eq_refl)
        as Hcols
  end.
  cbv zeta in Hcols. destruct Hcols as (Hrows & _).
  destruct (Hrows r Hr) as (Hset & Horig & _ & _ & Hu & _).
  split; [exact Hset|]. split; [exact Horig|exact Hu].
Defined.

(** C9: the per-item category vector is NOT aligned with the dense item
    codes: [drop_duplicates] keeps the rows in frame order, which is by user
    and time, not by item id.  On the frame of one user who rated item 20
    (category 7) and then item 10 (category 3), item 10 gets the dense id 0
    and item 20 the dense id 1, but the vector is [[7; 3]].  On the sample
    frame, split with the notebooks' configuration, every row of the item
    with dense id 0 has category 3, but position 0 of the vector holds 5,
    the category of the item of the first row (dense id 1). *)
Theorem category_per_item_not_aligned :
  (exists traintest,
      user_timestamp Sample.two_items Sample.train_ratio 2 = Ok traintest /\
      map s_item_id_original traintest = [20; 10] /\
      map s_item_id traintest = [1; 0] /\
      map s_type_id traintest = [7; 3] /\
      category_per_item traintest = [7; 3]) /\
  (exists traintest,
      split_utime Sample.interactions Sample.train_ratio 8 2 = Ok traintest /\
      (exists r, In r traintest /\ s_item_id r = 0) /\
      Forall (fun r => s_item_id r = 0 -> s_type_id r = 3) traintest /\
      nth 0 (category_per_item traintest) (-1) = 5 /\
      map s_item_id (drop_duplicates s_item_id traintest)
        = [1; 3; 5; 6; 2; 7; 8; 9; 4; 0; 11; 10]).
Proof.
  split.
  - eexists. split; [vm_compute; reflexivity|].
    repeat split; vm_compute; reflexivity.
  - eexists. split; [vm_compute; reflexivity|].
    split.
    + eexists. split; [do 9 right; left; reflexivity|reflexivity].
    + split; [|split; vm_compute; reflexivity].
      repeat constructor; simpl; intros; try reflexivity; discriminate.
Qed.

(** ** The provider-gender estimator and the merge *)

(** ** First rows: [drop_duplicates] and [Series.unique] *)

Section FirstRows.

Import Cells.

Context {A : Type}.
Variable key : A -> Z.

Lemma drop_duplicates_from_In (seen : list Z) (l : list A) (r : A) :
  In r (drop_duplicates_from key seen l) ->
  In r l /\ mem (key r) seen = false.
Proof.
  revert seen. induction l as [|a l IH]; intros seen; simpl; [tauto|].
  destruct (mem (key a) seen) eqn:Hseen.
  - intros H. apply IH in H. tauto.
  - intros [<-|H]; [tauto|]. apply IH in H. destruct H as [Hin Hmem].
    split; [tauto|]. simpl in Hmem. now apply orb_false_iff in Hmem.
Qed.

Lemma drop_duplicates_from_keys_NoDup (seen : list Z) (l : list A) :
  NoDup (map key (drop_duplicates_from key seen l)).
Proof.
  revert seen. induction l as [|a l IH]; intros seen; simpl.
  - constructor.
  - destruct (mem (key a) seen); [apply IH|].
    simpl. constructor; [|apply IH].
    intros Hin. apply in_map_iff in Hin. destruct Hin as (r & Hkey & Hr).
    apply drop_duplicates_from_In in Hr. destruct Hr as [_ Hmem].
    simpl in Hmem. rewrite <- Hkey, Z.eqb_refl in Hmem. discriminate.
Qed.

Lemma drop_duplicates_from_cover (seen : list Z) (l : list A) (r : A) :
  In r l -> mem (key r) seen = false ->
  In (key r) (map key (drop_duplicates_from key seen l)).
Proof.
  revert seen. induction l as [|a l IH]; intros seen; simpl; [tauto|].
  intros Hin Hmem. destruct (mem (key a) seen) eqn:Hseen.
  - destruct Hin as [->|Hin]; [congruence|]. now apply IH.
  - destruct (key r =? key a) eqn:Hk.
    + apply Z.eqb_eq in Hk. left. now symmetry.
    + destruct Hin as [->|Hin]; [now left|].
      right. apply IH; [assumption|]. simpl. now rewrite Hk.
Qed.

Lemma drop_duplicates_keys (l : list A) (k : Z) :
  In k (map key (drop_duplicates key l)) <-> In k (map key l).
Proof.
  unfold drop_duplicates. split; intros H; apply in_map_iff in H;
    destruct H as (r & <- & Hr).
  - apply drop_duplicates_from_In in Hr. apply in_map. tauto.
  - now apply drop_duplicates_from_cover.
Qed.

Lemma drop_duplicates_from_series (seen : list Z) (l : list A) :
  map key (drop_duplicates_from key seen l)
  = drop_duplicates_from (fun x => x) seen (map key l).
Proof.
  revert seen. induction l as [|a l IH]; intros seen; simpl; [reflexivity|].
  destruct (mem (key a) seen); simpl; now rewrite IH.
Qed.

(** The keys of [drop_duplicates] are the [unique()] of the key column. *)
Lemma drop_duplicates_series (l : list A) :
  map key (drop_duplicates key l) = series_unique (map key l).
Proof. apply drop_duplicates_from_series. Qed.

End FirstRows.

(** ** The row order of the merge *)

Section JoinOrderFacts.

Import Provider.

Lemma filter_partition {A} (f : A -> bool) (l : list A) :
  Permutation l (filter f l ++ filter (fun x => negb (f x)) l).
Proof.
  induction l as [|a l IH]; simpl; [constructor|].
  destruct (f a); simpl.
  - now constructor.
  - now apply Permutation_cons_app.
Qed.

(** Grouping rows by key, over distinct keys that cover the rows, only
    reorders them. *)
Lemma group_by_perm {A} (key : A -> Z) (keys : list Z) (l : list A) :
  NoDup keys -> (forall r, In r l -> In (key r) keys) ->
  Permutation l (flat_map (fun k => filter (fun r => key r =? k) l) keys).
Proof.
  intros Hnd. revert l.
  induction Hnd as [|k keys Hnotin Hnd IH]; intros l Hcover.
  - destruct l as [|r l]; [constructor|].
    destruct (Hcover r (or_introl eq_refl)).
  - simpl.
    rewrite (filter_partition (fun r => key r =? k) l) at 1.
    apply Permutation_app_head.
    set (rest := filter (fun r => negb (key r =? k)) l).
    assert (Hrest : forall r, In r rest -> In (key r) keys).
    { intros r Hr. apply filter_In in Hr. destruct Hr as [Hr Hk].
      destruct (Hcover r Hr) as [Heq|Hin]; [|exact Hin].
      rewrite <- Heq, Z.eqb_refl in Hk. discriminate. }
    rewrite (IH rest Hrest) at 1.
    assert (Hsame : forall ks,
               ~ In k ks ->
               flat_map (fun k' => filter (fun r => key r =? k') rest) ks
               = flat_map (fun k' => filter (fun r => key r =? k') l) ks).
    { induction ks as [|k' ks IHks]; intros Hk; simpl; [reflexivity|].
      rewrite IHks by (intros H; apply Hk; now right). f_equal.
      unfold rest. clear -Hk. induction l as [|r l IHl]; simpl;
        [reflexivity|].
      destruct (key r =? k) eqn:Hrk; simpl.
      - apply Z.eqb_eq in Hrk.
        destruct (key r =? k') eqn:Hrk'; [|exact IHl].
        apply Z.eqb_eq in Hrk'. exfalso. apply Hk. left. congruence.
      - destruct (key r =? k'); now rewrite IHl. }
    now rewrite (Hsame keys Hnotin).
Qed.

Lemma group_by_key_perm (rows : list ProviderRow) :
  Permutation rows (group_by_key rows).
Proof.
  unfold group_by_key.
  apply (group_by_perm (fun m => Splitter.item_id (interaction m))).
  - apply drop_duplicates_from_keys_NoDup.
  - intros r Hr.
    apply (drop_duplicates_keys
             (fun m => Splitter.item_id (interaction m))).
    now apply (in_map (fun m => Splitter.item_id (interaction m))).
Qed.

End JoinOrderFacts.

(** The order of the notebooks' pandas. *)
#[export] Instance grouped_join_order : Provider.JoinOrder := {|
  Provider.arrange := Provider.group_by_key;
  Provider.arrange_perm := group_by_key_perm
|}.

Section ProviderClaims.

Import Provider.

Context {order : JoinOrder}.

Lemma merge_In (data : list Interaction) (assoc : list ShareRow)
      (m : ProviderRow) :
  In m (merge data assoc) <-> In m (pairs data assoc).
Proof.
  unfold merge. split; apply Permutation_in;
    [apply Permutation_sym|]; apply arrange_perm.
Qed.

Lemma minority_of_not_nan (x : float) : is_nan (minority_of x) = false.
Proof.
  unfold minority_of. destruct (is_nan x) eqn:Hx; [reflexivity|exact Hx].
Qed.

Lemma majority_of_not_nan (x : float) : is_nan (majority_of x) = false.
Proof.
  unfold majority_of. destruct (is_nan x) eqn:Hx; [reflexivity|exact Hx].
Qed.

(** C1: row by row, the estimator sets [minority] to the group-1 fraction,
    or to 1.0 when that fraction is NaN, and [majority] to the group-2
    fraction, or to 0.0 when it is NaN (so neither share is ever NaN); the
    two shares need not add up to 1: a row with an unknown group-1 fraction
    and a group-2 fraction of 0.5 gets 1.0 and 0.5. *)
Theorem group_representation_defaults (assoc : list GenderRow) :
  length (group_representation assoc) = length assoc /\
  (forall i g,
      nth_error assoc i = Some g ->
      exists a,
        nth_error (group_representation assoc) i = Some a /\
        a_item_id a = g_item_id g /\
        minority a = (if is_nan (gender_1 g) then 1%float else gender_1 g) /\
        majority a = (if is_nan (gender_2 g) then 0%float else gender_2 g) /\
        is_nan (minority a) = false /\
        is_nan (majority a) = false) /\
  (exists g,
      is_nan (gender_1 g) = true /\
      (minority (estimate g) + majority (estimate g) =? 1)%float = false).
Proof.
  split; [apply length_map|]. split.
  - intros i g Hg. exists (estimate g). split.
    + unfold group_representation. now rewrite nth_error_map, Hg.
    + repeat split.
      * apply minority_of_not_nan.
      * apply majority_of_not_nan.
  - exists {| g_item_id := 40; gender_1 := nan; gender_2 := 0.5 |}.
    split; vm_compute; reflexivity.
Qed.

(** C8: the merge is an inner join.  Every merged row is an interaction of
    [data] paired with the shares estimated from a row of the table for the
    same item, so a share of 1.0 set by default comes from a row that is in
    the table with a NaN fraction; an interaction whose item has no row in
    the table appears in no merged row; and every interaction whose item has
    a row is kept. *)
Theorem merge_is_inner_join (data : list Interaction)
        (assoc : list GenderRow) :
  let merged := merge data (group_representation assoc) in
  (forall m, In m merged ->
     In (interaction m) data /\
     exists g, In g assoc /\
               g_item_id g = item_id (interaction m) /\
               p_minority m = minority_of (gender_1 g) /\
               p_majority m = majority_of (gender_2 g)) /\
  (forall d, In d data ->
     ~ In (item_id d) (map g_item_id assoc) ->
     forall m, In m merged -> interaction m <> d) /\
  (forall d g, In d data -> In g assoc -> g_item_id g = item_id d ->
     In (join d (estimate g)) merged).
Proof.
  cbv zeta.
  assert (Hrows : forall m,
            In m (merge data (group_representation assoc)) ->
            In (interaction m) data /\
            exists g, In g assoc /\
                      g_item_id g = item_id (interaction m) /\
                      p_minority m = minority_of (gender_1 g) /\
                      p_majority m = majority_of (gender_2 g)).
  { intros m Hm. apply merge_In in Hm. unfold pairs in Hm.
    apply in_flat_map in Hm.
    destruct Hm as (d & Hd & Hm). apply in_map_iff in Hm.
    destruct Hm as (a & <- & Ha). apply filter_In in Ha.
    destruct Ha as [Ha Heq]. apply Z.eqb_eq in Heq.
    unfold group_representation in Ha. apply in_map_iff in Ha.
    destruct Ha as (g & <- & Hg). simpl in *.
    split; [assumption|]. exists g. repeat split; assumption. }
  split; [exact Hrows|]. split.
  - intros d Hd Hnone m Hm Heq. apply Hnone.
    destruct (Hrows m Hm) as (_ & g & Hg & Hitem & _).
    rewrite <- Heq, <- Hitem. now apply in_map.
  - intros d g Hd Hg Heq. apply merge_In. unfold pairs.
    apply in_flat_map.
    exists d. split; [assumption|]. apply in_map, filter_In. split.
    + unfold group_representation. now apply in_map.
    + simpl. now apply Z.eqb_eq.
Qed.

End ProviderClaims.

(** The estimator on the sample table: the first row, with both fractions
    unknown, gets the shares 1.0 and 0.0. *)
Lemma group_representation_defaults_witness :
  nth_error Sample.gender_table 0
    = Some {| Provider.g_item_id := 10;
              Provider.gender_1 := nan; Provider.gender_2 := nan |} /\
  exists a,
    nth_error (Provider.group_representation Sample.gender_table) 0 = Some a /\
    Provider.minority a = 1%float /\ Provider.majority a = 0%float.
Proof.
  split; [reflexivity|].
  destruct (proj1 (proj2 (group_representation_defaults
                            Sample.gender_table))
                  0%nat _ eq_refl)
    as (a & Ha & _ & Hmin & Hmaj & _).
  exists a. split; [exact Ha|]. split; [exact Hmin|exact Hmaj].
Defined.

(** The merge of the sample interactions with the sample table: the
    interaction of user 7 with item 30, which has no row in the table, is in
    no merged row, while the one with item 10, whose row has unknown
    fractions, is kept with a minority share of 1.0. *)
Lemma merge_is_inner_join_witness :
  let merged :=
    Provider.merge Sample.interactions
                   (Provider.group_representation Sample.gender_table) in
  (forall m, In m merged ->
             Provider.interaction m <> Sample.interaction 7 30 1005 1) /\
  exists m, In m merged /\
            Provider.interaction m = Sample.interaction 7 10 1010 3 /\
            Provider.p_minority m = 1%float.
Proof.
  cbv zeta.
  destruct (merge_is_inner_join Sample.interactions
                                         Sample.gender_table)
    as (_ & Hdrop & Hkeep).
  split.
  - apply Hdrop.
    + do 3 right. left. reflexivity.
    + simpl. intros [H|[H|[H|[H|[]]]]]; discriminate.
  - eexists. split.
    + apply (Hkeep (Sample.interaction 7 10 1010 3)
                   {| Provider.g_item_id := 10;
                      Provider.gender_1 := nan;
                      Provider.gender_2 := nan |}).
      * do 6 right. left. reflexivity.
      * left. reflexivity.
      * reflexivity.
    + split; reflexivity.
Defined.

(** ** The upsampling driver *)

Section UpsamplingFacts.

Import stdpp.base stdpp.option stdpp.gmap.
Import Upsampling.

Lemma duplicate_minority_appends (train : list TrainRow) :
  exists dups, duplicate_minority train = train ++ dups
               /\ Forall (duplicate_of train) dups.
Proof.
  eexists. split; [reflexivity|].
  apply List.Forall_forall. intros d Hd. apply filter_In in Hd.
  exists d. split; [apply Hd|reflexivity].
Qed.

Lemma set_rating_idem (v : float) (r : TrainRow) :
  set_rating v (set_rating v r) = set_rating v r.
Proof. reflexivity. Qed.

Lemma duplicates_rated (train dups : list TrainRow) :
  Forall (duplicate_of train) dups ->
  Forall (fun d => t_rating d = 1%float
                   /\ exists r, In r train /\ d = set_rating 1 r)
         (map (set_rating 1) dups).
Proof.
  intros Hdups. apply List.Forall_forall. intros d Hd.
  apply in_map_iff in Hd. destruct Hd as (d0 & <- & Hd0).
  rewrite List.Forall_forall in Hdups.
  destruct (Hdups d0 Hd0) as (r & Hr & Heq).
  split; [reflexivity|]. exists r. split; assumption.
Qed.

(** One upsampling branch that is taken: a fresh frame holding the
    upsampled rows, the old frame untouched. *)
Lemma rebind_taken (f : list TrainRow -> list TrainRow) (h : heap)
      (train : nat) (df : list TrainRow) :
  h !! train = Some df ->
  exists l, rebind_if true f (h, train) = Some (<[l := f df]> h, l)
            /\ l <> train /\ h !! l = None.
Proof.
  intros Hdf. exists (fresh (dom h)).
  assert (Hfresh : h !! fresh (dom h) = None)
    by (apply not_elem_of_dom, is_fresh).
  unfold rebind_if, alloc. simpl. rewrite Hdf. simpl.
  split; [reflexivity|]. split; [|assumption].
  intros Heq. rewrite Heq in Hfresh. congruence.
Qed.

Lemma rebind_skipped (f : list TrainRow -> list TrainRow)
      (st : heap * nat) :
  rebind_if false f st = Some st.
Proof. reflexivity. Qed.

Lemma assign_rating_at (v : float) (h : heap) (l : nat)
      (df : list TrainRow) :
  h !! l = Some df ->
  assign_rating v (h, l) = Some (<[l := map (set_rating v) df]> h, l).
Proof. intros Hdf. unfold assign_rating. simpl. now rewrite Hdf. Qed.

(** The driver when exactly one upsampler [f] runs. *)
Lemma upsampled_run (f : list TrainRow -> list TrainRow) (h : heap)
      (train : nat) (df : list TrainRow) :
  h !! train = Some df ->
  (exists dups, f df = df ++ dups /\ Forall (duplicate_of df) dups) ->
  forall st,
    rebind_if true f (h, train) = Some st ->
    exists h' out dups,
      assign_rating 1 st = Some (h', out) /\
      h' !! out = Some (map (set_rating 1) df ++ dups) /\
      Forall (fun d => t_rating d = 1%float
                       /\ exists r, In r df /\ d = set_rating 1 r) dups /\
      out <> train /\ h' !! train = Some df.
Proof.
  intros Hdf (dups & Hf & Hdups) st Hst.
  destruct (rebind_taken f h train df Hdf) as (l & Hl & Hne & _).
  rewrite Hl in Hst. injection Hst as <-.
  exists (<[l := map (set_rating 1) (f df)]> (<[l := f df]> h)), l,
         (map (set_rating 1) dups).
  split; [apply assign_rating_at, lookup_insert_eq|].
  split; [rewrite lookup_insert_eq, Hf, map_app; reflexivity|].
  split; [now apply duplicates_rated|].
  split; [assumption|].
  now rewrite !lookup_insert_ne.
Qed.

End UpsamplingFacts.

#[export] Instance duplicating_upsampler : Upsampling.Upsampler := {|
  Upsampling.real := fun train _ _ => Upsampling.duplicate_minority train;
  Upsampling.fake := fun train _ _ _ => Upsampling.duplicate_minority train;
  Upsampling.fakeByPop :=
    fun train _ _ _ => Upsampling.duplicate_minority train;
  Upsampling.real_appends := fun train _ _ => duplicate_minority_appends train;
  Upsampling.fake_appends :=
    fun train _ _ _ => duplicate_minority_appends train;
  Upsampling.fakeByPop_appends :=
    fun train _ _ _ => duplicate_minority_appends train
|}.

Section UpsamplingClaims.

Import stdpp.base stdpp.option stdpp.gmap.
Import Upsampling.

Context {upsampler : Upsampler}.

(** The branch of [run_with_upsampling] where the upsampler [f], of
    contract [Happends], is the one that runs. *)
Ltac upsampled_branch f Happends :=
  match goal with
  | Hdf : _ !! _ = Some _ |- _ =>
      let l := fresh "l" in
      let Hl := fresh "Hl" in
      destruct (rebind_taken f _ _ _ Hdf) as (l & Hl & _);
      destruct (upsampled_run f _ _ _ Hdf Happends _ Hl)
        as (h' & out & dups & Hrun & Hout & Hdups & Hne & Hsame);
      exists h', out, dups;
      repeat (rewrite rebind_skipped; cbn -[rebind_if assign_rating]);
      rewrite Hl; cbn -[assign_rating];
      repeat split; try assumption; intros; congruence
  end.

(** C2, as the code has it.  The driver first builds the model id from
    [int(utarget*100)]: when that raises (a NaN or infinite target), the
    driver raises the same error and no frame is made or changed.
    Otherwise, whatever the mode, the frame handed to the model holds the
    original rows, in order and with every column but the rating unchanged,
    followed by duplicates of original rows, and EVERY row of it, original
    or duplicate, has rating 1.0: the original ratings are overwritten.
    With one of the three upsampling modes that frame is a new one and the
    caller's frame is left as it was; with any other mode there are no
    duplicates. *)
Theorem run_with_upsampling_output
        (smode : string) (h : heap) (train : nat) (df : list TrainRow)
        (umode : string) (utarget : float) (model_type : string)
        (items_w_min : list Z) :
  h !! train = Some df ->
  (forall e,
      Py.int (utarget * 100)%float = Raise e ->
      run_with_upsampling smode h train umode utarget model_type items_w_min
      = Raise e) /\
  (Prim2SF (utarget * 100)%float = S754_nan ->
   run_with_upsampling smode h train umode utarget model_type items_w_min
   = Raise ValueError) /\
  (forall s,
      Prim2SF (utarget * 100)%float = S754_infinity s ->
      run_with_upsampling smode h train umode utarget model_type items_w_min
      = Raise OverflowError) /\
  (forall n,
      Py.int (utarget * 100)%float = Ok n ->
      exists id h' out dups,
        model_id smode umode utarget model_type = Ok id /\
        run_with_upsampling smode h train umode utarget model_type
                            items_w_min
        = Ok (id, Some (h', out)) /\
        h' !! out = Some (map (set_rating 1) df ++ dups) /\
        Forall (fun d => t_rating d = 1%float
                         /\ exists r, In r df /\ d = set_rating 1 r) dups /\
        (umode = "real"%string \/ umode = "fake"%string
         \/ umode = "fakebypop"%string ->
         out <> train /\ h' !! train = Some df) /\
        (umode <> "real"%string -> umode <> "fake"%string ->
         umode <> "fakebypop"%string -> dups = [])).
Proof.
  intros Hdf. unfold run_with_upsampling, model_id. split.
  { intros e He. now rewrite He. }
  split.
  { intros Hnan. unfold Py.int. now rewrite Hnan. }
  split.
  { intros s Hinf. unfold Py.int. now rewrite Hinf. }
  intros n Hn. rewrite Hn. cbn [Py.bind]. eexists.
  match goal with
  | |- exists h' out dups, _ /\ Ok (_, ?frames) = _ /\ _ =>
      assert (Hframes :
                exists h' out dups,
                  frames = Some (h', out) /\
                  h' !! out = Some (map (set_rating 1) df ++ dups) /\
                  Forall (fun d => t_rating d = 1%float
                                   /\ exists r, In r df
                                                /\ d = set_rating 1 r) dups /\
                  (umode = "real"%string \/ umode = "fake"%string
                   \/ umode = "fakebypop"%string ->
                   out <> train /\ h' !! train = Some df) /\
                  (umode <> "real"%string -> umode <> "fake"%string ->
                   umode <> "fakebypop"%string -> dups = []))
  end.
  { destruct (String.eqb umode "real") eqn:E1;
      [|destruct (String.eqb umode "fake") eqn:E2;
        [|destruct (String.eqb umode "fakebypop") eqn:E3]].
    - apply String.eqb_eq in E1. subst umode.
      upsampled_branch (fun df => real df "minority" utarget)
                       (real_appends df "minority" utarget).
    - apply String.eqb_eq in E2. subst umode.
      upsampled_branch (fun df => fake df "minority" items_w_min utarget)
                       (fake_appends df "minority" items_w_min utarget).
    - apply String.eqb_eq in E3. subst umode.
      upsampled_branch
        (fun df => fakeByPop df "minority" items_w_min utarget)
        (fakeByPop_appends df "minority" items_w_min utarget).
    - apply String.eqb_neq in E1, E2, E3.
      exists (<[train := map (set_rating 1) df]> h), train, [].
      cbn -[assign_rating].
      split; [now apply assign_rating_at|].
      split; [now rewrite lookup_insert_eq, app_nil_r|].
      split; [constructor|]. split; [|reflexivity].
      intros [Hm|[Hm|Hm]]; contradiction. }
  destruct Hframes as (h' & out & dups & -> & Hrest).
  exists h', out, dups. split; [reflexivity|]. split; [reflexivity|].
  exact Hrest.
Qed.

End UpsamplingClaims.

Section UpsamplingRuns.

Import stdpp.base stdpp.option stdpp.gmap.
Import Upsampling.

(** C2 as stated does not hold: it is not the case that the frame handed to
    the model is always the original rows, with their prior values,
    followed by duplicates of rating 1.0.  On the sample train frame, with
    no upsampling, the rows of ratings 4.0 and 5.0 come out with rating
    1.0. *)
Lemma run_with_upsampling_overwrites_ratings :
  ~ (forall (smode : string) (h : heap) (train : nat) (df : list TrainRow)
            (umode : string) (utarget : float) (model_type : string)
            (items_w_min : list Z) (id : string) (h' : heap) (out : nat),
        h !! train = Some df ->
        run_with_upsampling smode h train umode utarget model_type
                            items_w_min
          = Ok (id, Some (h', out)) ->
        exists dups,
          h' !! out = Some (df ++ dups) /\
          Forall (fun d => t_rating d = 1%float) dups).
Proof.
  intros Hclaim.
  pose (h := {[ 0%nat := Sample.train_rows ]} : heap).
  assert (Hrun : run_with_upsampling "utime_pfair" h 0%nat "none" 0.3%float
                                     "pairwise" []
                 = Ok ("utime_pfair_none_30_pairwise"%string,
                       Some (<[0%nat := map (set_rating 1)
                                            Sample.train_rows]> h, 0%nat)))
    by reflexivity.
  destruct (Hclaim _ h 0%nat Sample.train_rows _ _ _ _ _ _ _ eq_refl Hrun)
    as (dups & Hout & _).
  rewrite lookup_insert_eq in Hout.
  apply (f_equal (fun o => match o with
                           | Some (r :: _) => PrimFloat.eqb (t_rating r) 1
                           | _ => false
                           end)) in Hout.
  vm_compute in Hout. discriminate.
Qed.

(** The amended claim on the sample train frame with the ['fake'] mode and
    the notebooks' target 0.16: the model id is the one of the notebook,
    the caller's frame keeps its ratings, the new frame has the two rows
    and one duplicate, all of rating 1.0; with a NaN target the driver
    raises [ValueError]. *)
Lemma run_with_upsampling_output_witness :
  let h : heap := {[ 0%nat := Sample.train_rows ]} in
  h !! 0%nat = Some Sample.train_rows /\
  Py.int (0.16 * 100)%float = Ok 16%Z /\
  (exists h' out dups,
     run_with_upsampling "utime_pfair" h 0%nat "fake" 0.16%float "pairwise"
                         [10%Z]
     = Ok ("utime_pfair_fake_16_pairwise"%string, Some (h', out)) /\
     h' !! out = Some (map (set_rating 1) Sample.train_rows ++ dups) /\
     out <> 0%nat /\ h' !! 0%nat = Some Sample.train_rows) /\
  Py.int (nan * 100)%float = Raise ValueError /\
  run_with_upsampling "utime_pfair" h 0%nat "fake" nan "pairwise" [10%Z]
  = Raise ValueError /\
  run_with_upsampling "utime_pfair" h 0%nat "fake" infinity "pairwise"
                      [10%Z]
  = Raise OverflowError.
Proof.
  cbv zeta.
  assert (Hdf : ({[ 0%nat := Sample.train_rows ]} : heap) !! 0%nat
                = Some Sample.train_rows) by reflexivity.
  assert (Hint : Py.int (0.16 * 100)%float = Ok 16%Z) by reflexivity.
  assert (Hnan : Py.int (nan * 100)%float = Raise ValueError)
    by reflexivity.
  split; [exact Hdf|]. split; [exact Hint|]. split.
  - destruct (run_with_upsampling_output
                "utime_pfair" ({[ 0%nat := Sample.train_rows ]} : heap)
                0%nat Sample.train_rows "fake"%string 0.16%float
                "pairwise" [10%Z] Hdf) as (_ & _ & _ & Hok).
    destruct (Hok 16%Z Hint)
      as (id & h' & out & dups & Hid & Hrun & Hout & _ & Hmodes & _).
    assert (Heq : id = "utime_pfair_fake_16_pairwise"%string).
    { vm_compute in Hid. congruence. }
    subst id. exists h', out, dups.
    destruct Hmodes as [Hne Hsame]; [right; left; reflexivity|].
    repeat split; assumption.
  - split; [exact Hnan|]. split.
    + exact (proj1 (run_with_upsampling_output
                      "utime_pfair" ({[ 0%nat := Sample.train_rows ]} : heap)
                      0%nat Sample.train_rows "fake"%string nan
                      "pairwise" [10%Z] Hdf) ValueError Hnan).
    + exact (proj1 (proj2 (proj2 (run_with_upsampling_output
                      "utime_pfair" ({[ 0%nat := Sample.train_rows ]} : heap)
                      0%nat Sample.train_rows "fake"%string infinity
                      "pairwise" [10%Z] Hdf))) false eq_refl).
Defined.

End UpsamplingRuns.

(** ** The model life cycle *)

Section CutoffLemmas.

Import Cells.

Lemma where_eq_from_spec (i : nat) (cutoffs : list Z) (c : Z) (p : nat) :
  In p (where_eq_from i cutoffs c) <->
  (i <= p)%nat /\ nth_error cutoffs (p - i) = Some c.
Proof.
  revert i. induction cutoffs as [|x t IH]; intros i; simpl.
  - split; [intros []|]. intros [_ H]. now destruct (p - i)%nat.
  - assert (Htail : In p (where_eq_from (S i) t c) <->
                    (i < p)%nat /\ nth_error t (p - S i) = Some c)
      by (rewrite IH; reflexivity).
    destruct (x =? c) eqn:Hx; simpl; rewrite Htail.
    + apply Z.eqb_eq in Hx. subst x. split.
      * intros [<-|[Hlt Hnth]].
        -- split; [lia|]. now rewrite Nat.sub_diag.
        -- split; [lia|].
           replace (p - i)%nat with (S (p - S i)) by lia. exact Hnth.
      * intros [Hle Hnth]. destruct (Nat.eq_dec i p) as [->|Hne];
          [now left|right].
        split; [lia|].
        replace (p - i)%nat with (S (p - S i)) in Hnth by lia. exact Hnth.
    + apply Z.eqb_neq in Hx. split.
      * intros [Hlt Hnth]. split; [lia|].
        replace (p - i)%nat with (S (p - S i)) by lia. exact Hnth.
      * intros [Hle Hnth]. destruct (Nat.eq_dec i p) as [->|Hne].
        -- rewrite Nat.sub_diag in Hnth. simpl in Hnth. congruence.
        -- split; [lia|].
           replace (p - i)%nat with (S (p - S i)) in Hnth by lia.
           exact Hnth.
Qed.

Lemma where_eq_spec (cutoffs : list Z) (c : Z) (p : nat) :
  In p (where_eq cutoffs c) <-> nth_error cutoffs p = Some c.
Proof.
  unfold where_eq. rewrite where_eq_from_spec, Nat.sub_0_r.
  split; [tauto|]. split; [lia|assumption].
Qed.

Lemma where_eq_from_NoDup (i : nat) (cutoffs : list Z) (c : Z) :
  NoDup (where_eq_from i cutoffs c).
Proof.
  revert i. induction cutoffs as [|x t IH]; intros i; simpl.
  - constructor.
  - destruct (x =? c); [|apply IH].
    constructor; [|apply IH].
    intros Hin. apply where_eq_from_spec in Hin. lia.
Qed.

Lemma cutoff_index_absent (cutoffs : list Z) (c : Z) :
  ~ In c cutoffs -> cutoff_index cutoffs c = inr TypeError.
Proof.
  intros Hc. unfold cutoff_index, int_of_array.
  destruct (where_eq cutoffs c) as [|p ps] eqn:Hw; [reflexivity|].
  exfalso. apply Hc. apply (nth_error_In cutoffs p), where_eq_spec.
  rewrite Hw. now left.
Qed.

Lemma cutoff_index_unique (cutoffs : list Z) (c : Z) (i : nat) :
  nth_error cutoffs i = Some c ->
  (forall j, nth_error cutoffs j = Some c -> j = i) ->
  cutoff_index cutoffs c = inl i.
Proof.
  intros Hi Huniq. unfold cutoff_index, int_of_array.
  pose proof (where_eq_spec cutoffs c) as Hspec.
  pose proof (where_eq_from_NoDup 0 cutoffs c) as Hnd.
  fold (where_eq cutoffs c) in Hnd.
  destruct (where_eq cutoffs c) as [|p [|q ps]].
  - apply Hspec in Hi. destruct Hi.
  - f_equal. apply Huniq, Hspec. now left.
  - exfalso.
    assert (Hp : p = i) by (apply Huniq, Hspec; now left).
    assert (Hq : q = i) by (apply Huniq, Hspec; right; now left).
    inversion Hnd as [|? ? Hnotin _]; subst. apply Hnotin. now left.
Qed.

Lemma cutoff_index_twice (cutoffs : list Z) (c : Z) (i j : nat) :
  i <> j -> nth_error cutoffs i = Some c -> nth_error cutoffs j = Some c ->
  cutoff_index cutoffs c = inr TypeError.
Proof.
  intros Hne Hi Hj. unfold cutoff_index, int_of_array.
  pose proof (where_eq_spec cutoffs c) as Hspec.
  destruct (where_eq cutoffs c) as [|p [|q ps]]; [reflexivity| |reflexivity].
  exfalso. apply Hspec in Hi, Hj.
  destruct Hi as [<-|[]]. destruct Hj as [<-|[]]. congruence.
Qed.

End CutoffLemmas.

Section ModelClaims.

Import Model.

Variables Data Params Scores Metrics ItemGroup Report : Type.
Variable fit : kind -> Data -> option nat -> Params.
Variable score : kind -> Data -> Params -> Scores.
Variable evaluate : Data -> Scores -> ItemGroup -> list Z -> Metrics.
Variable show_metrics :
  Model.model Data Params Scores Metrics -> nat -> Py.result Report.

Abbreviation model := (model Data Params Scores Metrics).
Abbreviation train := (train fit).
Abbreviation predict := (predict score).
Abbreviation test := (test evaluate).
Abbreviation run_model := (run_model fit score evaluate show_metrics).

Lemma predict_requires_trained (m : model) :
  state m <> Trained -> predict m = Raise PreconditionError.
Proof.
  unfold Model.predict. destruct (state m); try reflexivity. congruence.
Qed.

Lemma test_requires_predicted (ig : ItemGroup) (c : list Z) (m : model) :
  state m <> Predicted -> test ig c m = Raise PreconditionError.
Proof.
  unfold Model.test. destruct (state m); try reflexivity. congruence.
Qed.

(** C4: [predict()] in any state but Trained, so before [train()], and
    [test()] in any state but Predicted, so before [predict()], fail with
    the state-precondition error; in the order train, predict, test every
    call succeeds, [train()] giving a Trained model, [predict()] the
    relevance matrix and [test()] the metrics.  That is the order
    [run_model] follows: for a known model type none of its model calls
    fails and both files are written, the scores and the metrics; the call
    then ends with [show_metrics] at the position of the cutoff 10, which
    exists when 10 occurs once among the cutoffs, and with [TypeError] when
    10 is not a cutoff or occurs twice. *)
Theorem model_calls_in_order
        (k : kind) (d : Data) (no_epochs : option nat)
        (ig : ItemGroup) (c : list Z) :
  let scores := score k d (fit k d no_epochs) in
  predict (init k d : model) = Raise PreconditionError /\
  (forall m : model,
      state m <> Trained -> predict m = Raise PreconditionError) /\
  (forall m : model,
      state m <> Predicted -> test ig c m = Raise PreconditionError) /\
  (exists m1 m2 m3,
      train no_epochs (init k d : model) = Ok m1 /\ state m1 = Trained /\
      test ig c m1 = Raise PreconditionError /\
      predict m1 = Ok m2 /\ state m2 = Predicted /\
      get_predictions m2 = Some scores /\
      test ig c m2 = Ok m3 /\ state m3 = Evaluated /\
      get_metrics m3 = Some (evaluate d scores ig c)) /\
  (forall model_type,
      model_types model_type = Some k ->
      let scores := score k d (fit k d (epochs_passed no_epochs)) in
      exists m1 m2 m3 : model,
        train (epochs_passed no_epochs) (init k d) = Ok m1 /\
        predict m1 = Ok m2 /\ test ig c m2 = Ok m3 /\
        fst (run_model d ig c model_type no_epochs)
        = [scores_pkl (Some scores);
           metrics_pkl (Some (evaluate d scores ig c))] /\
        snd (run_model d ig c model_type no_epochs)
        = (let* i := index_k c 10 in show_metrics m3 i) /\
        (~ In 10 c ->
         snd (run_model d ig c model_type no_epochs) = Raise TypeError) /\
        (forall i j,
            i <> j -> nth_error c i = Some 10 -> nth_error c j = Some 10 ->
            snd (run_model d ig c model_type no_epochs) = Raise TypeError) /\
        (forall i,
            nth_error c i = Some 10 ->
            (forall j, nth_error c j = Some 10 -> j = i) ->
            snd (run_model d ig c model_type no_epochs)
            = show_metrics m3 i)).
Proof.
  cbv zeta. split; [reflexivity|].
  split; [apply predict_requires_trained|].
  split; [apply test_requires_predicted|]. split.
  - do 3 eexists. repeat split.
  - intros model_type Hk. do 3 eexists.
    split; [reflexivity|]. split; [reflexivity|]. split; [reflexivity|].
    assert (Hrun : run_model d ig c model_type no_epochs
                   = ([scores_pkl
                         (Some (score k d
                                  (fit k d (epochs_passed no_epochs))));
                       metrics_pkl
                         (Some (evaluate d
                                  (score k d
                                     (fit k d (epochs_passed no_epochs)))
                                  ig c))],
                      let* i := index_k c 10 in
                      show_metrics
                        {| model_kind := k; data := d; state := Evaluated;
                           params :=
                             Some (fit k d (epochs_passed no_epochs));
                           predictions :=
                             Some (score k d
                                     (fit k d (epochs_passed no_epochs)));
                           metrics :=
                             Some (evaluate d
                                     (score k d
                                        (fit k d (epochs_passed no_epochs)))
                                     ig c) |} i)).
    { unfold Model.run_model. rewrite Hk.
      destruct no_epochs as [[|n]|]; reflexivity. }
    rewrite Hrun. cbn [fst snd].
    split; [reflexivity|]. split; [reflexivity|]. split; [|split].
    + intros Hc. unfold index_k.
      now rewrite (cutoff_index_absent c 10 Hc).
    + intros i j Hne Hi Hj. unfold index_k.
      now rewrite (cutoff_index_twice c 10 i j Hne Hi Hj).
    + intros i Hi Huniq. unfold index_k.
      now rewrite (cutoff_index_unique c 10 i Hi Huniq).
Qed.

End ModelClaims.

(** The life cycle on a toy instance (the data and the fitted parameters
    are numbers, the scores the parameters, the metrics the number of
    cutoffs, and [show_metrics] gives back its position): the pairwise run
    of the notebook writes its scores and metrics and shows position 1 of
    the notebooks' cutoffs; when 10 is not among the cutoffs the run ends
    with [TypeError] after the two files are written. *)
Lemma model_calls_in_order_witness :
  Model.model_types "pairwise" = Some Model.PairWise /\
  Model.run_model (fun _ (d : nat) _ => d) (fun _ _ (p : nat) => p)
                  (fun _ _ (_ : unit) (c : list Z) => length c)
                  (fun _ (i : nat) => Ok i)
                  7%nat tt [5; 10; 20; 50; 100; 200] "pairwise" (Some 5%nat)
    = ([Model.scores_pkl (Some 7%nat); Model.metrics_pkl (Some 6%nat)],
       Ok 1%nat) /\
  ~ In 10 [5; 20] /\
  Model.run_model (fun _ (d : nat) _ => d) (fun _ _ (p : nat) => p)
                  (fun _ _ (_ : unit) (c : list Z) => length c)
                  (fun _ (i : nat) => Ok i)
                  7%nat tt [5; 20] "pairwise" (Some 5%nat)
    = ([Model.scores_pkl (Some 7%nat); Model.metrics_pkl (Some 2%nat)],
       Raise TypeError).
Proof.
  assert (Hk : Model.model_types "pairwise" = Some Model.PairWise)
    by reflexivity.
  assert (Hout : ~ In 10 [5; 20])
    by (simpl; intros [H|[H|[]]]; discriminate).
  split; [exact Hk|]. split; [|split; [exact Hout|]].
  - pose proof (model_calls_in_order nat nat nat nat unit nat
                  (fun _ d _ => d) (fun _ _ p => p)
                  (fun _ _ _ c => length c) (fun _ i => Ok i)
                  Model.PairWise 7%nat (Some 5%nat) tt
                  [5; 10; 20; 50; 100; 200]) as H.
    cbv zeta in H. destruct H as (_ & _ & _ & _ & Hrun).
    destruct (Hrun "pairwise"%string Hk)
      as (m1 & m2 & m3 & _ & _ & _ & Hfst & _ & _ & _ & Hshow).
    specialize (Hshow 1%nat eq_refl).
    rewrite (surjective_pairing (Model.run_model _ _ _ _ _ _ _ _ _)).
    rewrite Hfst, Hshow; [reflexivity|].
    intros [|[|[|[|[|[|j]]]]]] Hj; try reflexivity; try discriminate.
    destruct j; discriminate.
  - pose proof (model_calls_in_order nat nat nat nat unit nat
                  (fun _ d _ => d) (fun _ _ p => p)
                  (fun _ _ _ c => length c) (fun _ i => Ok i)
                  Model.PairWise 7%nat (Some 5%nat) tt [5; 20]) as H.
    cbv zeta in H. destruct H as (_ & _ & _ & _ & Hrun).
    destruct (Hrun "pairwise"%string Hk)
      as (m1 & m2 & m3 & _ & _ & _ & Hfst & _ & Hraise & _ & _).
    rewrite (surjective_pairing (Model.run_model _ _ _ _ _ _ _ _ _)).
    rewrite Hfst, (Hraise Hout). reflexivity.
Defined.


(** ** NDCG of a user without test items *)

Section MetricsClaims.

Import Metrics.
Local Open Scope Q_scope.

Variable discount : nat -> Q.

Lemma dcg_from_no_test (rank : nat) (ranked : list Z) :
  dcg_from discount rank ranked [] == 0.
Proof.
  revert rank. induction ranked as [|i ranked IH]; intros rank; simpl.
  - reflexivity.
  - rewrite IH. unfold gain. simpl. ring.
Qed.

(** C7: for a user with no test item the NDCG is 0 at every cutoff and for
    every ranked list: the value is the literal 0, no quotient is taken,
    and both the DCG and the ideal DCG are 0 there. *)
Theorem ndcg_no_test_items (cutoffs : list nat) (ranked : list Z) :
  ndcg_at discount cutoffs ranked [] = map (fun _ => 0) cutoffs /\
  forall k,
    ndcg discount k ranked [] = 0 /\
    dcg discount k ranked [] == 0 /\
    idcg discount k [] == 0.
Proof.
  split.
  - unfold ndcg_at. apply map_ext. reflexivity.
  - intros k. split; [reflexivity|]. split.
    + apply dcg_from_no_test.
    + unfold idcg. simpl. rewrite Nat.min_0_r. reflexivity.
Qed.

End MetricsClaims.

(** ** The re-ranker without diversity *)

Section XQuadClaims.

Import XQuad.
Local Open Scope Q_scope.

Context {normalization : Normalization}.
Variable diversity : list Z -> Z -> Q.
Variable rel : Z -> Q.

Lemma insert_by_score_In (i x : Z) (l : list Z) :
  In x (insert_by_score rel i l) <-> x = i \/ In x l.
Proof.
  induction l as [|j l IH]; simpl.
  - intuition.
  - destruct (Qle_bool (rel j) (rel i)); simpl; [intuition|].
    rewrite IH. intuition.
Qed.

Lemma insert_by_score_sorted (i : Z) (l : list Z) :
  StronglySorted (by_relevance rel) l ->
  StronglySorted (by_relevance rel) (insert_by_score rel i l).
Proof.
  induction 1 as [|j l Hs IH Hall]; simpl.
  - repeat constructor.
  - destruct (Qle_bool (rel j) (rel i)) eqn:Hle.
    + apply Qle_bool_iff in Hle. constructor; [now constructor|].
      constructor; [exact Hle|].
      eapply Forall_impl; [|exact Hall]. unfold by_relevance.
      intros x Hx. now apply Qle_trans with (rel j).
    + assert (Hlt : rel i < rel j).
      { apply Qnot_le_lt. intros H. apply Qle_bool_iff in H. congruence. }
      constructor; [assumption|].
      apply Forall_forall. intros x Hx. apply insert_by_score_In in Hx.
      destruct Hx as [->|Hx].
      * now apply Qlt_le_weak.
      * rewrite Forall_forall in Hall. now apply Hall.
Qed.

Lemma rank_items_sorted (items : list Z) :
  StronglySorted (by_relevance rel) (rank_items rel items).
Proof.
  unfold rank_items. induction items; simpl.
  - constructor.
  - now apply insert_by_score_sorted.
Qed.

Lemma firstn_sorted (n : nat) (l : list Z) :
  StronglySorted (by_relevance rel) l ->
  StronglySorted (by_relevance rel) (firstn n l).
Proof.
  intros Hs. revert n. induction Hs as [|j l Hs IH Hall]; intros [|n]; simpl;
    try constructor.
  - apply IH.
  - apply Forall_forall. intros x Hx. apply firstn_In in Hx.
    rewrite Forall_forall in Hall. now apply Hall.
Qed.

Lemma argmax_first (f : Z -> Q) (best : Z) (candidates : list Z) :
  (forall c, In c candidates -> f c <= f best) ->
  argmax f best candidates = best.
Proof.
  induction candidates as [|c t IH]; simpl; intros Hle; [reflexivity|].
  rewrite (proj2 (Qle_bool_iff _ _) (Hle c (or_introl eq_refl))).
  apply IH. auto.
Qed.

Lemma objective_without_diversity (selected : list Z) (c : Z) :
  objective diversity 0 rel selected c == normalize (rel c).
Proof. unfold objective. ring. Qed.

Lemma greedy_without_diversity (k : nat) (selected pool : list Z) :
  StronglySorted (by_relevance rel) pool ->
  greedy diversity 0 k rel selected pool = selected ++ firstn k pool.
Proof.
  revert selected pool. induction k as [|k IH]; intros selected pool Hs.
  - simpl. now rewrite app_nil_r.
  - destruct pool as [|c t]; simpl; [now rewrite app_nil_r|].
    inversion Hs as [|? ? Hs' Hall]; subst.
    rewrite argmax_first.
    + rewrite Z.eqb_refl, IH by assumption.
      now rewrite <- app_assoc.
    + intros x Hx. rewrite !objective_without_diversity.
      apply normalize_monotone.
      rewrite Forall_forall in Hall. now apply Hall.
Qed.

(** C5: with [lambda = 0], and a cut [k] within the candidate pool, the
    re-ranked top-[k] list of a user is the first [k] items of the list
    sorted by relevance: the greedy selection takes the pool in order. *)
Theorem rerank_lambda_zero (items : list Z) (k rmax : nat) :
  (k <= rmax)%nat ->
  rerank diversity 0 rel items k rmax = firstn k (rank_items rel items).
Proof.
  intros Hk. unfold rerank.
  rewrite greedy_without_diversity by apply firstn_sorted, rank_items_sorted.
  simpl. rewrite firstn_firstn. f_equal. lia.
Qed.

End XQuadClaims.

#[export] Instance identity_normalization : XQuad.Normalization := {|
  XQuad.normalize := fun x => x;
  XQuad.normalize_monotone := fun a b H => H
|}.

(** The claim on the sample scores: with [lambda = 0] the top 2 of a pool of
    4 are the two most relevant items, 2 and 4, whatever the diversity
    term. *)
Lemma rerank_lambda_zero_witness :
  (2 <= 4)%nat /\
  XQuad.rerank Sample.even_bonus 0 Sample.relevance [1; 2; 3; 4; 5] 2 4
    = firstn 2 (XQuad.rank_items Sample.relevance [1; 2; 3; 4; 5]) /\
  firstn 2 (XQuad.rank_items Sample.relevance [1; 2; 3; 4; 5]) = [2; 4].
Proof.
  split; [lia|]. split; [|reflexivity].
  apply (rerank_lambda_zero Sample.even_bonus Sample.relevance). lia.
Defined.

(* ===================================================================== *)
(** * Part III: the cells around the claims                               *)
(* ===================================================================== *)

(** ** Lists of keys *)

Section KeyFacts.

Lemma strictly_sorted_ext (l1 l2 : list Z) :
  StronglySorted Z.lt l1 -> StronglySorted Z.lt l2 ->
  (forall x, In x l1 <-> In x l2) -> l1 = l2.
Proof.
  intros H1. revert l2.
  induction H1 as [|a l1 Hs1 IH Hall1]; intros l2 H2 Hext.
  - destruct l2 as [|b l2]; [reflexivity|].
    exfalso. apply (proj2 (Hext b)). now left.
  - destruct H2 as [|b l2 Hs2 Hall2].
    + exfalso. apply (proj1 (Hext a)). now left.
    + rewrite Forall_forall in Hall1, Hall2.
      assert (Hab : a = b).
      { destruct (proj1 (Hext a) (or_introl eq_refl)) as [Hb|Ha];
          [now symmetry|].
        destruct (proj2 (Hext b) (or_introl eq_refl)) as [Hb|Hb];
          [assumption|].
        specialize (Hall1 b Hb). specialize (Hall2 a Ha). lia. }
      subst b. f_equal. apply IH; [assumption|].
      intros x. split; intros Hx.
      * destruct (proj1 (Hext x) (or_intror Hx)) as [Hxa|Hx2];
          [|assumption].
        specialize (Hall1 x Hx). lia.
      * destruct (proj2 (Hext x) (or_intror Hx)) as [Hxa|Hx1];
          [|assumption].
        specialize (Hall2 x Hx). lia.
Qed.

Lemma range_In (n : nat) (x : Z) :
  In x (Cells.range n) <-> 0 <= x < Z.of_nat n.
Proof.
  unfold Cells.range. rewrite in_map_iff. split.
  - intros (i & <- & Hi). apply in_seq in Hi. lia.
  - intros Hx. exists (Z.to_nat x). split; [lia|]. apply in_seq. lia.
Qed.

Lemma range_from_sorted (start n : nat) :
  StronglySorted Z.lt (map Z.of_nat (seq start n)).
Proof.
  revert start. induction n as [|n IH]; intros start; simpl.
  - constructor.
  - constructor; [apply IH|].
    apply Forall_forall. intros x Hx. apply in_map_iff in Hx.
    destruct Hx as (i & <- & Hi). apply in_seq in Hi. lia.
Qed.

Lemma range_nth (n : nat) (c : Z) :
  0 <= c < Z.of_nat n -> nth_error (Cells.range n) (Z.to_nat c) = Some c.
Proof.
  intros Hc. unfold Cells.range.
  rewrite nth_error_map, nth_error_seq.
  destruct (Nat.ltb_spec (Z.to_nat c) n); [simpl; f_equal; lia|lia].
Qed.

(** The codes of a column, sorted, are [0 .. n-1], [n] the number of
    distinct values. *)
Lemma unique_cat_codes (col : list Z) :
  unique (map (cat_code (unique col)) col)
  = Cells.range (length (unique col)).
Proof.
  apply strictly_sorted_ext.
  - apply unique_sorted.
  - apply range_from_sorted.
  - intros c. rewrite unique_In, range_In, in_map_iff. split.
    + intros (x & <- & Hx). apply cat_code_range. now apply unique_In.
    + intros Hc.
      assert (Hx : In (nth (Z.to_nat c) (unique col) 0) (unique col))
        by (apply nth_In; lia).
      exists (nth (Z.to_nat c) (unique col) 0). split.
      * unfold cat_code.
        rewrite index_of_nth; [lia|apply unique_NoDup|lia].
      * now apply unique_In.
Qed.

Lemma sorted_app_rel {A} (R : A -> A -> Prop) (l1 l2 : list A) :
  StronglySorted R (l1 ++ l2) ->
  forall a b, In a l1 -> In b l2 -> R a b.
Proof.
  induction l1 as [|x l1 IH]; simpl; intros Hs a b Ha Hb; [contradiction|].
  inversion Hs as [|? ? Hs' Hall]; subst.
  destruct Ha as [->|Ha].
  - rewrite Forall_forall in Hall. apply Hall, in_or_app. now right.
  - now apply IH.
Qed.

End KeyFacts.

(** ** The frames made from the split *)

Section SplitCells.

Import Cells.

Context {sorter : TimeSort}.

Lemma recode_id_columns (l : list (Interaction * string)) :
  map s_user_id (recode l)
  = map (cat_code (unique (map s_user_id_original (recode l))))
        (map s_user_id_original (recode l)) /\
  map s_item_id (recode l)
  = map (cat_code (unique (map s_item_id_original (recode l))))
        (map s_item_id_original (recode l)).
Proof.
  rewrite !map_map. split; apply map_ext_in; intros r Hr;
    now destruct (recode_codes l r Hr).
Qed.

Lemma user_timestamp_recoded (interactions : list Interaction)
      (split : float) (min_samples : Z) (traintest : list SplitRow) :
  user_timestamp interactions split min_samples = Ok traintest ->
  exists X Y,
    traintest = recode (map (with_set "train") X ++ map (with_set "test") Y)
    /\ (forall d, In d X \/ In d Y -> In d interactions).
Proof.
  intros Hok. apply user_timestamp_ok in Hok. destruct Hok as (_ & _ & ->).
  do 2 eexists. split; [reflexivity|].
  intros d [Hd|Hd]; eapply kept_rows_original; try exact Hd.
  - apply train_part_incl.
  - apply test_part_incl.
Qed.

(** X1: the cell [train = traintest[traintest['set']=='train'].copy()],
    [test = traintest[traintest['set']=='test'].copy()] cuts the frame
    of [user_timestamp] in two consecutive pieces: the train rows followed by
    the test rows are the frame itself, row for row. *)
Theorem train_test_cut_the_frame
        (interactions : list Interaction) (split : float)
        (min_samples : Z) (traintest : list SplitRow) :
  user_timestamp interactions split min_samples = Ok traintest ->
  select_set "train" traintest ++ select_set "test" traintest = traintest /\
  (forall r, In r (select_set "train" traintest) ->
             ~ In r (select_set "test" traintest)).
Proof.
  intros Hok. split.
  - apply user_timestamp_recoded in Hok. destruct Hok as (X & Y & -> & _).
    unfold select_set, recode. cbv zeta.
    rewrite map_app, !filter_app, !filter_map_comm. simpl.
    rewrite (filter_all (fun _ => true) X) by reflexivity.
    rewrite (filter_all (fun _ => true) Y) by reflexivity.
    rewrite (filter_none (fun _ => false) X) by reflexivity.
    rewrite (filter_none (fun _ => false) Y) by reflexivity.
    simpl. now rewrite app_nil_r.
  - unfold select_set. intros r Htrain Htest.
    apply filter_In in Htrain, Htest.
    destruct Htrain as [_ Htrain]. destruct Htest as [_ Htest].
    apply String.eqb_eq in Htrain. rewrite Htrain in Htest. discriminate.
Qed.

(** X2: on the frame of [user_timestamp], [users] is [0, 1, ..., |U|-1] and
    [items] is [0, 1, ..., |I|-1], with [|U|] and [|I|] the numbers of
    distinct original ids in the frame: [len(users)] and [len(items)] are
    the sizes of the two id spaces and every id below them is in use. *)
Theorem users_and_items_are_ranges
        (interactions : list Interaction) (split : float)
        (min_samples : Z) (traintest : list SplitRow) :
  user_timestamp interactions split min_samples = Ok traintest ->
  users traintest
    = range (length (unique (map s_user_id_original traintest))) /\
  items traintest
    = range (length (unique (map s_item_id_original traintest))).
Proof.
  intros Hok. apply user_timestamp_recoded in Hok.
  destruct Hok as (X & Y & -> & _). unfold users, items.
  destruct (recode_id_columns
              (map (with_set "train") X ++ map (with_set "test") Y))
    as [-> ->].
  split; apply unique_cat_codes.
Qed.

(** X3: the split carries the rating column through: when the ratings were
    collapsed to 1.0 before the split, as [model_setup.ipynb] does, every
    row of the frame has rating 1.0. *)
Theorem split_of_implicit_feedback
        (data : list Interaction) (split : float) (min_samples : Z)
        (traintest : list SplitRow) :
  user_timestamp (implicit_feedback data) split min_samples = Ok traintest ->
  forall r, In r traintest -> s_rating r = 1%float.
Proof.
  intros Hok r Hr. apply user_timestamp_recoded in Hok.
  destruct Hok as (X & Y & -> & Hin).
  apply traintest_set in Hr.
  assert (Ho : In (original r) (implicit_feedback data))
    by (apply Hin; tauto).
  unfold implicit_feedback in Ho. apply in_map_iff in Ho.
  destruct Ho as (d & Hd & _).
  apply (f_equal rating) in Hd. simpl in Hd. now symmetry.
Qed.

End SplitCells.

(** ** The position of a cutoff *)

Section CutoffFacts.

Import Cells.

(** X4: [int(np.where(cutoffs == c)[0])] gives a position only when [c]
    occurs exactly once among the cutoffs, and then it is the position of
    [c]; when [c] is not a cutoff the conversion raises [TypeError], as it
    does when [c] occurs twice; when the cutoffs are distinct, every cutoff
    has its position. *)
Theorem cutoff_index_position (cutoffs : list Z) (c : Z) :
  (forall i, cutoff_index cutoffs c = inl i ->
             nth_error cutoffs i = Some c /\
             forall j, nth_error cutoffs j = Some c -> j = i) /\
  (~ In c cutoffs -> cutoff_index cutoffs c = inr TypeError) /\
  (forall i j, i <> j -> nth_error cutoffs i = Some c ->
               nth_error cutoffs j = Some c ->
               cutoff_index cutoffs c = inr TypeError) /\
  (NoDup cutoffs -> In c cutoffs ->
   exists i, cutoff_index cutoffs c = inl i).
Proof.
  unfold cutoff_index, int_of_array.
  pose proof (where_eq_spec cutoffs c) as Hspec.
  pose proof (where_eq_from_NoDup 0 cutoffs c) as Hnd.
  fold (where_eq cutoffs c) in Hnd.
  destruct (where_eq cutoffs c) as [|p [|q ps]] eqn:Hw.
  - split; [discriminate|]. split; [reflexivity|]. split; [reflexivity|].
    intros _ Hc. apply In_nth_error in Hc. destruct Hc as [n Hn].
    apply Hspec in Hn. contradiction.
  - split; [|split; [|split]].
    + intros i Hi. injection Hi as <-. split.
      * apply Hspec. now left.
      * intros j Hj. apply Hspec in Hj. destruct Hj as [<-|[]]. reflexivity.
    + intros Hc. exfalso. apply Hc.
      apply (nth_error_In cutoffs p), Hspec. now left.
    + intros i j Hne Hi Hj. exfalso. apply Hspec in Hi, Hj.
      destruct Hi as [<-|[]]. destruct Hj as [<-|[]]. congruence.
    + intros _ _. now exists p.
  - split; [discriminate|]. split; [reflexivity|]. split; [reflexivity|].
    intros Hcut _. exfalso.
    assert (Hp : nth_error cutoffs p = Some c) by (apply Hspec; now left).
    assert (Hq : nth_error cutoffs q = Some c)
      by (apply Hspec; right; now left).
    assert (Hlt : (p < length cutoffs)%nat)
      by (apply nth_error_Some; congruence).
    rewrite NoDup_nth_error in Hcut.
    assert (Hpq : p = q) by (apply Hcut; [assumption|congruence]).
    inversion Hnd as [|? ? Hnotin _]; subst. apply Hnotin. now left.
Qed.

End CutoffFacts.

(** ** Item popularity *)

Import Popularity.

Lemma insert_by_count_perm (p : Z * nat) (l : list (Z * nat)) :
  Permutation (p :: l) (insert_by_count p l).
Proof.
  induction l as [|q l IH]; simpl.
  - apply Permutation_refl.
  - destruct (snd q <=? snd p)%nat.
    + apply Permutation_refl.
    + eapply perm_trans; [apply perm_swap|]. now apply perm_skip.
Qed.

Lemma insertion_sort_counts_perm (l : list (Z * nat)) :
  Permutation l (insertion_sort_counts l).
Proof.
  unfold insertion_sort_counts. induction l as [|p l IH]; simpl.
  - apply perm_nil.
  - eapply perm_trans; [apply perm_skip, IH|]. apply insert_by_count_perm.
Qed.

Lemma insert_by_count_sorted (p : Z * nat) (l : list (Z * nat)) :
  StronglySorted (fun a b => (snd b <= snd a)%nat) l ->
  StronglySorted (fun a b => (snd b <= snd a)%nat) (insert_by_count p l).
Proof.
  induction 1 as [|q l Hs IH Hall]; simpl.
  - repeat constructor.
  - destruct (snd q <=? snd p)%nat eqn:Hle.
    + apply Nat.leb_le in Hle. constructor; [now constructor|].
      constructor; [assumption|].
      eapply Forall_impl; [|exact Hall]. simpl; intros; lia.
    + apply Nat.leb_gt in Hle. constructor; [assumption|].
      apply Forall_forall. intros y Hy.
      apply (Permutation_in _ (Permutation_sym (insert_by_count_perm p l)))
        in Hy.
      destruct Hy as [<-|Hy]; [lia|].
      rewrite Forall_forall in Hall. now apply Hall.
Qed.

Lemma insertion_sort_counts_sorted (l : list (Z * nat)) :
  StronglySorted (fun a b => (snd b <= snd a)%nat) (insertion_sort_counts l).
Proof.
  unfold insertion_sort_counts. induction l; simpl.
  - constructor.
  - now apply insert_by_count_sorted.
Qed.

#[export] Instance insertion_count_sort : CountSort := {|
  sort_counts := insertion_sort_counts;
  sort_counts_perm := insertion_sort_counts_perm;
  sort_counts_sorted := insertion_sort_counts_sorted
|}.

Section PopularityFacts.

Context {sorter : CountSort}.

Lemma item_counts_keys (col : list Z) :
  map fst (item_counts col) = unique col.
Proof. unfold item_counts. rewrite map_map. apply map_id. Qed.

Lemma item_counts_entry (col : list Z) (p : Z * nat) :
  In p (item_counts col) ->
  In (fst p) col /\ snd p = count_rows col (fst p).
Proof.
  unfold item_counts. intros H. apply in_map_iff in H.
  destruct H as (i & <- & Hi). split; [now apply unique_In|reflexivity].
Qed.

Lemma item_pop_entry (col : list Z) (p : Z * nat) :
  In p (item_pop col) -> In (fst p) col /\ snd p = count_rows col (fst p).
Proof.
  intros H. apply item_counts_entry.
  apply (Permutation_in _ (Permutation_sym (sort_counts_perm _))). exact H.
Qed.

Lemma item_pop_keys (col : list Z) :
  Permutation (map fst (item_pop col)) (unique col).
Proof.
  rewrite <- item_counts_keys. apply Permutation_map, Permutation_sym.
  apply sort_counts_perm.
Qed.

Lemma head_slice_from {A} (n : Z) (s : list A) :
  head n s ++ slice_from n s = s.
Proof.
  unfold head, slice_from. destruct (0 <=? n); apply firstn_skipn.
Qed.

Lemma count_rows_absent (col : list Z) (i : Z) :
  ~ In i col -> count_rows col i = 0%nat.
Proof.
  intros Hi. unfold count_rows. rewrite filter_none; [reflexivity|].
  intros x Hx. apply Z.eqb_neq. congruence.
Qed.

(** X5: whatever [head_tail_split], the head and the long tail share out
    the items: together they are all the items of the column, each once, and
    no item of the tail has more rows than an item of the head; for a
    non-negative split the head has [min(split, |I|)] items. *)
Theorem head_and_tail_share_the_items (head_tail_split : Z) (col : list Z) :
  let head_items := head_tail_items head_tail_split col in
  let tail_items := long_tail_items head_tail_split col in
  Permutation (head_items ++ tail_items) (unique col) /\
  NoDup (head_items ++ tail_items) /\
  (forall a b, In a head_items -> In b tail_items ->
               (count_rows col b <= count_rows col a)%nat) /\
  (0 <= head_tail_split ->
   length head_items
   = Nat.min (Z.to_nat head_tail_split) (length (unique col))).
Proof.
  cbv zeta. unfold head_tail_items, long_tail_items.
  assert (Hall : Permutation
                   (map fst (head head_tail_split (item_pop col))
                    ++ map fst (slice_from head_tail_split (item_pop col)))
                   (unique col)).
  { rewrite <- map_app, head_slice_from. apply item_pop_keys. }
  split; [exact Hall|]. split; [|split].
  - apply (Permutation_NoDup (Permutation_sym Hall)), unique_NoDup.
  - intros a b Ha Hb. apply in_map_iff in Ha, Hb.
    destruct Ha as (p & <- & Hp). destruct Hb as (q & <- & Hq).
    assert (Hp' : In p (item_pop col))
      by (rewrite <- (head_slice_from head_tail_split); apply in_or_app;
          now left).
    assert (Hq' : In q (item_pop col))
      by (rewrite <- (head_slice_from head_tail_split); apply in_or_app;
          now right).
    rewrite <- (proj2 (item_pop_entry col p Hp')),
      <- (proj2 (item_pop_entry col q Hq')).
    apply (sorted_app_rel (fun a b => (snd b <= snd a)%nat)
                          (head head_tail_split (item_pop col))
                          (slice_from head_tail_split (item_pop col)));
      try assumption.
    rewrite head_slice_from. apply sort_counts_sorted.
  - intros Hsplit. unfold head.
    replace (0 <=? head_tail_split) with true
      by (symmetry; now apply Z.leb_le).
    rewrite length_map, length_firstn. f_equal.
    rewrite <- (Permutation_length (item_pop_keys col)).
    symmetry. apply length_map.
Qed.

(** X6: the most popular item: [index[0]] raises [IndexError] on a frame
    without rows; otherwise the cell gives an item of the frame that has at
    least as many rows as any other. *)
Theorem most_popular_has_most_rows (col : list Z) :
  (col = [] -> most_popular col = inr Cells.IndexError) /\
  (col <> [] -> exists i, most_popular col = inl i) /\
  (forall i, most_popular col = inl i ->
             In i col /\
             forall j, (count_rows col j <= count_rows col i)%nat).
Proof.
  unfold most_popular.
  pose proof (item_pop_entry col) as Hentry.
  pose proof (item_pop_keys col) as Hkeys.
  pose proof (sort_counts_sorted (item_counts col)) as Hsorted.
  fold (item_pop col) in Hsorted.
  destruct (item_pop col) as [|[i n] rest].
  - apply Permutation_nil in Hkeys.
    split; [reflexivity|]. split; [|discriminate].
    intros Hne. exfalso. destruct col as [|x col]; [congruence|].
    assert (Hx : In x (unique (x :: col))) by (apply unique_In; now left).
    rewrite Hkeys in Hx. contradiction.
  - split; [|split].
    + intros ->. apply Permutation_sym, Permutation_nil in Hkeys.
      discriminate.
    + intros _. now exists i.
    + intros i' Hi. injection Hi as <-.
      destruct (Hentry (i, n) (or_introl eq_refl)) as [Hin Hn].
      simpl in Hin, Hn. split; [assumption|].
      intros j. destruct (in_dec Z.eq_dec j col) as [Hj|Hj];
        [|rewrite (count_rows_absent col j Hj); lia].
      assert (Hjk : In j (map fst ((i, n) :: rest))).
      { apply (Permutation_in _ (Permutation_sym Hkeys)).
        now apply unique_In. }
      apply in_map_iff in Hjk. destruct Hjk as ([j' m] & Hfst & Hp).
      simpl in Hfst. subst j'.
      destruct (Hentry (j, m) Hp) as [_ Hm]. simpl in Hm.
      rewrite <- Hm, <- Hn.
      destruct Hp as [Hp|Hp]; [injection Hp as _ Hnm; lia|].
      apply StronglySorted_inv in Hsorted. destruct Hsorted as [_ Hall].
      rewrite Forall_forall in Hall. apply (Hall (j, m) Hp).
Qed.

Lemma count_rows_cons (x : Z) (col : list Z) (k : Z) :
  count_rows (x :: col) k
  = ((if (k =? x)%Z then 1 else 0) + count_rows col k)%nat.
Proof. unfold count_rows. simpl. now destruct (k =? x). Qed.

Lemma indicator_sum (x : Z) (keys : list Z) :
  NoDup keys -> In x keys ->
  list_sum (map (fun k => if k =? x then 1%nat else 0%nat) keys) = 1%nat.
Proof.
  induction 1 as [|k keys Hnotin Hnd IH]; simpl; [tauto|].
  intros [->|Hx].
  - rewrite Z.eqb_refl. f_equal.
    clear IH Hnd. induction keys as [|a keys IH]; simpl; [reflexivity|].
    destruct (a =? x) eqn:Ha.
    + apply Z.eqb_eq in Ha. subst a. exfalso. apply Hnotin. now left.
    + apply IH. intros H. apply Hnotin. now right.
  - destruct (k =? x) eqn:Hk.
    + apply Z.eqb_eq in Hk. subst k. contradiction.
    + now apply IH.
Qed.

Lemma count_rows_sum (col keys : list Z) :
  NoDup keys -> (forall x, In x col -> In x keys) ->
  list_sum (map (count_rows col) keys) = length col.
Proof.
  intros Hnd. induction col as [|x col IH]; intros Hcover.
  - clear Hcover Hnd. induction keys; simpl; auto.
  - rewrite (map_ext _ (fun k => ((if (k =? x)%Z then 1 else 0)
                                  + count_rows col k)%nat))
      by (intros k; apply count_rows_cons).
    assert (Hsplit : forall (f g : Z -> nat) l,
               list_sum (map (fun k => (f k + g k)%nat) l)
               = (list_sum (map f l) + list_sum (map g l))%nat).
    { intros f g l. induction l as [|a l IHl]; simpl; [reflexivity|].
      rewrite IHl. lia. }
    rewrite Hsplit, indicator_sum, IH.
    + reflexivity.
    + intros y Hy. apply Hcover. now right.
    + assumption.
    + apply Hcover. now left.
Qed.

(** X7: [item_pop] lists every item of the column once, with its number
    of rows, in non-increasing order of that number, and the numbers add up
    to the number of rows of the frame. *)
Theorem item_pop_counts_every_row (col : list Z) :
  Permutation (map fst (item_pop col)) (unique col) /\
  (forall i n, In (i, n) (item_pop col) -> n = count_rows col i) /\
  StronglySorted (fun a b => (snd b <= snd a)%nat) (item_pop col) /\
  list_sum (map snd (item_pop col)) = length col.
Proof.
  split; [apply item_pop_keys|]. split; [|split].
  - intros i n Hin. now destruct (item_pop_entry col (i, n) Hin).
  - apply sort_counts_sorted.
  - assert (Hperm : Permutation (map snd (item_pop col))
                                (map (count_rows col) (unique col))).
    { apply Permutation_trans with (map snd (item_counts col)).
      - apply Permutation_map, Permutation_sym, sort_counts_perm.
      - unfold item_counts. rewrite map_map. apply Permutation_refl. }
    assert (Hsum : forall l1 l2 : list nat,
               Permutation l1 l2 -> list_sum l1 = list_sum l2).
    { induction 1; simpl; lia. }
    rewrite (Hsum _ _ Hperm).
    apply count_rows_sum; [apply unique_NoDup|].
    intros x Hx. now apply unique_In.
Qed.

End PopularityFacts.

(** ** The representation of the two groups *)

Section RepresentationFacts.

Import Provider Representation.

Lemma is_nan_spec (x : float) : is_nan x = true -> Prim2SF x = S754_nan.
Proof.
  unfold is_nan. rewrite FloatAxioms.eqb_spec. intros H.
  apply negb_true_iff in H. unfold SFeqb in H.
  destruct (Prim2SF x) as [s| s| |s m e]; simpl in H;
    try discriminate; try reflexivity.
  - destruct s; discriminate.
  - destruct s; rewrite Z.compare_refl in H;
      change (Pos.compare_cont Eq m m) with (Pos.compare m m) in H;
      rewrite Pos.compare_refl in H; discriminate.
Qed.

Lemma nan_not_positive (x : float) :
  is_nan x = true -> (0 <? x)%float = false /\ (x =? 0)%float = false.
Proof.
  intros H. apply is_nan_spec in H.
  rewrite ltb_spec, FloatAxioms.eqb_spec, H. split; reflexivity.
Qed.

Lemma positive_not_zero (x : float) :
  (0 <? x)%float = true -> (x =? 0)%float = false.
Proof.
  rewrite ltb_spec, FloatAxioms.eqb_spec.
  change (Prim2SF 0) with (S754_zero false).
  unfold SFltb, SFeqb.
  destruct (Prim2SF x) as [s| s| |s m e]; simpl; try discriminate;
    destruct s; intros; try discriminate; reflexivity.
Qed.

(** X8: what the defaults do to the group sizes printed by the notebook:
    after the estimator the rows with [minority > 0] are those with
    [gender_1 > 0] together with those of unknown [gender_1] (no row counts
    twice), while the rows with [minority == 0] and the rows with
    [majority > 0] are exactly those of [gender_1 == 0] and of
    [gender_2 > 0]; the rows of unknown [gender_2] join those with
    [majority == 0]. *)
Theorem representation_after_defaults (assoc : list GenderRow) :
  let table := group_representation assoc in
  count_positive (map minority table)
  = (count_positive (map gender_1 assoc)
     + count_nan (map gender_1 assoc))%nat /\
  count_zero (map minority table) = count_zero (map gender_1 assoc) /\
  count_positive (map majority table)
  = count_positive (map gender_2 assoc) /\
  count_zero (map majority table)
  = (count_zero (map gender_2 assoc) + count_nan (map gender_2 assoc))%nat.
Proof.
  cbv zeta. unfold count_positive, count_zero, count_nan,
    group_representation.
  induction assoc as [|g assoc (IH1 & IH2 & IH3 & IH4)]; simpl;
    [repeat split|].
  unfold minority_of, majority_of.
  destruct (is_nan (gender_1 g)) eqn:H1; destruct (is_nan (gender_2 g)) eqn:H2.
  - destruct (nan_not_positive _ H1) as [-> ->].
    destruct (nan_not_positive _ H2) as [-> ->].
    simpl. rewrite IH1, IH2, IH3, IH4. repeat split; lia.
  - destruct (nan_not_positive _ H1) as [-> ->].
    simpl. rewrite IH1, IH2.
    destruct (0 <? gender_2 g)%float; destruct (gender_2 g =? 0)%float;
      simpl; rewrite IH3, IH4; repeat split; lia.
  - destruct (nan_not_positive _ H2) as [-> ->].
    simpl. rewrite IH3, IH4.
    destruct (0 <? gender_1 g)%float; destruct (gender_1 g =? 0)%float;
      simpl; rewrite IH1, IH2; repeat split; lia.
  - destruct (0 <? gender_1 g)%float; destruct (gender_1 g =? 0)%float;
      destruct (0 <? gender_2 g)%float; destruct (gender_2 g =? 0)%float;
      simpl; rewrite IH1, IH2, IH3, IH4; repeat split; lia.
Qed.

End RepresentationFacts.

(** ** How often the merge repeats an interaction *)

Section MergeFacts.

Import Provider.

Context {order : JoinOrder}.

Lemma NoDup_map_injective {A} (f : A -> Z) (l : list A) (x y : A) :
  NoDup (map f l) -> In x l -> In y l -> f x = f y -> x = y.
Proof.
  induction l as [|a l IH]; simpl; [tauto|].
  intros Hnd Hx Hy Heq. inversion Hnd as [|? ? Hnotin Hnd']; subst.
  destruct Hx as [->|Hx]; destruct Hy as [->|Hy]; auto.
  - exfalso. apply Hnotin. rewrite Heq. now apply in_map.
  - exfalso. apply Hnotin. rewrite <- Heq. now apply in_map.
Qed.

Lemma count_rows_NoDup (keys : list Z) (i : Z) :
  NoDup keys -> count_rows keys i = if mem i keys then 1%nat else 0%nat.
Proof.
  unfold count_rows, mem.
  induction 1 as [|k keys Hnotin Hnd IH]; simpl; [reflexivity|].
  destruct (i =? k) eqn:Hik; simpl.
  - apply Z.eqb_eq in Hik. subst k. rewrite filter_none; [reflexivity|].
    intros x Hx. apply Z.eqb_neq. congruence.
  - exact IH.
Qed.

Lemma matching_rows (assoc : list GenderRow) (i : Z) :
  length (filter (fun a => a_item_id a =? i) (group_representation assoc))
  = count_rows (map g_item_id assoc) i.
Proof.
  unfold group_representation, count_rows.
  rewrite !filter_map_comm, !length_map. f_equal.
  apply filter_ext. intros g. simpl. apply Z.eqb_sym.
Qed.

Lemma pairs_interactions (data : list Splitter.Interaction)
      (assoc : list GenderRow) :
  map interaction (pairs data (group_representation assoc))
  = flat_map (fun d => repeat d (count_rows (map g_item_id assoc)
                                            (item_id d)))
             data.
Proof.
  unfold pairs. induction data as [|d data IH]; simpl; [reflexivity|].
  rewrite map_app, IH. f_equal.
  rewrite map_map, <- matching_rows. simpl.
  induction (filter (fun a => a_item_id a =? item_id d)
                    (group_representation assoc)); simpl; congruence.
Qed.

(** X9: whatever the row order of the merge, it repeats each interaction
    once per row that its item has in the table: the merged interactions
    are, up to their order, each interaction repeated that many times.
    When the item ids of the table are distinct, the merged interactions
    are therefore, up to their order, the interactions whose item is in the
    table, each once, and all the rows of an item carry the same two
    shares; with a duplicated item id in the table the interactions of
    that item are duplicated, not rejected. *)
Theorem merge_row_multiplicity (data : list Splitter.Interaction)
        (assoc : list GenderRow) :
  let merged := merge data (group_representation assoc) in
  Permutation
    (map interaction merged)
    (flat_map (fun d => repeat d (count_rows (map g_item_id assoc)
                                             (item_id d)))
              data) /\
  (NoDup (map g_item_id assoc) ->
   Permutation
     (map interaction merged)
     (filter (fun d => mem (item_id d) (map g_item_id assoc)) data) /\
   forall m m', In m merged -> In m' merged ->
     item_id (interaction m) = item_id (interaction m') ->
     p_minority m = p_minority m' /\ p_majority m = p_majority m').
Proof.
  cbv zeta.
  assert (Hmult : Permutation
                    (map interaction
                         (merge data (group_representation assoc)))
                    (flat_map (fun d => repeat d (count_rows
                                                   (map g_item_id assoc)
                                                   (item_id d)))
                              data)).
  { rewrite <- pairs_interactions. apply Permutation_map.
    unfold merge. apply Permutation_sym, arrange_perm. }
  split; [exact Hmult|]. intros Hnd. split.
  - rewrite Hmult. clear Hmult.
    induction data as [|d data IH]; simpl; [constructor|].
    rewrite (count_rows_NoDup _ _ Hnd).
    destruct (mem (item_id d) (map g_item_id assoc)); simpl;
      [now constructor|exact IH].
  - assert (Hrow : forall m,
              In m (merge data (group_representation assoc)) ->
              exists g, In g assoc /\
                        g_item_id g = item_id (interaction m) /\
                        p_minority m = minority (estimate g) /\
                        p_majority m = majority (estimate g)).
    { intros m Hm. apply merge_In in Hm. unfold pairs in Hm.
      apply in_flat_map in Hm.
      destruct Hm as (d & _ & Hm). apply in_map_iff in Hm.
      destruct Hm as (a & <- & Ha). apply filter_In in Ha.
      destruct Ha as [Ha Heq]. apply Z.eqb_eq in Heq.
      unfold group_representation in Ha. apply in_map_iff in Ha.
      destruct Ha as (g & <- & Hg). exists g. now repeat split. }
    intros m m' Hm Hm' Hitem.
    destruct (Hrow m Hm) as (g & Hg & Hk & -> & ->).
    destruct (Hrow m' Hm') as (g' & Hg' & Hk' & -> & ->).
    assert (g = g')
      by (apply (NoDup_map_injective g_item_id assoc); congruence).
    subst g'. now split.
Qed.

End MergeFacts.

Section CategoryVector.

Import Cells.

(** X10: the category vector has one entry per item, and it is aligned with
    the dense ids in the one case where the items first appear in the frame
    in increasing id order: then, each item having one category, position
    [X] holds the category of item [X].  (The frames of [user_timestamp] are
    ordered by user and time, so this is not their case in general.) *)
Theorem category_per_item_when_ordered (traintest : list SplitRow) :
  length (category_per_item traintest) = length (items traintest) /\
  (items traintest = range (length (items traintest)) ->
   StronglySorted Z.lt
     (map s_item_id (drop_duplicates s_item_id traintest)) ->
   (forall r r', In r traintest -> In r' traintest ->
                 s_item_id r = s_item_id r' -> s_type_id r = s_type_id r') ->
   forall r, In r traintest ->
             nth_error (category_per_item traintest)
                       (Z.to_nat (s_item_id r))
             = Some (s_type_id r)).
Proof.
  unfold category_per_item, items.
  set (firsts := drop_duplicates s_item_id traintest).
  assert (Hkeys : forall k, In k (map s_item_id firsts)
                            <-> In k (unique (map s_item_id traintest))).
  { intros k. unfold firsts. rewrite drop_duplicates_keys.
    symmetry. apply unique_In. }
  split.
  - rewrite length_map, <- (length_map s_item_id firsts).
    apply Permutation_length, NoDup_Permutation;
      [|apply unique_NoDup|exact Hkeys].
    apply drop_duplicates_from_keys_NoDup.
  - intros Hrange Hsorted Hcat r Hr.
    assert (Heq : map s_item_id firsts = unique (map s_item_id traintest))
      by (apply strictly_sorted_ext;
          [assumption|apply unique_sorted|exact Hkeys]).
    assert (Hc : 0 <= s_item_id r
                 < Z.of_nat (length (unique (map s_item_id traintest)))).
    { apply range_In. rewrite <- Hrange. apply unique_In. now apply in_map. }
    pose proof (range_nth _ _ Hc) as Hnth.
    rewrite <- Hrange, <- Heq, nth_error_map in Hnth.
    rewrite nth_error_map.
    destruct (nth_error firsts (Z.to_nat (s_item_id r))) as [r0|] eqn:Hr0;
      [|discriminate].
    simpl in Hnth |- *. f_equal. apply Hcat; [|assumption|congruence].
    apply nth_error_In in Hr0. unfold firsts, drop_duplicates in Hr0.
    now apply drop_duplicates_from_In in Hr0.
Qed.

End CategoryVector.

(** ** The item groups *)

Section SeriesFacts.

Import Cells.

Lemma mem_map_injective (f : Z -> Z) (x : Z) (seen : list Z) :
  (forall y, In y seen -> f y = f x -> y = x) ->
  mem (f x) (map f seen) = mem x seen.
Proof.
  intros Hinj. destruct (mem x seen) eqn:Hx.
  - apply mem_In. apply mem_In in Hx. now apply in_map.
  - destruct (mem (f x) (map f seen)) eqn:Hfx; [|reflexivity].
    apply mem_In, in_map_iff in Hfx. destruct Hfx as (y & Hy & Hin).
    rewrite (Hinj y Hin Hy) in Hin. apply mem_In in Hin. congruence.
Qed.

Lemma drop_duplicates_from_map (f : Z -> Z) (seen l : list Z) :
  (forall x y, In x (seen ++ l) -> In y (seen ++ l) -> f x = f y -> x = y) ->
  drop_duplicates_from (fun x => x) (map f seen) (map f l)
  = map f (drop_duplicates_from (fun x => x) seen l).
Proof.
  revert seen. induction l as [|a l IH]; intros seen Hinj; simpl;
    [reflexivity|].
  rewrite mem_map_injective.
  - destruct (mem a seen).
    + apply IH. intros x y Hx Hy. apply Hinj; apply in_app_iff;
        apply in_app_iff in Hx, Hy; simpl; tauto.
    + simpl. f_equal. apply (IH (a :: seen)).
      intros x y Hx Hy. apply Hinj; apply in_app_iff;
        apply in_app_iff in Hx, Hy; simpl in *; tauto.
  - intros y Hy. apply Hinj; apply in_app_iff; simpl; tauto.
Qed.

(** Recoding a column by an injective map does not change the order in
    which its values first appear. *)
Lemma series_unique_map (f : Z -> Z) (col : list Z) :
  (forall x y, In x col -> In y col -> f x = f y -> x = y) ->
  series_unique (map f col) = map f (series_unique col).
Proof.
  intros Hinj. apply (drop_duplicates_from_map f [] col). exact Hinj.
Qed.

Lemma series_unique_In (col : list Z) (x : Z) :
  In x (series_unique col) <-> In x col.
Proof.
  pose proof (drop_duplicates_keys (fun x : Z => x) col x) as H.
  rewrite !map_id in H. exact H.
Qed.

Lemma combine_map_self {B} (f : Z -> B) (l : list Z) :
  combine (map f l) l = map (fun x => (f x, x)) l.
Proof. induction l; simpl; congruence. Qed.

Lemma combine_map_map {A B C} (f : A -> B) (g : A -> C) (l : list A) :
  combine (map f l) (map g l) = map (fun x => (f x, g x)) l.
Proof. induction l; simpl; congruence. Qed.

Lemma find_app_first {A} (p : A -> bool) (l1 l2 : list A) :
  find p (l1 ++ l2)
  = match find p l1 with Some x => Some x | None => find p l2 end.
Proof.
  induction l1 as [|a l1 IH]; simpl; [reflexivity|].
  now destruct (p a).
Qed.

Lemma find_map_key {A B} (h : A -> B) (p : B -> bool) (l : list A) :
  find p (map h l) = option_map h (find (fun x => p (h x)) l).
Proof.
  induction l as [|a l IH]; simpl; [reflexivity|].
  now destruct (p (h a)).
Qed.

End SeriesFacts.

Section DictFacts.

Import stdpp.base stdpp.gmap.
Import Cells ItemGroups.

(** A dictionary built pair by pair holds, for a key, the value of the last
    pair with that key. *)
Lemma fold_insert_lookup {V} (pairs : list (Z * V)) (d : gmap Z V) (k : Z) :
  fold_left (fun d p => <[fst p := snd p]> d) pairs d !! k
  = match find (fun p => (fst p =? k)%Z) (rev pairs) with
    | Some p => Some (snd p)
    | None => d !! k
    end.
Proof.
  revert d. induction pairs as [|[k0 v0] pairs IH]; intros d; simpl;
    [reflexivity|].
  rewrite IH, find_app_first.
  destruct (find (fun p => (fst p =? k)%Z) (rev pairs)); [reflexivity|].
  simpl. destruct (k0 =? k)%Z eqn:Hk.
  - apply Z.eqb_eq in Hk. subst k0. apply lookup_insert_eq.
  - apply Z.eqb_neq in Hk. now apply lookup_insert_ne.
Qed.

Lemma dict_of_lookup {A V} (key : A -> Z) (value : A -> V) (rows : list A)
      (k : Z) :
  dict_of (map key rows) (map value rows) !! k
  = option_map value (find (fun r => (key r =? k)%Z) (rev rows)).
Proof.
  unfold dict_of. rewrite fold_insert_lookup, combine_map_map,
    <- map_rev, find_map_key. simpl.
  now destruct (find (fun r => (key r =? k)%Z) (rev rows)).
Qed.

(** With distinct keys, the value of a key is the value of its row. *)
Lemma dict_of_lookup_row {A V} (key : A -> Z) (value : A -> V)
      (rows : list A) (r : A) :
  List.NoDup (map key rows) -> In r rows ->
  dict_of (map key rows) (map value rows) !! key r = Some (value r).
Proof.
  intros Hnd Hr. rewrite dict_of_lookup.
  destruct (find (fun x => (key x =? key r)%Z) (rev rows)) as [r'|] eqn:Hf.
  - apply find_some in Hf. destruct Hf as [Hin Hk].
    apply Z.eqb_eq in Hk. apply in_rev in Hin.
    now rewrite (NoDup_map_injective key rows r' r Hnd Hin Hr Hk).
  - assert (Hrev : In r (rev rows)) by now apply in_rev in Hr.
    pose proof (find_none _ _ Hf r Hrev) as Hne. simpl in Hne.
    rewrite Z.eqb_refl in Hne. discriminate.
Qed.

Lemma dict_of_lookup_absent {A V} (key : A -> Z) (value : A -> V)
      (rows : list A) (k : Z) :
  ~ In k (map key rows) ->
  dict_of (map key rows) (map value rows) !! k = None.
Proof.
  intros Hk. rewrite dict_of_lookup.
  destruct (find (fun x => (key x =? k)%Z) (rev rows)) as [r'|] eqn:Hf;
    [|reflexivity].
  apply find_some in Hf. destruct Hf as [Hin Heq].
  apply Z.eqb_eq in Heq. apply in_rev in Hin.
  exfalso. apply Hk. rewrite <- Heq. now apply in_map.
Qed.

(** The dictionary from the codes of a column, in order of first
    appearance, to its values in order of first appearance, decodes every
    code: the two [unique()] are aligned because coding is injective. *)
Lemma code_dict_decodes (col : list Z) (o : Z) :
  In o col ->
  dict_of (series_unique (map (cat_code (unique col)) col))
          (series_unique col)
  !! cat_code (unique col) o = Some o.
Proof.
  intros Ho. rewrite series_unique_map.
  - rewrite <- (map_id (series_unique col)) at 2.
    apply (dict_of_lookup_row (cat_code (unique col)) (fun x => x)).
    + rewrite <- series_unique_map.
      * rewrite <- (map_id (map _ col)).
        rewrite <- (drop_duplicates_series (fun x : Z => x)).
        apply drop_duplicates_from_keys_NoDup.
      * intros x y Hx Hy. apply cat_code_inj; now apply unique_In.
    + now apply series_unique_In.
  - intros x y Hx Hy. apply cat_code_inj; now apply unique_In.
Qed.

End DictFacts.

(** ** The item groups of the notebooks *)

Section ItemGroupFacts.

Import stdpp.base stdpp.gmap.
Import Cells ItemGroups Provider.

Context {sorter : TimeSort}.

Lemma item_maps_recode (l : list (Interaction * string)) (r : SplitRow) :
  In r (recode l) ->
  item_maps (recode l) !! s_item_id r = Some (s_item_id_original r).
Proof.
  intros Hr. unfold item_maps.
  destruct (recode_id_columns l) as [_ Hcol]. rewrite Hcol.
  destruct (recode_codes l r Hr) as [_ ->].
  apply code_dict_decodes. now apply in_map.
Qed.

Lemma comprehension_ok {A B} (f : A -> Py.result B) (g : A -> B)
      (l : list A) :
  (forall x, In x l -> f x = Py.Ok (g x)) ->
  comprehension f l = Py.Ok (map g l).
Proof.
  induction l as [|x l IH]; intros H; simpl; [reflexivity|].
  rewrite (H x) by now left. simpl.
  rewrite IH by (intros y Hy; apply H; now right). reflexivity.
Qed.

Lemma item_group_entry_original (assoc : list GenderRow) (im : gmap Z Z)
      (i o : Z) :
  im !! i = Some o ->
  item_group_entry (gender_maps assoc) im i
  = Py.Ok (group_by_original assoc o).
Proof.
  intros Hi. unfold item_group_entry, gender_maps, group_by_original.
  rewrite Hi, dict_of_lookup.
  now destruct (find (fun a => (g_item_id a =? o)%Z) (rev assoc)).
Qed.

(** X11: on a frame of [user_timestamp], [item_maps] takes the dense id of
    every row to the original id of that row, although it zips the
    [unique()] of two different columns. *)
Theorem item_maps_decodes (interactions : list Interaction) (split : float)
        (min_samples : Z) (traintest : list SplitRow) :
  user_timestamp interactions split min_samples = Py.Ok traintest ->
  forall r, In r traintest ->
    item_maps traintest !! s_item_id r = Some (s_item_id_original r).
Proof.
  intros Hrun r Hr.
  destruct (user_timestamp_recoded _ _ _ _ Hrun) as (X & Y & -> & _).
  now apply item_maps_recode.
Qed.

(** X12: on a frame of [user_timestamp], the comprehension of [item_group]
    raises no [KeyError] for any association table; it has one entry per
    item, and the entry at the dense id of a row is 1 exactly when the last
    row of the association table for the original id of the item has
    [gender_1 == 0], and 0 when there is no such row. *)
Theorem item_group_by_original (assoc : list GenderRow)
        (interactions : list Interaction) (split : float) (min_samples : Z)
        (traintest : list SplitRow) :
  user_timestamp interactions split min_samples = Py.Ok traintest ->
  exists groups,
    item_group assoc traintest = Py.Ok groups /\
    length groups = length (items traintest) /\
    forall r, In r traintest ->
      nth_error groups (Z.to_nat (s_item_id r))
      = Some (group_by_original assoc (s_item_id_original r)).
Proof.
  intros Hrun.
  destruct (user_timestamp_recoded _ _ _ _ Hrun) as (X & Y & -> & _).
  set (l := map (with_set "train") X ++ map (with_set "test") Y).
  set (g := fun i => match item_maps (recode l) !! i with
                     | Some o => group_by_original assoc o
                     | None => 0%Z
                     end).
  assert (Hitems : items (recode l)
                   = range (length (unique (map s_item_id_original
                                                (recode l))))).
  { unfold items. destruct (recode_id_columns l) as [_ ->].
    apply unique_cat_codes. }
  assert (Hlen : length (items (recode l))
                 = length (unique (map s_item_id_original (recode l)))).
  { rewrite Hitems. unfold range. now rewrite length_map, length_seq. }
  exists (map g (range (length (items (recode l))))).
  split; [|split].
  - unfold item_group. apply comprehension_ok. intros i Hi.
    rewrite Hlen, <- Hitems in Hi. unfold items in Hi.
    apply (proj1 (unique_In _ _)) in Hi.
    apply in_map_iff in Hi. destruct Hi as (r & <- & Hr).
    unfold g. rewrite (item_maps_recode l r Hr).
    apply item_group_entry_original. now apply item_maps_recode.
  - rewrite length_map. unfold range. now rewrite length_map, length_seq.
  - intros r Hr.
    assert (Hin : In (s_item_id r) (range (length (items (recode l))))).
    { rewrite Hlen, <- Hitems. unfold items.
      apply (proj2 (unique_In _ _)). now apply in_map. }
    apply range_In in Hin.
    rewrite (map_nth_error g _ _ (range_nth _ _ Hin)).
    unfold g. now rewrite (item_maps_recode l r Hr).
Qed.

End ItemGroupFacts.

Section GroupDictFacts.

Import stdpp.base stdpp.gmap.
Import Cells ItemGroups Upsampling.

Lemma zero_is_not_one : 0%float <> 1%float.
Proof.
  intros H. apply (f_equal (fun x => (x =? 0)%float)) in H.
  vm_compute in H. discriminate.
Qed.

Lemma group_of_share_zero (v : float) :
  group_of_share v = 0%float <-> (0 <? v)%float = true.
Proof.
  unfold group_of_share. destruct (0 <? v)%float; split; intros H;
    try reflexivity; try discriminate;
    symmetry in H; now apply zero_is_not_one in H.
Qed.

Lemma item_group_dict_first (traintest : list TrainRow) (i : Z) :
  item_group_dict traintest !! i
  = option_map (fun r => group_of_share (t_minority r))
               (find (fun r => (t_item_id r =? i)%Z)
                     (rev (drop_duplicates t_item_id traintest))).
Proof. unfold item_group_dict. apply dict_of_lookup. Qed.

Lemma item_group_dict_row (traintest : list TrainRow) (i : Z) :
  In i (map t_item_id traintest) ->
  exists r, In r traintest /\ t_item_id r = i /\
            item_group_dict traintest !! i
            = Some (group_of_share (t_minority r)).
Proof.
  intros Hi. apply (drop_duplicates_keys t_item_id) in Hi.
  apply in_map_iff in Hi. destruct Hi as (r & <- & Hr).
  exists r. split; [|split; [reflexivity|]].
  - apply drop_duplicates_from_In in Hr. tauto.
  - unfold item_group_dict.
    apply (dict_of_lookup_row t_item_id
             (fun r => group_of_share (t_minority r))); [|assumption].
    apply drop_duplicates_from_keys_NoDup.
Qed.

(** X13: the dictionary [item_group] of the provider-fairness notebook has
    exactly the items of the frame as keys, on any frame.  When the minority
    share is a property of the item (as it is after the merge on [item_id]),
    the items of [items_w_min] are exactly those of group [0.0], the items of
    [items_w_maj] are all of group [1.0], and no item is in both arrays. *)
Theorem item_group_dict_agrees (traintest : list TrainRow) :
  (forall i, In i (map t_item_id traintest)
             <-> exists g, item_group_dict traintest !! i = Some g) /\
  ((forall r r', In r traintest -> In r' traintest ->
      t_item_id r = t_item_id r' -> t_minority r = t_minority r') ->
   (forall i, In i (items_w_min traintest)
              <-> item_group_dict traintest !! i = Some 0%float) /\
   (forall i, In i (items_w_maj traintest)
              -> item_group_dict traintest !! i = Some 1%float) /\
   (forall i, In i (items_w_min traintest)
              -> ~ In i (items_w_maj traintest))).
Proof.
  assert (Hkeys : forall i g, item_group_dict traintest !! i = Some g ->
                              In i (map t_item_id traintest)).
  { intros i g Hg. apply (drop_duplicates_keys t_item_id).
    destruct (in_dec Z.eq_dec i
                (map t_item_id (drop_duplicates t_item_id traintest)))
      as [H|H]; [exact H|].
    unfold item_group_dict in Hg.
    rewrite (dict_of_lookup_absent t_item_id
               (fun r => group_of_share (t_minority r)) _ i H) in Hg.
    discriminate. }
  split.
  { intros i. split.
    - intros Hi. destruct (item_group_dict_row traintest i Hi)
        as (r & _ & _ & Hg). eauto.
    - intros [g Hg]. exact (Hkeys i g Hg). }
  intros Hfun.
  assert (Hmin : forall i, In i (items_w_min traintest)
                 <-> item_group_dict traintest !! i = Some 0%float).
  { intros i. unfold items_w_min. rewrite unique_In, in_map_iff. split.
    - intros (r & <- & Hr). apply filter_In in Hr. destruct Hr as [Hr Hpos].
      destruct (item_group_dict_row traintest (t_item_id r))
        as (r' & Hr' & Hid & ->); [now apply in_map|].
      rewrite (Hfun r' r Hr' Hr Hid).
      f_equal. now apply group_of_share_zero.
    - intros Hi.
      destruct (item_group_dict_row traintest i (Hkeys i _ Hi))
        as (r & Hr & Hid & Hg).
      rewrite Hg in Hi. exists r. split; [assumption|].
      apply filter_In. split; [assumption|].
      apply group_of_share_zero. congruence. }
  assert (Hmaj : forall i, In i (items_w_maj traintest)
                 -> item_group_dict traintest !! i = Some 1%float).
  { intros i. unfold items_w_maj. rewrite unique_In, in_map_iff.
    intros (r & <- & Hr). apply filter_In in Hr. destruct Hr as [Hr Hzero].
    destruct (item_group_dict_row traintest (t_item_id r))
      as (r' & Hr' & Hid & ->); [now apply in_map|].
    rewrite (Hfun r' r Hr' Hr Hid). f_equal. unfold group_of_share.
    destruct (0 <? t_minority r)%float eqn:Hpos; [|reflexivity].
    apply positive_not_zero in Hpos. congruence. }
  split; [exact Hmin|split; [exact Hmaj|]].
  intros i Hi Hi'. apply Hmin in Hi. apply Hmaj in Hi'.
  rewrite Hi in Hi'.
  apply (f_equal (fun o => match o with
                           | Some x => x
                           | None => 0%float
                           end)) in Hi'.
  now apply zero_is_not_one.
Qed.

End GroupDictFacts.

(** ** The coverage of the provider groups *)

Section CoverageFacts.

Import Cells ItemGroups Upsampling Coverage.

Lemma items_w_min_In (traintest : list TrainRow) (i : Z) :
  In i (items_w_min traintest)
  <-> exists r, In r traintest /\ t_item_id r = i /\
                (0 <? t_minority r)%float = true.
Proof.
  unfold items_w_min. rewrite unique_In, in_map_iff. split.
  - intros (r & Hid & Hr). apply filter_In in Hr. exists r. tauto.
  - intros (r & Hr & Hid & Hpos). exists r. split; [assumption|].
    apply filter_In. tauto.
Qed.

Lemma items_w_maj_In (traintest : list TrainRow) (i : Z) :
  In i (items_w_maj traintest)
  <-> exists r, In r traintest /\ t_item_id r = i /\
                (t_minority r =? 0)%float = true.
Proof.
  unfold items_w_maj. rewrite unique_In, in_map_iff. split.
  - intros (r & Hid & Hr). apply filter_In in Hr. exists r. tauto.
  - intros (r & Hr & Hid & Hpos). exists r. split; [assumption|].
    apply filter_In. tauto.
Qed.

Lemma unique_nil (col : list Z) : unique col = [] <-> col = [].
Proof.
  split; [|now intros ->].
  destruct col as [|x col]; [reflexivity|]. intros H.
  assert (Hx : In x (unique (x :: col))) by (apply unique_In; now left).
  rewrite H in Hx. destruct Hx.
Qed.

Lemma items_w_min_nonempty (traintest : list TrainRow) :
  items_w_min traintest <> []
  <-> exists r, In r traintest /\ (0 <? t_minority r)%float = true.
Proof.
  split.
  - intros H. destruct (items_w_min traintest) as [|i l] eqn:Hl;
      [contradiction|].
    assert (Hi : In i (items_w_min traintest)) by (rewrite Hl; now left).
    apply items_w_min_In in Hi. destruct Hi as (r & Hr & _ & Hpos). eauto.
  - intros (r & Hr & Hpos) Hnil.
    assert (Hi : In (t_item_id r) (items_w_min traintest))
      by (apply items_w_min_In; eauto).
    rewrite Hnil in Hi. destruct Hi.
Qed.

Lemma items_w_maj_nonempty (traintest : list TrainRow) :
  items_w_maj traintest <> []
  <-> exists r, In r traintest /\ (t_minority r =? 0)%float = true.
Proof.
  split.
  - intros H. destruct (items_w_maj traintest) as [|i l] eqn:Hl;
      [contradiction|].
    assert (Hi : In i (items_w_maj traintest)) by (rewrite Hl; now left).
    apply items_w_maj_In in Hi. destruct Hi as (r & Hr & _ & Hpos). eauto.
  - intros (r & Hr & Hpos) Hnil.
    assert (Hi : In (t_item_id r) (items_w_maj traintest))
      by (apply items_w_maj_In; eauto).
    rewrite Hnil in Hi. destruct Hi.
Qed.

Lemma item_at_ok (row : list float) (i : Z) :
  (exists m, item_at row i = inl m) <-> valid_index row i.
Proof.
  unfold item_at, valid_index.
  set (n := Z.of_nat (length row)).
  set (j := if i <? 0 then i + n else i).
  assert (Hj : 0 <= j < n <-> - n <= i < n).
  { unfold j. destruct (i <? 0) eqn:Hi;
      [apply Z.ltb_lt in Hi | apply Z.ltb_ge in Hi]; lia. }
  destruct ((0 <=? j) && (j <? n)) eqn:Hin.
  - apply andb_true_iff in Hin. destruct Hin as [H0 Hn].
    apply Z.leb_le in H0. apply Z.ltb_lt in Hn.
    destruct (nth_error row (Z.to_nat j)) as [m|] eqn:Hnth.
    + split; [intros _; apply Hj; lia | eauto].
    + apply nth_error_None in Hnth. unfold n in Hn. lia.
  - split; [intros [m Hm]; discriminate|]. intros Hv. apply Hj in Hv.
    apply andb_false_iff in Hin.
    destruct Hin as [H|H]; [apply Z.leb_gt in H | apply Z.ltb_ge in H]; lia.
Qed.

Lemma fancy_ok (row : list float) (ids : list Z) :
  (exists ms, fancy row ids = inl ms)
  <-> forall i, In i ids -> valid_index row i.
Proof.
  induction ids as [|i ids IH]; simpl.
  - split; [intros _ i []| eauto].
  - split.
    + intros [ms Hms].
      destruct (item_at row i) as [m|e] eqn:Hm; [|discriminate].
      simpl in Hms.
      destruct (fancy row ids) as [ms'|e] eqn:Hms'; [|discriminate].
      intros x [<-|Hx].
      * apply item_at_ok. eauto.
      * apply (proj1 IH); eauto.
    + intros H.
      destruct (proj2 (item_at_ok row i) (H i (or_introl eq_refl)))
        as [m ->].
      destruct (proj2 IH (fun x Hx => H x (or_intror Hx))) as [ms ->].
      simpl. eauto.
Qed.

Lemma true_div_ok (a b : nat) :
  (exists q, true_div a b = inl q) <-> b <> 0%nat.
Proof.
  unfold true_div. destruct (Nat.eqb b 0) eqn:Hb.
  - apply Nat.eqb_eq in Hb. split; [intros [q Hq]; discriminate | tauto].
  - apply Nat.eqb_neq in Hb. split; eauto.
Qed.

Lemma coverage_row_ok (row : list float) (items items_g1 items_g2 : list Z) :
  (exists out, coverage_row row items items_g1 items_g2 = inl out)
  <-> items <> [] /\ items_g1 <> [] /\ items_g2 <> [] /\
      forall i, In i items_g1 \/ In i items_g2 -> valid_index row i.
Proof.
  assert (Hlen : forall l : list Z, l <> [] <-> length l <> 0%nat).
  { intros [|x l]; simpl; split; congruence. }
  unfold coverage_row. split.
  - intros [out Hout].
    destruct (true_div (covered row) (length items)) as [c|e] eqn:Hc;
      [|discriminate].
    simpl in Hout.
    destruct (fancy row items_g1) as [r1|e] eqn:H1; [|discriminate].
    simpl in Hout.
    destruct (true_div (covered r1) (length items)); [|discriminate].
    simpl in Hout.
    destruct (fancy row items_g2) as [r2|e] eqn:H2; [|discriminate].
    simpl in Hout.
    destruct (true_div (covered r2) (length items)); [|discriminate].
    simpl in Hout.
    destruct (true_div (covered r1) (length items_g1)) as [q1|e] eqn:Hq1;
      [|discriminate].
    simpl in Hout.
    destruct (true_div (covered r2) (length items_g2)) as [q2|e] eqn:Hq2;
      [|discriminate].
    split; [|split; [|split]].
    + apply Hlen, (true_div_ok (covered row)). eauto.
    + apply Hlen, (true_div_ok (covered r1)). eauto.
    + apply Hlen, (true_div_ok (covered r2)). eauto.
    + intros x [Hx|Hx]; [apply (proj1 (fancy_ok row items_g1)) |
                         apply (proj1 (fancy_ok row items_g2))]; eauto.
  - intros (Hi & Hg1 & Hg2 & Hv).
    destruct (proj2 (fancy_ok row items_g1) (fun i H => Hv i (or_introl H)))
      as [r1 H1].
    destruct (proj2 (fancy_ok row items_g2) (fun i H => Hv i (or_intror H)))
      as [r2 H2].
    apply Hlen in Hi, Hg1, Hg2.
    destruct (proj2 (true_div_ok (covered row) _) Hi) as [c Hc].
    destruct (proj2 (true_div_ok (covered r1) _) Hi) as [c1 Hc1].
    destruct (proj2 (true_div_ok (covered r2) _) Hi) as [c2 Hc2].
    destruct (proj2 (true_div_ok (covered r1) _) Hg1) as [q1 Hq1].
    destruct (proj2 (true_div_ok (covered r2) _) Hg2) as [q2 Hq2].
    rewrite Hc. cbn [bind]. rewrite H1. cbn [bind]. rewrite Hc1. cbn [bind].
    rewrite H2. cbn [bind]. rewrite Hc2. cbn [bind].
    rewrite Hq1. cbn [bind]. rewrite Hq2. cbn [bind]. eauto.
Qed.

Lemma item_at_raises (row : list float) (i : Z) (e : exn) :
  item_at row i = inr e -> e = IndexError.
Proof.
  unfold item_at.
  destruct ((0 <=? _) && (_ <? _));
    [destruct (nth_error row _)|]; congruence.
Qed.

Lemma fancy_raises (row : list float) (ids : list Z) (e : exn) :
  fancy row ids = inr e -> e = IndexError.
Proof.
  induction ids as [|i ids IH]; simpl; [discriminate|].
  destruct (item_at row i) as [m|e'] eqn:Hm; simpl.
  - destruct (fancy row ids) as [ms|e'']; simpl; [discriminate|].
    intros H. apply IH. congruence.
  - intros H. apply (item_at_raises row i). congruence.
Qed.

Lemma valid_index_dec (row : list float) (i : Z) :
  {valid_index row i} + {~ valid_index row i}.
Proof.
  unfold valid_index.
  destruct (Z_le_dec (- Z.of_nat (length row)) i);
    destruct (Z_lt_dec i (Z.of_nat (length row))); (left; lia) || (right; lia).
Qed.

Lemma fancy_invalid (row : list float) (ids : list Z) :
  (exists i, In i ids /\ ~ valid_index row i)
  <-> fancy row ids = inr IndexError.
Proof.
  split.
  - intros (i & Hi & Hbad).
    destruct (fancy row ids) as [ms|e] eqn:Hms.
    + exfalso. apply Hbad. apply (proj1 (fancy_ok row ids)); eauto.
    + now rewrite (fancy_raises row ids e Hms).
  - intros Hraise.
    destruct (Forall_Exists_dec (valid_index row) (valid_index_dec row) ids)
      as [Hall|Hsome].
    + rewrite Forall_forall in Hall.
      destruct (proj2 (fancy_ok row ids) Hall) as [ms Hms]. congruence.
    + apply Exists_exists in Hsome. exact Hsome.
Qed.

Lemma true_div_zero (a : nat) : true_div a 0 = inr ZeroDivisionError.
Proof. reflexivity. Qed.

(** The outcome of the loop body, case by case, in the order in which the
    cell evaluates its lines. *)
Lemma coverage_row_raises (row : list float)
      (items items_g1 items_g2 : list Z) :
  (items = [] ->
   coverage_row row items items_g1 items_g2 = inr ZeroDivisionError) /\
  (items <> [] ->
   (exists i, (In i items_g1 \/ In i items_g2) /\ ~ valid_index row i) ->
   coverage_row row items items_g1 items_g2 = inr IndexError) /\
  (items <> [] ->
   (forall i, In i items_g1 \/ In i items_g2 -> valid_index row i) ->
   items_g1 = [] \/ items_g2 = [] ->
   coverage_row row items items_g1 items_g2 = inr ZeroDivisionError).
Proof.
  assert (Hlen : forall l : list Z, l <> [] -> length l <> 0%nat).
  { intros [|x l]; simpl; congruence. }
  unfold coverage_row. split; [|split].
  - intros ->. reflexivity.
  - intros Hi (i & Hin & Hbad). apply Hlen in Hi.
    destruct (proj2 (true_div_ok (covered row) _) Hi) as [c Hc].
    rewrite Hc. cbn [bind].
    destruct (fancy row items_g1) as [r1|e] eqn:H1; cbn [bind].
    + destruct (proj2 (true_div_ok (covered r1) _) Hi) as [c1 Hc1].
      rewrite Hc1. cbn [bind].
      assert (H2 : fancy row items_g2 = inr IndexError).
      { apply fancy_invalid. exists i. split; [|assumption].
        destruct Hin as [Hin|Hin]; [|assumption].
        exfalso. apply Hbad. apply (proj1 (fancy_ok row items_g1)); eauto. }
      rewrite H2. reflexivity.
    + now rewrite (fancy_raises row items_g1 e H1).
  - intros Hi Hv Hempty. apply Hlen in Hi.
    destruct (proj2 (fancy_ok row items_g1) (fun i H => Hv i (or_introl H)))
      as [r1 H1].
    destruct (proj2 (fancy_ok row items_g2) (fun i H => Hv i (or_intror H)))
      as [r2 H2].
    destruct (proj2 (true_div_ok (covered row) _) Hi) as [c Hc].
    destruct (proj2 (true_div_ok (covered r1) _) Hi) as [c1 Hc1].
    destruct (proj2 (true_div_ok (covered r2) _) Hi) as [c2 Hc2].
    rewrite Hc. cbn [bind]. rewrite H1. cbn [bind]. rewrite Hc1. cbn [bind].
    rewrite H2. cbn [bind]. rewrite Hc2. cbn [bind].
    destruct items_g1 as [|i1 g1].
    + reflexivity.
    + destruct (proj2 (true_div_ok (covered r1) (length (i1 :: g1))))
        as [q1 Hq1]; [simpl; congruence|].
      rewrite Hq1. cbn [bind].
      destruct Hempty as [Hempty|Hempty]; [discriminate|].
      subst items_g2. reflexivity.
Qed.

(** X14: the coverage cell computes its row for a model exactly when there
    is an item, a row of the frame with a positive minority share, a row
    with a zero minority share, and the item id of every such row is an index
    of the coverage array.  Otherwise it raises: [ZeroDivisionError] when
    there is no item, or when the ids are indices but one of the two groups
    is empty; [IndexError] when there is an item and the id of a row of
    one of the groups is no index of the array. *)
Theorem coverage_needs_both_groups (traintest : list TrainRow)
        (items : list Z) (row : list float) :
  let in_group r :=
    (0 <? t_minority r)%float = true \/ (t_minority r =? 0)%float = true in
  let indexed r :=
    - Z.of_nat (length row) <= t_item_id r < Z.of_nat (length row) in
  let some_minority :=
    exists r, In r traintest /\ (0 <? t_minority r)%float = true in
  let some_majority :=
    exists r, In r traintest /\ (t_minority r =? 0)%float = true in
  let all_indexed :=
    forall r, In r traintest -> in_group r -> indexed r in
  ((exists out, coverage_results_row traintest items row = inl out)
   <-> items <> [] /\ some_minority /\ some_majority /\ all_indexed) /\
  (coverage_results_row traintest items row = inr ZeroDivisionError
   <-> items = [] \/
       (all_indexed /\ (~ some_minority \/ ~ some_majority))) /\
  (coverage_results_row traintest items row = inr IndexError
   <-> items <> [] /\
       exists r, In r traintest /\ in_group r /\ ~ indexed r).
Proof.
  cbv zeta. unfold coverage_results_row.
  set (g1 := items_w_min traintest). set (g2 := items_w_maj traintest).
  set (run := coverage_row row items g1 g2).
  destruct (coverage_row_raises row items g1 g2) as (Hnone & Hindex & Hzero).
  pose proof (coverage_row_ok row items g1 g2) as Hok.
  fold run in Hnone, Hindex, Hzero, Hok.
  (* the conditions on the two id arrays, read on the frame *)
  assert (Hvalid :
            (forall i, In i g1 \/ In i g2 -> valid_index row i)
            <-> (forall r, In r traintest ->
                   (0 <? t_minority r)%float = true \/
                   (t_minority r =? 0)%float = true ->
                   - Z.of_nat (length row) <= t_item_id r
                     < Z.of_nat (length row))).
  { split.
    - intros Hv r Hr [Hpos|Hz]; apply Hv;
        [left; apply items_w_min_In | right; apply items_w_maj_In]; eauto.
    - intros Hv i [H|H];
        [apply items_w_min_In in H | apply items_w_maj_In in H];
        destruct H as (r & Hr & <- & Hc); apply Hv; tauto. }
  assert (Hbad :
            (exists i, (In i g1 \/ In i g2) /\ ~ valid_index row i)
            <-> (exists r, In r traintest /\
                   ((0 <? t_minority r)%float = true \/
                    (t_minority r =? 0)%float = true) /\
                   ~ (- Z.of_nat (length row) <= t_item_id r
                      < Z.of_nat (length row)))).
  { split.
    - intros (i & [H|H] & Hb);
        [apply items_w_min_In in H | apply items_w_maj_In in H];
        destruct H as (r & Hr & <- & Hc); exists r;
        unfold valid_index in Hb; tauto.
    - intros (r & Hr & [Hc|Hc] & Hb); exists (t_item_id r);
        (split; [|exact Hb]);
        [left; apply items_w_min_In | right; apply items_w_maj_In]; eauto. }
  assert (H1 : g1 = [] <-> ~ (exists r, In r traintest /\
                                (0 <? t_minority r)%float = true)).
  { rewrite <- items_w_min_nonempty. fold g1.
    destruct g1; split; intros H; try congruence; try tauto.
    exfalso. apply H. discriminate. }
  assert (H2 : g2 = [] <-> ~ (exists r, In r traintest /\
                                (t_minority r =? 0)%float = true)).
  { rewrite <- items_w_maj_nonempty. fold g2.
    destruct g2; split; intros H; try congruence; try tauto.
    exfalso. apply H. discriminate. }
  (* every frame is in one of the three cases *)
  assert (Hcases :
            items = [] \/
            (items <> [] /\
             exists i, (In i g1 \/ In i g2) /\ ~ valid_index row i) \/
            (items <> [] /\
             (forall i, In i g1 \/ In i g2 -> valid_index row i) /\
             (g1 = [] \/ g2 = [])) \/
            (items <> [] /\ g1 <> [] /\ g2 <> [] /\
             forall i, In i g1 \/ In i g2 -> valid_index row i)).
  { destruct items as [|x items']; [now left|]. right.
    assert (Hne : x :: items' <> []) by discriminate.
    destruct (Forall_Exists_dec (valid_index row) (valid_index_dec row)
                                (g1 ++ g2)) as [Hall|Hsome].
    - right. rewrite Forall_forall in Hall.
      assert (Hv : forall i, In i g1 \/ In i g2 -> valid_index row i)
        by (intros i Hi; apply Hall, in_or_app; exact Hi).
      destruct g1 as [|a g1']; [left; tauto|].
      destruct g2 as [|b g2']; [left; tauto|].
      right. split; [assumption|].
      split; [discriminate|]. split; [discriminate|assumption].
    - left. split; [assumption|]. apply Exists_exists in Hsome.
      destruct Hsome as (i & Hi & Hb). exists i. split; [|assumption].
      now apply in_app_or. }
  split; [|split].
  - rewrite Hok, Hvalid. unfold g1, g2.
    rewrite items_w_min_nonempty, items_w_maj_nonempty. reflexivity.
  - split.
    + intros Hrun.
      destruct Hcases as [H|[(Hi & Hb)|[(Hi & Hv & He)|Hgood]]].
      * now left.
      * rewrite (Hindex Hi Hb) in Hrun. discriminate.
      * right. split; [now apply Hvalid|].
        destruct He as [He|He]; [left; now apply H1|right; now apply H2].
      * destruct (proj2 Hok Hgood) as [out Hout]. congruence.
    + intros [H|[Hv [Hn|Hn]]].
      * now apply Hnone.
      * destruct items as [|x items'] eqn:Hitems; [now apply Hnone|].
        apply Hzero; [discriminate|now apply Hvalid|left; now apply H1].
      * destruct items as [|x items'] eqn:Hitems; [now apply Hnone|].
        apply Hzero; [discriminate|now apply Hvalid|right; now apply H2].
  - split.
    + intros Hrun.
      destruct Hcases as [H|[(Hi & Hb)|[(Hi & Hv & He)|Hgood]]].
      * rewrite (Hnone H) in Hrun. discriminate.
      * split; [assumption|now apply Hbad].
      * rewrite (Hzero Hi Hv He) in Hrun. discriminate.
      * destruct (proj2 Hok Hgood) as [out Hout]. congruence.
    + intros (Hi & Hb). apply Hindex; [assumption|now apply Hbad].
Qed.

Lemma positions_covered (row : list float) :
  length (filter (positive_at row) (seq 0 (length row))) = covered row.
Proof.
  unfold covered. induction row as [|m row IH]; [reflexivity|].
  cbn [length seq filter]. rewrite <- seq_shift, filter_map_comm.
  change (positive_at (m :: row) 0) with (0 <? m)%float.
  rewrite (filter_ext (fun x => positive_at (m :: row) (S x))
                      (positive_at row)) by reflexivity.
  destruct (0 <? m)%float; cbn [length]; now rewrite length_map, IH.
Qed.

Lemma fancy_covered (row : list float) (ids : list Z) (ms : list float) :
  (forall i, In i ids -> 0 <= i) ->
  fancy row ids = inl ms ->
  covered ms
  = length (filter (positive_at row) (map Z.to_nat ids)).
Proof.
  revert ms. induction ids as [|i ids IH]; intros ms Hpos; simpl.
  - intros H. injection H as <-. reflexivity.
  - destruct (item_at row i) as [m|e] eqn:Hm; [|discriminate]. simpl.
    destruct (fancy row ids) as [ms'|e] eqn:Hms; [|discriminate]. simpl.
    intros H. injection H as <-.
    specialize (IH ms' (fun x Hx => Hpos x (or_intror Hx)) eq_refl).
    assert (Hi : positive_at row (Z.to_nat i) = (0 <? m)%float).
    { unfold item_at in Hm.
      assert (H0 : (i <? 0) = false)
        by (apply Z.ltb_ge, Hpos; now left).
      rewrite H0 in Hm. unfold positive_at.
      destruct ((0 <=? i) && (i <? Z.of_nat (length row)));
        [|discriminate].
      destruct (nth_error row (Z.to_nat i)); [|discriminate].
      injection Hm as ->. reflexivity. }
    unfold covered in *. cbn [filter]. rewrite Hi.
    destruct (0 <? m)%float; cbn [length]; now rewrite IH.
Qed.

Lemma fancy_app (row : list float) (ids1 ids2 : list Z)
      (ms1 ms2 : list float) :
  fancy row ids1 = inl ms1 -> fancy row ids2 = inl ms2 ->
  fancy row (ids1 ++ ids2) = inl (ms1 ++ ms2).
Proof.
  revert ms1. induction ids1 as [|i ids1 IH]; intros ms1; simpl.
  - intros H. injection H as <-. tauto.
  - destruct (item_at row i) as [m|e]; [|discriminate]. simpl.
    destruct (fancy row ids1) as [ms'|e]; [|discriminate]. simpl.
    intros H H2. injection H as <-.
    now rewrite (IH ms' eq_refl H2).
Qed.

Lemma covered_app (l1 l2 : list float) :
  covered (l1 ++ l2) = (covered l1 + covered l2)%nat.
Proof. unfold covered. now rewrite filter_app, length_app. Qed.

(** Distinct non-negative ids select at most the covered entries. *)
Lemma fancy_covered_le (row : list float) (ids : list Z) (ms : list float) :
  NoDup ids -> (forall i, In i ids -> 0 <= i) ->
  fancy row ids = inl ms ->
  (covered ms <= covered row)%nat.
Proof.
  intros Hnd Hpos Hms.
  rewrite (fancy_covered row ids ms Hpos Hms), <- positions_covered.
  apply NoDup_incl_length.
  - apply NoDup_filter. clear Hms.
    induction Hnd as [|i ids Hi Hnd IH]; simpl; constructor.
    + intros Hin. apply in_map_iff in Hin. destruct Hin as (x & Hx & Hin).
      assert (x = i).
      { pose proof (Hpos x (or_intror Hin)).
        pose proof (Hpos i (or_introl eq_refl)). lia. }
      subst x. contradiction.
    + apply IH. intros x Hx. apply Hpos. now right.
  - intros j Hj. apply filter_In in Hj. destruct Hj as [_ Hj].
    apply filter_In. split; [|assumption].
    apply in_seq. unfold positive_at in Hj.
    destruct (nth_error row j) eqn:Hnth; [|discriminate].
    assert (j < length row)%nat
      by (apply nth_error_Some; congruence).
    lia.
Qed.

(** X15: when the minority share is a property of the item and the item ids
    are not negative, the covered items of the two groups are counted among
    the covered items of the catalog: the numerators of [G1 Over Cov] and
    [G2 Over Cov] add up to at most the numerator of [Cov]. *)
Theorem group_coverage_within_total (traintest : list TrainRow)
        (row r1 r2 : list float) :
  (forall r r', In r traintest -> In r' traintest ->
     t_item_id r = t_item_id r' -> t_minority r = t_minority r') ->
  (forall r, In r traintest -> 0 <= t_item_id r) ->
  fancy row (items_w_min traintest) = inl r1 ->
  fancy row (items_w_maj traintest) = inl r2 ->
  (covered r1 + covered r2 <= covered row)%nat.
Proof.
  intros Hfun Hpos H1 H2. rewrite <- covered_app.
  apply (fancy_covered_le row (items_w_min traintest
                               ++ items_w_maj traintest)).
  - apply NoDup_app; [apply unique_NoDup | apply unique_NoDup |].
    intros i Hmin Hmaj.
    apply items_w_min_In in Hmin. destruct Hmin as (r & Hr & Hid & Hp).
    apply items_w_maj_In in Hmaj. destruct Hmaj as (r' & Hr' & Hid' & Hz).
    rewrite (Hfun r r' Hr Hr') in Hp by congruence.
    apply positive_not_zero in Hp. congruence.
  - intros i Hi. apply in_app_or in Hi.
    destruct Hi as [Hi|Hi];
      [apply items_w_min_In in Hi | apply items_w_maj_In in Hi];
      destruct Hi as (r & Hr & <- & _); now apply Hpos.
  - now apply fancy_app.
Qed.

End CoverageFacts.

(** ** The properties of the cells on the sample data *)

Section CellRuns.

Import Cells Provider ItemGroups Upsampling Coverage.

Ltac by_rows :=
  repeat match goal with
         | H : _ \/ _ |- _ => destruct H as [<-|H]
         | H : False |- _ => destruct H
         end;
  simpl in *; try reflexivity; try discriminate; try lia.

Ltac split_frame :=
  match goal with
  | |- exists tt, ?run = Ok tt /\ _ =>
      let v := eval vm_compute in run in
      match v with
      | Ok ?tt =>
          exists tt;
          assert (Hrun : run = Ok tt) by (vm_compute; reflexivity);
          split; [exact Hrun|]
      end
  end.

Lemma train_test_cut_the_frame_witness :
  exists traintest,
    user_timestamp Sample.interactions Sample.train_ratio 10 = Ok traintest /\
    select_set "train" traintest ++ select_set "test" traintest = traintest /\
    length (select_set "test" traintest) = 3%nat.
Proof.
  split_frame. split; [|vm_compute; reflexivity].
  match goal with
  | |- _ ++ select_set _ ?tt = _ =>
      apply (train_test_cut_the_frame
               Sample.interactions Sample.train_ratio 10 tt Hrun)
  end.
Defined.

Lemma users_and_items_are_ranges_witness :
  exists traintest,
    user_timestamp Sample.interactions Sample.train_ratio 10 = Ok traintest /\
    users traintest = range 2 /\ items traintest = range 12.
Proof.
  split_frame.
  match goal with
  | |- users ?tt = _ /\ _ =>
      exact (users_and_items_are_ranges
               Sample.interactions Sample.train_ratio 10 tt Hrun)
  end.
Defined.

Lemma split_of_implicit_feedback_witness :
  exists traintest,
    user_timestamp (implicit_feedback Cases.one_user) Sample.train_ratio 10
    = Ok traintest /\
    map rating Cases.one_user = [4; 5; 3; 1; 2; 5; 4; 3; 4; 5]%float /\
    forall r, In r traintest -> s_rating r = 1%float.
Proof.
  split_frame. split; [reflexivity|].
  match goal with
  | |- forall r, In r ?tt -> _ =>
      exact (split_of_implicit_feedback
               Cases.one_user Sample.train_ratio 10 tt Hrun)
  end.
Defined.

Lemma cutoff_index_position_witness :
  NoDup Cases.cutoffs /\ In 10 Cases.cutoffs /\
  (exists i, cutoff_index Cases.cutoffs 10 = inl i) /\
  ~ In 30 Cases.cutoffs /\
  cutoff_index Cases.cutoffs 30 = inr TypeError.
Proof.
  assert (Hnd : NoDup Cases.cutoffs).
  { repeat constructor; simpl; intros H; by_rows. }
  assert (Hin : In 10 Cases.cutoffs) by (right; left; reflexivity).
  assert (Hout : ~ In 30 Cases.cutoffs) by (simpl; intros H; by_rows).
  split; [exact Hnd|]. split; [exact Hin|]. split.
  - exact (proj2 (proj2 (proj2 (cutoff_index_position Cases.cutoffs 10)))
                 Hnd Hin).
  - split; [exact Hout|].
    exact (proj1 (proj2 (cutoff_index_position Cases.cutoffs 30)) Hout).
Defined.

Lemma head_and_tail_share_the_items_witness :
  0 <= 3 /\
  length (head_tail_items 3 Cases.item_column) = 3%nat /\
  length (long_tail_items 3 Cases.item_column) = 9%nat.
Proof.
  split; [lia|]. split; [|vm_compute; reflexivity].
  pose proof (head_and_tail_share_the_items 3 Cases.item_column) as H.
  cbv zeta in H. destruct H as (_ & _ & _ & Hlen).
  rewrite Hlen by lia. vm_compute. reflexivity.
Defined.

Lemma most_popular_has_most_rows_witness :
  Cases.item_column <> [] /\
  exists i, most_popular Cases.item_column = inl i /\
            In i Cases.item_column /\
            (count_rows Cases.item_column 50
             <= count_rows Cases.item_column i)%nat.
Proof.
  assert (Hne : Cases.item_column <> []) by discriminate.
  split; [exact Hne|].
  destruct (most_popular_has_most_rows Cases.item_column)
    as (_ & Hsome & Hmost).
  destruct (Hsome Hne) as [i Hi]. exists i.
  destruct (Hmost i Hi) as [Hin Hmax].
  split; [exact Hi|]. split; [exact Hin|apply Hmax].
Defined.

Lemma item_pop_counts_every_row_witness :
  In (10, 3%nat) (item_pop Cases.item_column) /\
  3%nat = count_rows Cases.item_column 10.
Proof.
  assert (Hin : In (10, 3%nat) (item_pop Cases.item_column)).
  { vm_compute. repeat first [left; reflexivity | right]. }
  split; [exact Hin|].
  exact (proj1 (proj2 (item_pop_counts_every_row Cases.item_column))
               10 3%nat Hin).
Defined.

Lemma merge_row_multiplicity_witness :
  let merged :=
    merge Sample.interactions (group_representation Sample.gender_table) in
  NoDup (map g_item_id Sample.gender_table) /\
  Permutation
    (map interaction merged)
    (filter (fun d => mem (Splitter.item_id d)
                          (map g_item_id Sample.gender_table))
            Sample.interactions) /\
  map (fun m => (Splitter.user_id (interaction m),
                 Splitter.item_id (interaction m)))
      (firstn 3 merged)
  = [(7, 50); (9, 50); (7, 20)].
Proof.
  cbv zeta.
  assert (Hnd : NoDup (map g_item_id Sample.gender_table)).
  { repeat constructor; simpl; intros H; by_rows. }
  split; [exact Hnd|]. split; [|vm_compute; reflexivity].
  pose proof (merge_row_multiplicity Sample.interactions Sample.gender_table)
    as H.
  cbv zeta in H. destruct H as [_ H]. exact (proj1 (H Hnd)).
Defined.

Lemma category_per_item_when_ordered_witness :
  exists traintest,
    user_timestamp Cases.one_user Sample.train_ratio 10 = Ok traintest /\
    category_per_item traintest = [3; 5; 1; 4; 2; 6; 7; 8; 9; 9] /\
    forall r, In r traintest ->
      nth_error (category_per_item traintest) (Z.to_nat (s_item_id r))
      = Some (s_type_id r).
Proof.
  split_frame. split; [vm_compute; reflexivity|].
  match goal with
  | |- forall r, In r ?tt -> _ =>
      apply (proj2 (category_per_item_when_ordered tt))
  end.
  - vm_compute. reflexivity.
  - vm_compute. repeat constructor.
  - intros r r' Hr Hr' Hid. simpl in Hr, Hr'. by_rows.
Defined.

Lemma item_group_dict_agrees_witness :
  In 0 (items_w_min Cases.provider_rows) /\
  In 1 (items_w_maj Cases.provider_rows) /\
  ~ In 0 (items_w_maj Cases.provider_rows).
Proof.
  assert (Hmin : In 0 (items_w_min Cases.provider_rows))
    by (vm_compute; left; reflexivity).
  split; [exact Hmin|]. split; [vm_compute; left; reflexivity|].
  refine (proj2 (proj2 (proj2 (item_group_dict_agrees
                                 Cases.provider_rows) _)) 0 Hmin).
  intros r r' Hr Hr' Hid. simpl in Hr, Hr'. by_rows.
Defined.

Lemma coverage_needs_both_groups_witness :
  (exists out,
     coverage_results_row Cases.provider_rows [0; 1; 2] Cases.item_coverage
     = inl out) /\
  coverage_results_row Cases.provider_rows [] Cases.item_coverage
  = inr ZeroDivisionError /\
  coverage_results_row Cases.provider_rows [0; 1; 2] [1%float]
  = inr IndexError.
Proof.
  split; [|split].
  - pose proof (coverage_needs_both_groups
                  Cases.provider_rows [0; 1; 2] Cases.item_coverage) as H.
    cbv zeta in H. apply (proj2 (proj1 H)).
    split; [discriminate|]. split; [|split].
    + exists (Cases.provider_row 0 0 1 0). split; [left|]; reflexivity.
    + exists (Cases.provider_row 0 1 0 1).
      split; [right; left|]; reflexivity.
    + intros r Hr _. simpl in Hr. by_rows.
  - pose proof (coverage_needs_both_groups
                  Cases.provider_rows [] Cases.item_coverage) as H.
    cbv zeta in H. apply (proj2 (proj1 (proj2 H))). now left.
  - pose proof (coverage_needs_both_groups
                  Cases.provider_rows [0; 1; 2] [1%float]) as H.
    cbv zeta in H. apply (proj2 (proj2 (proj2 H))).
    split; [discriminate|].
    exists (Cases.provider_row 0 1 0 1).
    split; [right; left; reflexivity|].
    split; [right; reflexivity|]. simpl. lia.
Defined.

Lemma group_coverage_within_total_witness :
  fancy Cases.item_coverage (items_w_min Cases.provider_rows)
  = inl [1; 0]%float /\
  fancy Cases.item_coverage (items_w_maj Cases.provider_rows)
  = inl [1]%float /\
  (covered [1; 0]%float + covered [1]%float
   <= covered Cases.item_coverage)%nat.
Proof.
  split; [vm_compute; reflexivity|]. split; [vm_compute; reflexivity|].
  apply (group_coverage_within_total Cases.provider_rows).
  - intros r r' Hr Hr' Hid. simpl in Hr, Hr'. by_rows.
  - intros r Hr. simpl in Hr. by_rows.
  - vm_compute. reflexivity.
  - vm_compute. reflexivity.
Defined.

End CellRuns.

Section ItemGroupRuns.

Import stdpp.base stdpp.gmap.
Import Cells ItemGroups.

Lemma item_maps_decodes_witness :
  exists traintest,
    user_timestamp Sample.interactions Sample.train_ratio 10 = Ok traintest /\
    forall r, In r traintest ->
      item_maps traintest !! s_item_id r = Some (s_item_id_original r).
Proof.
  eexists.
  match goal with
  | |- _ = Ok ?tt /\ _ =>
      assert (Hrun : user_timestamp Sample.interactions Sample.train_ratio
                                    10%Z = Ok tt)
  end.
  { vm_compute. reflexivity. }
  split; [exact Hrun|].
  match goal with
  | |- forall r, In r ?tt -> _ =>
      exact (item_maps_decodes
               Sample.interactions Sample.train_ratio 10%Z tt Hrun)
  end.
Defined.

Lemma item_group_by_original_witness :
  exists traintest groups,
    user_timestamp Sample.interactions Sample.train_ratio 10 = Ok traintest /\
    item_group Sample.gender_table traintest = Ok groups /\
    length groups = 12%nat.
Proof.
  eexists.
  match goal with
  | |- exists groups, _ = Ok ?tt /\ _ =>
      assert (Hrun : user_timestamp Sample.interactions Sample.train_ratio
                                    10%Z = Ok tt)
  end.
  { vm_compute. reflexivity. }
  match type of Hrun with
  | _ = Ok ?tt =>
      destruct (item_group_by_original
                  Sample.gender_table Sample.interactions Sample.train_ratio
                  10%Z tt Hrun) as (groups & Hgroups & Hlen & _)
  end.
  exists groups. split; [exact Hrun|]. split; [exact Hgroups|].
  rewrite Hlen. vm_compute. reflexivity.
Defined.

End ItemGroupRuns.
